(** * Scorecards: a shallow embedding of the scorecard generator

    The development follows the JavaScript sources module by module:
    [wcif.js] (the competition document and its accessors), [options.js]
    (option identifiers), [sc_data.js] (one record per scorecard) and
    [sc_pdf.js] (display texts and the page layout).  Definitions come
    first, the theorems about them afterwards. *)

From Stdlib Require Import ZArith NArith List String Ascii Bool Lia.
From Stdlib Require Import DecimalString DecimalN DecimalPos.
From Stdlib Require Import Floats.PrimFloat Floats.FloatOps Floats.SpecFloat Uint63.
From stdpp Require Import gmap strings.
Import ListNotations.

Open Scope list_scope.
Open Scope string_scope.
Open Scope Z_scope.

(* ================================================================= *)
(** ** The host language *)

(** What the sources use of JavaScript itself: exceptions, the values
    [undefined], [null] and [NaN], conversion of numbers to text, and a
    few string methods. *)
Module JS.

(** The exceptions the sources can raise: a property read on [undefined]
    or [null] (TypeError), an invalid array length (RangeError), and
    [throw new Error(message)]. *)
Inductive exn : Type :=
| TypeError
| RangeError
| Error (message : string).

(** A call either returns a value or throws. *)
Inductive result (A : Type) : Type :=
| Ok (a : A)
| Throw (e : exn).
Arguments Ok {A} a.
Arguments Throw {A} e.

Definition bind {A B : Type} (m : result A) (k : A -> result B) : result B :=
  match m with
  | Ok a => k a
  | Throw e => Throw e
  end.

Definition rmap {A B : Type} (f : A -> B) (m : result A) : result B :=
  bind m (fun a => Ok (f a)).

(** [array.map(f)] for a callback that may throw: left to right, the
    first exception ends the traversal. *)
Fixpoint mapM {A B : Type} (f : A -> result B) (l : list A) : result (list B) :=
  match l with
  | [] => Ok []
  | x :: xs =>
      bind (f x) (fun y => bind (mapM f xs) (fun ys => Ok (y :: ys)))
  end.

(** A number of the program.  Every number the modelled functions handle
    is an integer (a count, an identifier, a duration in centiseconds) or
    [NaN]. *)
Inductive number : Type :=
| NaN
| Int (z : Z).

(** A value that may also be [undefined] or [null]. *)
Inductive js (A : Type) : Type :=
| Undefined
| Null
| Val (a : A).
Arguments Undefined {A}.
Arguments Null {A}.
Arguments Val {A} a.

(** A string kept as its sequence of UTF-16 code units, for the texts
    that are indexed and sliced. *)
Definition units := list N.

(** Decimal text of a natural number, and of an integer ([String(n)],
    and [n] inside a template literal). *)
Definition showN (n : N) : string := NilEmpty.string_of_uint (N.to_uint n).

Definition showZ (z : Z) : string :=
  if z <? 0 then "-" ++ showN (Z.to_N (- z)) else showN (Z.to_N z).

Definition showNat (n : nat) : string := showN (N.of_nat n).

Definition showNumber (n : number) : string :=
  match n with
  | NaN => "NaN"
  | Int z => showZ z
  end.

(** A value inside a template literal. *)
Definition template {A : Type} (show : A -> string) (v : js A) : string :=
  match v with
  | Undefined => "undefined"
  | Null => "null"
  | Val a => show a
  end.

(** ToNumber on a number, [null] or [undefined]. *)
Definition toNumber (v : js number) : number :=
  match v with
  | Undefined => NaN
  | Null => Int 0
  | Val n => n
  end.

Definition sub (a b : number) : number :=
  match a, b with
  | Int x, Int y => Int (x - y)
  | _, _ => NaN
  end.

Definition add (a b : number) : number :=
  match a, b with
  | Int x, Int y => Int (x + y)
  | _, _ => NaN
  end.

(** [a % b]: the remainder takes the sign of the dividend; a zero
    divisor gives [NaN]. *)
Definition rem (a b : number) : number :=
  match a, b with
  | Int x, Int y => if y =? 0 then NaN else Int (Z.rem x y)
  | _, _ => NaN
  end.

(** Strict equality of numbers: [NaN] equals nothing. *)
Definition strictEq (a b : number) : bool :=
  match a, b with
  | Int x, Int y => x =? y
  | _, _ => false
  end.

(** [str.split(sep)] for a separator that is not empty.  [fuel] bounds
    the number of cuts; the length of the string is always enough. *)
Fixpoint splitFuel (fuel : nat) (sep s : string) : list string :=
  match fuel with
  | O => [s]
  | S fuel' =>
      match index 0 sep s with
      | None => [s]
      | Some i =>
          substring 0 i s
            :: splitFuel fuel' sep
                 (substring (i + String.length sep)
                    (String.length s - (i + String.length sep)) s)
      end
  end.

Definition split (sep s : string) : list string :=
  splitFuel (String.length s) sep s.

(** [array[i]]: [undefined] past the end. *)
Definition at_ {A : Type} (l : list A) (i : nat) : js A :=
  match nth_error l i with
  | Some a => Val a
  | None => Undefined
  end.

(** Value of a text made of decimal digits only. *)
Fixpoint digitsValue (acc : N) (s : string) : option N :=
  match s with
  | EmptyString => Some acc
  | String c s' =>
      let d := N_of_ascii c in
      if ((48 <=? d) && (d <=? 57))%N
      then digitsValue (10 * acc + (d - 48))%N s'
      else None
  end.

(** [Number(text)].  Round identifiers and activity codes carry plain
    digit strings, and those are converted exactly (the empty text is
    0, [undefined] is [NaN]); any other text is sent to [NaN] here. *)
Definition Number_ (v : js string) : number :=
  match v with
  | Undefined => NaN
  | Null => Int 0
  | Val s =>
      match digitsValue 0%N s with
      | Some n => Int (Z.of_N n)
      | None => NaN
      end
  end.

(** [str.replace(' ', '-')] with a string pattern: only the first
    occurrence is replaced. *)
Fixpoint replaceFirst (from to : ascii) (s : string) : string :=
  match s with
  | EmptyString => EmptyString
  | String c s' =>
      if Ascii.eqb c from then String to s' else String c (replaceFirst from to s')
  end.

(** [str.replaceAll(' ', '_')]. *)
Fixpoint replaceAll (from to : ascii) (s : string) : string :=
  match s with
  | EmptyString => EmptyString
  | String c s' =>
      String (if Ascii.eqb c from then to else c) (replaceAll from to s')
  end.

(** Numbers as IEEE doubles, for the one place where rounding shows:
    [Math.floor(n * (pct / 100))].  The conversion is exact for the
    integers a double holds exactly (below 2^53 in absolute value). *)
Definition doubleOfZ (z : Z) : float :=
  if z <? 0 then PrimFloat.opp (PrimFloat.of_uint63 (Uint63.of_Z (- z)))
  else PrimFloat.of_uint63 (Uint63.of_Z z).

(** [Math.floor] of a double, as an integer; not a number for [NaN] and
    the infinities. *)
Definition Math_floor (f : float) : number :=
  match Prim2SF f with
  | S754_zero _ => Int 0
  | S754_finite negative m e =>
      let scaled := if e <? 0 then Z.pos m / 2 ^ (- e) else Z.pos m * 2 ^ e in
      let exact := if e <? 0 then Z.pos m mod 2 ^ (- e) =? 0 else true in
      if negative
      then Int (if exact then - scaled else - scaled - 1)
      else Int scaled
  | _ => NaN
  end.

End JS.

Notation "'let*' x ':=' m 'in' k" := (JS.bind m (fun x => k))
  (at level 10, x name, m at level 100, k at level 200).

(* ================================================================= *)
(** ** wcif.js: the competition document *)

Module WCIF.

(** The parts of the document the accessors read.  A field that may be
    [null] in the document is an [option]; the fields [id] and [name]
    of the document are called after their object here ([roundId],
    [eventId], [childId], [roomName], [personName]). *)
Record Cutoff : Type := {
  numberOfAttempts : Z;
  attemptResult : Z
}.

Record TimeLimit : Type := {
  centiseconds : Z;
  cumulativeRoundIds : list string
}.

Record AdvancementCondition : Type := {
  type : string;
  level : Z
}.

Record Round : Type := {
  roundId : string;
  format : string;
  cutoff : option Cutoff;
  timeLimit : option TimeLimit;
  advancementCondition : option AdvancementCondition
}.

Record Event : Type := {
  eventId : string;
  rounds : list Round
}.

(** A group of a round: a child of the round's top-level activity. *)
Record ChildActivity : Type := {
  childId : Z;
  childActivityCode : string
}.

Record Activity : Type := {
  activityCode : string;
  childActivities : list ChildActivity
}.

Record Room : Type := {
  roomName : string;
  activities : list Activity
}.

Record Venue : Type := {
  rooms : list Room
}.

Record Assignment : Type := {
  activityId : Z;
  assignmentCode : string
}.

Record Registration : Type := {
  status : string;
  isCompeting : bool
}.

Record Person : Type := {
  registrantId : Z;
  personName : JS.units;
  wcaId : option string;
  registration : option Registration;
  assignments : list Assignment
}.

(** The WCIF object: the competition id and the parsed document
    ([#data]; [venues] is [schedule.venues]). *)
Record t : Type := {
  compId : string;
  name : string;
  events : list Event;
  persons : list Person;
  venues : list Venue
}.

Definition getCompName (w : t) : string := name w.

Definition getEventIds (w : t) : list string :=
  List.filter (fun x => negb (String.eqb x "333fm")) (map eventId (events w)).

Definition eventIdToName (id : string) : JS.js string :=
  if String.eqb id "333" then JS.Val "3x3x3 Cube"
  else if String.eqb id "222" then JS.Val "2x2x2 Cube"
  else if String.eqb id "444" then JS.Val "4x4x4 Cube"
  else if String.eqb id "555" then JS.Val "5x5x5 Cube"
  else if String.eqb id "666" then JS.Val "6x6x6 Cube"
  else if String.eqb id "777" then JS.Val "7x7x7 Cube"
  else if String.eqb id "333bf" then JS.Val "3x3x3 Blindfolded"
  else if String.eqb id "333fm" then JS.Val "3x3x3 Fewest Moves"
  else if String.eqb id "333oh" then JS.Val "3x3x3 One-Handed"
  else if String.eqb id "clock" then JS.Val "Clock"
  else if String.eqb id "minx" then JS.Val "Megaminx"
  else if String.eqb id "pyram" then JS.Val "Pyraminx"
  else if String.eqb id "skewb" then JS.Val "Skewb"
  else if String.eqb id "sq1" then JS.Val "Square-1"
  else if String.eqb id "444bf" then JS.Val "4x4x4 Blindfolded"
  else if String.eqb id "555bf" then JS.Val "5x5x5 Blindfolded"
  else if String.eqb id "333mbf" then JS.Val "3x3x3 Multi-Blind"
  else JS.Undefined.

(** [#getEventObj]: [undefined] ([None]) when no event has the id. *)
Definition getEventObj (w : t) (eventId_ : string) : option Event :=
  find (fun x => String.eqb (eventId x) eventId_) (events w).

(** [#getRoundObj]: reading [rounds] of a missing event throws; a
    missing round is [undefined]. *)
Definition getRoundObj (w : t) (eventId_ : string) (round : nat)
  : JS.result (option Round) :=
  match getEventObj w eventId_ with
  | None => JS.Throw JS.TypeError
  | Some eventObj =>
      JS.Ok (find (fun x => String.eqb (roundId x)
                              (eventId_ ++ "-r" ++ JS.showNat round))
               (rounds eventObj))
  end.

(** A property read on the round object: throws when it is [undefined]. *)
Definition roundField {A : Type} (w : t) (eventId_ : string) (round : nat)
    (field : Round -> A) : JS.result A :=
  let* roundObj := getRoundObj w eventId_ round in
  match roundObj with
  | None => JS.Throw JS.TypeError
  | Some r => JS.Ok (field r)
  end.

Definition getRoundFromRoundId (roundId_ : string) : JS.number :=
  JS.Number_ (JS.at_ (JS.split "-r" roundId_) 1).

Definition getEventIdFromRoundId (roundId_ : string) : string :=
  match JS.split "-r" roundId_ with
  | piece :: _ => piece
  | [] => EmptyString
  end.

Definition getActCode (eventId_ : string) (round : nat) : string :=
  if String.eqb eventId_ "333mbf"
  then eventId_ ++ "-r" ++ JS.showNat round ++ "-a1"
  else eventId_ ++ "-r" ++ JS.showNat round.

Definition getNumRounds (w : t) (eventId_ : string) : JS.result nat :=
  match getEventObj w eventId_ with
  | None => JS.Throw JS.TypeError
  | Some eventObj => JS.Ok (List.length (rounds eventObj))
  end.

Definition getRoomObjs (w : t) : list Room := flat_map rooms (venues w).

Definition getRoomNames (w : t) : list string := map roomName (getRoomObjs w).

Definition getNumRooms (w : t) : nat := List.length (getRoomObjs w).

Definition getTopLevelActObjs (w : t) : list Activity :=
  flat_map activities (getRoomObjs w).

Definition getGroupActIds (w : t) (eventId_ : string) (round : nat) : list Z :=
  let roundId_ := getActCode eventId_ round in
  map childId
    (flat_map childActivities
       (List.filter (fun x => String.eqb (activityCode x) roundId_)
          (getTopLevelActObjs w))).

Definition getGroupActObjs (w : t) : list ChildActivity :=
  flat_map childActivities (getTopLevelActObjs w).

Definition competingInAct (actId : Z) (personObj : Person) : bool :=
  existsb (fun x => (activityId x =? actId)
                    && String.eqb (assignmentCode x) "competitor")
    (assignments personObj).

Definition getCompetitorsFromActId (w : t) (actId : Z) : list Z :=
  map registrantId (List.filter (competingInAct actId) (persons w)).

Definition getGroupNum (w : t) (actId : Z) : JS.result JS.number :=
  match find (fun x => childId x =? actId) (getGroupActObjs w) with
  | None => JS.Throw JS.TypeError
  | Some actObj =>
      let actCode := childActivityCode actObj in
      (* remove attempt info from multiblind activity codes *)
      let actCodeNoAttempt :=
        match JS.split "-a" actCode with
        | piece :: _ => piece
        | [] => EmptyString
        end in
      let groupString := JS.at_ (JS.split "-g" actCodeNoAttempt) 1 in
      JS.Ok (JS.Number_ groupString)
  end.

Definition roomHasActId (actId : Z) (roomObj : Room) : bool :=
  existsb (fun x => childId x =? actId)
    (flat_map childActivities (activities roomObj)).

Definition getGroupRoom (w : t) (actId : Z) : JS.result string :=
  match find (roomHasActId actId) (getRoomObjs w) with
  | None => JS.Throw JS.TypeError
  | Some roomObj => JS.Ok (roomName roomObj)
  end.

Definition getFormat (w : t) (eventId_ : string) (round : nat) : JS.result string :=
  roundField w eventId_ round format.

(** MULTIBLIND: always [null]; the round is not even looked up. *)
Definition getCutoffCentisec (w : t) (eventId_ : string) (round : nat)
  : JS.result (JS.js JS.number) :=
  if String.eqb eventId_ "333mbf" then JS.Ok JS.Null
  else
    let* cutoffObj := roundField w eventId_ round cutoff in
    JS.Ok (match cutoffObj with
           | None => JS.Null
           | Some c => JS.Val (JS.Int (attemptResult c))
           end).

Definition getCutoffAttempts (w : t) (eventId_ : string) (round : nat)
  : JS.result (JS.js JS.number) :=
  if String.eqb eventId_ "333mbf" then JS.Ok JS.Null
  else
    let* cutoffObj := roundField w eventId_ round cutoff in
    JS.Ok (match cutoffObj with
           | None => JS.Null
           | Some c => JS.Val (JS.Int (numberOfAttempts c))
           end).

Definition getTimeLimit (w : t) (eventId_ : string) (round : nat)
  : JS.result (JS.js JS.number) :=
  let* limit := roundField w eventId_ round timeLimit in
  JS.Ok (match limit with
         | None => JS.Null
         | Some l => JS.Val (JS.Int (centiseconds l))
         end).

(** The competitors of all groups of a round, group after group; its
    length is what both functions below call the number assigned. *)
Definition assignedCompetitors (w : t) (eventId_ : string) (round : nat) : list Z :=
  flat_map (getCompetitorsFromActId w) (getGroupActIds w eventId_ round).

Definition groupsAreAssigned (w : t) (eventId_ : string) (round : nat) : bool :=
  let numAssigned := Z.of_nat (List.length (assignedCompetitors w eventId_ round)) in
  0 <? numAssigned.

(** [Math.floor(numAdvancing * (pct / 100))], computed on doubles as the
    source does. *)
Definition floorPct (numAdvancing : JS.number) (pct : Z) : JS.number :=
  match numAdvancing with
  | JS.NaN => JS.NaN
  | JS.Int n =>
      JS.Math_floor
        (PrimFloat.mul (JS.doubleOfZ n)
           (PrimFloat.div (JS.doubleOfZ pct) (JS.doubleOfZ 100)))
  end.

(** The [for (i = round; i >= 1; i--)] loop.  It yields [baseNum]
    ([undefined] when the body never ran) and the stack of percentages,
    most recently pushed first. *)
Fixpoint walkBack (w : t) (eventId_ : string) (i : nat) (pctAdvancingStack : list Z)
  : JS.result (JS.js JS.number * list Z) :=
  match i with
  | O => JS.Ok (JS.Undefined, pctAdvancingStack)
  | S i' =>
      if Nat.eqb (S i') 1 || groupsAreAssigned w eventId_ (S i')
      then JS.Ok (JS.Val (JS.Int (Z.of_nat
                    (List.length (assignedCompetitors w eventId_ (S i'))))),
                  pctAdvancingStack)
      else
        let* advanceObj := roundField w eventId_ i' advancementCondition in
        match advanceObj with
        | None => JS.Throw JS.TypeError
        | Some a =>
            if String.eqb (type a) "ranking"
            then JS.Ok (JS.Val (JS.Int (level a)), pctAdvancingStack)
            else walkBack w eventId_ i' (level a :: pctAdvancingStack)
        end
  end.

(** The [while (pctAdvancingStack.length !== 0)] loop. *)
Fixpoint popAll (pctAdvancingStack : list Z) (numAdvancing : JS.js JS.number)
  : JS.js JS.number :=
  match pctAdvancingStack with
  | [] => numAdvancing
  | pct :: rest => popAll rest (JS.Val (floorPct (JS.toNumber numAdvancing) pct))
  end.

Definition getNumAdvancingToRound (w : t) (eventId_ : string) (round : nat)
  : JS.result (JS.js JS.number) :=
  let* found := walkBack w eventId_ round [] in
  JS.Ok (popAll (snd found) (fst found)).

Definition getCumulRoundIds (w : t) (eventId_ : string) (round : nat)
  : JS.result (list string) :=
  let* limit := roundField w eventId_ round timeLimit in
  JS.Ok (match limit with
         | None => []
         | Some l => cumulativeRoundIds l
         end).

Definition personIsCompeting (personObj : Person) : bool :=
  match registration personObj with
  | None => false
  | Some r => String.eqb (status r) "accepted" && isCompeting r
  end.

Definition getCompetitorObjs (w : t) : list Person :=
  List.filter personIsCompeting (persons w).

Definition getCompetitorRegistrantIds (w : t) : list Z :=
  map registrantId (getCompetitorObjs w).

Definition getPersonObj (w : t) (registrantId_ : Z) : option Person :=
  find (fun x => registrantId x =? registrantId_) (persons w).

Definition personField {A : Type} (w : t) (registrantId_ : Z)
    (field : Person -> A) : JS.result A :=
  match getPersonObj w registrantId_ with
  | None => JS.Throw JS.TypeError
  | Some p => JS.Ok (field p)
  end.

Definition isNewCompetitor (w : t) (registrantId_ : Z) : JS.result bool :=
  personField w registrantId_
    (fun p => match wcaId p with None => true | Some _ => false end).

Definition getWcaId (w : t) (registrantId_ : Z) : JS.result (JS.js string) :=
  personField w registrantId_
    (fun p => match wcaId p with None => JS.Null | Some i => JS.Val i end).

Definition getPersonName (w : t) (registrantId_ : Z) : JS.result JS.units :=
  personField w registrantId_ personName.

End WCIF.

(* ================================================================= *)
(** ** options.js: options and their identifiers *)

(** The value of an option: a number (a count of pages) or a text (a
    room abbreviation, or a form field as submitted). *)
Inductive OptionValue : Type :=
| NumberValue (n : Z)
| TextValue (s : string).

(** [class Option]; [id] is the private [#id] read through [getId()]. *)
Record Option_ : Type := {
  inputType : string;
  getId : string;
  defaultValue : OptionValue;
  value : OptionValue
}.

Module RoundBlanksOption.

Definition genId (eventId : string) (round : nat) : string :=
  "blanks-round-" ++ eventId ++ "-r" ++ JS.showNat round.

Definition new (eventId : string) (round : nat) (defaultValue_ : OptionValue) : Option_ :=
  {| inputType := "number";
     getId := genId eventId round;
     defaultValue := defaultValue_;
     value := defaultValue_ |}.

End RoundBlanksOption.

Module RoomOption.

Definition genId (room : string) : string :=
  let roomNoSpaces := JS.replaceFirst " "%char "-"%char room in
  "room-abbr-" ++ roomNoSpaces.

Definition new (room : string) (defaultValue_ : OptionValue) : Option_ :=
  {| inputType := "text";
     getId := genId room;
     defaultValue := defaultValue_;
     value := defaultValue_ |}.

End RoomOption.

(** [optionsObj]: the object that maps option ids to options. *)
Abbreviation OptionsObj := (gmap string Option_).

(** The digits of a decimal text: its value is [mantissa / 10^fraction].
    [fraction] is [None] until the point has been read. *)
Fixpoint decimalDigits (s : string) (mantissa : Z) (fraction : option nat)
  : option (Z * nat) :=
  match s with
  | EmptyString =>
      Some (mantissa, match fraction with Some f => f | None => O end)
  | String c s' =>
      let d := N_of_ascii c in
      if Ascii.eqb c "."%char then
        match fraction with
        | None => decimalDigits s' mantissa (Some O)
        | Some _ => None
        end
      else if ((48 <=? d) && (d <=? 57))%N
      then decimalDigits s' (10 * mantissa + (Z.of_N d - 48)) (option_map S fraction)
      else None
  end.

(** [option.value * scPerPage]: ToNumber of the value, times a number.
    A form field holds a decimal text (a default such as 2.5 pages
    included); the empty text counts as 0, a text that is no plain
    decimal as [NaN].  The product is kept when it is an integer; one
    that is not is no array length either, and is given as [NaN]. *)
Definition valueTimes (v : OptionValue) (k : Z) : JS.number :=
  match v with
  | NumberValue n => JS.Int (n * k)
  | TextValue s =>
      if String.eqb s "." then JS.NaN
      else
        match decimalDigits s 0 None with
        | Some (mantissa, fraction) =>
            if (mantissa * k) mod 10 ^ Z.of_nat fraction =? 0
            then JS.Int (mantissa * k / 10 ^ Z.of_nat fraction)
            else JS.NaN
        | None => JS.NaN
        end
  end.

(* ================================================================= *)
(** ** sc_data.js: the data of one scorecard *)

Inductive SCType : Type :=
| competitor
| roundBlank
| formatBlank.

Module CumulRoundInfo.

Record t : Type := {
  eventId : string;
  eventName : JS.js string;
  round : JS.number;
  numRounds : nat
}.

(** [new CumulRoundInfo(wcif, roundId)]. *)
Definition new (wcif : WCIF.t) (roundId : string) : JS.result t :=
  let eventId_ := WCIF.getEventIdFromRoundId roundId in
  let* numRounds_ := WCIF.getNumRounds wcif eventId_ in
  JS.Ok {| eventId := eventId_;
           eventName := WCIF.eventIdToName eventId_;
           round := WCIF.getRoundFromRoundId roundId;
           numRounds := numRounds_ |}.

End CumulRoundInfo.

Module SCData.

(** The members of [class SCData].  The class has no other member: in
    particular none for a room abbreviation. *)
Record t : Type := {
  compName : string;
  registrantId : JS.js JS.number;
  newCompetitor : JS.js bool;
  wcaId : JS.js string;
  personName : JS.js JS.units;
  eventId : string;
  eventName : JS.js string;
  round : nat;
  numRounds : nat;
  format : string;
  cutoffCentisec : JS.js JS.number;
  cutoffAttempts : JS.js JS.number;
  timeLimit : JS.js JS.number;
  cumulRoundInfos : list CumulRoundInfo.t;
  groupNum : JS.js JS.number;
  groupRoom : JS.js string;
  numRooms : JS.js JS.number;
  type : SCType
}.

(** [scData.groupRoomAbbr]: a read of a property that no [SCData]
    object has, which yields [undefined]. *)
Definition groupRoomAbbr (scData : t) : JS.js string := JS.Undefined.

Definition competitorScData (wcif : WCIF.t) (eventId_ : string) (round_ : nat)
    (actId registrantId_ : Z) : JS.result t :=
  let* newCompetitor_ := WCIF.isNewCompetitor wcif registrantId_ in
  let* wcaId_ := WCIF.getWcaId wcif registrantId_ in
  let* personName_ := WCIF.getPersonName wcif registrantId_ in
  let* numRounds_ := WCIF.getNumRounds wcif eventId_ in
  let* format_ := WCIF.getFormat wcif eventId_ round_ in
  let* cutoffCentisec_ := WCIF.getCutoffCentisec wcif eventId_ round_ in
  let* cutoffAttempts_ := WCIF.getCutoffAttempts wcif eventId_ round_ in
  let* timeLimit_ := WCIF.getTimeLimit wcif eventId_ round_ in
  let* cumulRoundIds := WCIF.getCumulRoundIds wcif eventId_ round_ in
  let* cumulRoundInfos_ := JS.mapM (CumulRoundInfo.new wcif) cumulRoundIds in
  let* groupNum_ := WCIF.getGroupNum wcif actId in
  let* groupRoom_ := WCIF.getGroupRoom wcif actId in
  JS.Ok {| type := competitor;
           compName := WCIF.getCompName wcif;
           registrantId := JS.Val (JS.Int registrantId_);
           newCompetitor := JS.Val newCompetitor_;
           wcaId := wcaId_;
           personName := JS.Val personName_;
           eventId := eventId_;
           eventName := WCIF.eventIdToName eventId_;
           round := round_;
           numRounds := numRounds_;
           format := format_;
           cutoffCentisec := cutoffCentisec_;
           cutoffAttempts := cutoffAttempts_;
           timeLimit := timeLimit_;
           cumulRoundInfos := cumulRoundInfos_;
           groupNum := JS.Val groupNum_;
           groupRoom := JS.Val groupRoom_;
           numRooms := JS.Val (JS.Int (Z.of_nat (WCIF.getNumRooms wcif))) |}.

Definition roundBlankScData (wcif : WCIF.t) (eventId_ : string) (round_ : nat)
  : JS.result t :=
  let* numRounds_ := WCIF.getNumRounds wcif eventId_ in
  let* format_ := WCIF.getFormat wcif eventId_ round_ in
  let* cutoffCentisec_ := WCIF.getCutoffCentisec wcif eventId_ round_ in
  let* cutoffAttempts_ := WCIF.getCutoffAttempts wcif eventId_ round_ in
  let* timeLimit_ := WCIF.getTimeLimit wcif eventId_ round_ in
  let* cumulRoundIds := WCIF.getCumulRoundIds wcif eventId_ round_ in
  let* cumulRoundInfos_ := JS.mapM (CumulRoundInfo.new wcif) cumulRoundIds in
  JS.Ok {| type := roundBlank;
           compName := WCIF.getCompName wcif;
           registrantId := JS.Null;
           newCompetitor := JS.Null;
           wcaId := JS.Null;
           personName := JS.Null;
           eventId := eventId_;
           eventName := WCIF.eventIdToName eventId_;
           round := round_;
           numRounds := numRounds_;
           format := format_;
           cutoffCentisec := cutoffCentisec_;
           cutoffAttempts := cutoffAttempts_;
           timeLimit := timeLimit_;
           cumulRoundInfos := cumulRoundInfos_;
           groupNum := JS.Null;
           groupRoom := JS.Null;
           numRooms := JS.Null |}.

End SCData.

Definition getScDataForGroup (wcif : WCIF.t) (eventId : string) (round : nat)
    (actId : Z) : JS.result (list SCData.t) :=
  JS.mapM (fun registrantId =>
             SCData.competitorScData wcif eventId round actId registrantId)
    (WCIF.getCompetitorsFromActId wcif actId).

(** [Array(Number(numBlanks))]: the length must be an integer from 0 to
    2^32 - 1. *)
Definition arrayOfLength (numBlanks : JS.number) : JS.result nat :=
  match numBlanks with
  | JS.NaN => JS.Throw JS.RangeError
  | JS.Int n =>
      if (0 <=? n) && (n <? 2 ^ 32) then JS.Ok (Z.to_nat n)
      else JS.Throw JS.RangeError
  end.

Definition getScDataForRoundBlanks (wcif : WCIF.t) (optionsObj : OptionsObj)
    (eventId : string) (round : nat) : JS.result (list SCData.t) :=
  let id := RoundBlanksOption.genId eventId round in
  let option := optionsObj !! id in
  let scPerPage := 4 in
  (* Blanks to fill in the remaining entries of a page, if applicable *)
  let* numFillerBlanks :=
    if WCIF.groupsAreAssigned wcif eventId round
    then
      let* numCompetitors := WCIF.getNumAdvancingToRound wcif eventId round in
      JS.Ok (JS.sub (JS.Int scPerPage)
               (JS.rem (JS.toNumber numCompetitors) (JS.Int scPerPage)))
    else JS.Ok (JS.Int 0) in
  match option with
  | None => JS.Throw JS.TypeError
  | Some o =>
      let numBlanks := JS.add numFillerBlanks (valueTimes (value o) scPerPage) in
      let* len := arrayOfLength numBlanks in
      let* blank := SCData.roundBlankScData wcif eventId round in
      JS.Ok (repeat blank len)
  end.

Definition getScDataForRound (wcif : WCIF.t) (optionsObj : OptionsObj)
    (eventId : string) (round : nat) : JS.result (list SCData.t) :=
  (* Non-blank (competitor-specific) scorecards *)
  let* groups := JS.mapM (getScDataForGroup wcif eventId round)
                   (WCIF.getGroupActIds wcif eventId round) in
  (* Add blank scorecards *)
  let* blanks := getScDataForRoundBlanks wcif optionsObj eventId round in
  JS.Ok (concat groups ++ blanks)%list.

(** The rounds [from], [from + 1], ... ([count] of them), concatenated. *)
Fixpoint scDataForRounds (wcif : WCIF.t) (optionsObj : OptionsObj)
    (eventId : string) (from count : nat) : JS.result (list SCData.t) :=
  match count with
  | O => JS.Ok []
  | S count' =>
      let* here := getScDataForRound wcif optionsObj eventId from in
      let* rest := scDataForRounds wcif optionsObj eventId (S from) count' in
      JS.Ok (here ++ rest)%list
  end.

Definition getScDataForEvent (wcif : WCIF.t) (optionsObj : OptionsObj)
    (eventId : string) : JS.result (list SCData.t) :=
  let* numRounds := WCIF.getNumRounds wcif eventId in
  scDataForRounds wcif optionsObj eventId 1 numRounds.

(* ================================================================= *)
(** ** sc_pdf.js: the texts printed on a scorecard *)

(** String methods on code units, as [#setNameData] uses them. *)
Module Units.

(** WhiteSpace and LineTerminator code units, which [trim] removes. *)
Definition isWhiteSpace (c : N) : bool :=
  ((9 <=? c) && (c <=? 13) || (c =? 32) || (c =? 160) || (c =? 5760)
   || (8192 <=? c) && (c <=? 8202) || (c =? 8232) || (c =? 8233)
   || (c =? 8239) || (c =? 8287) || (c =? 12288) || (c =? 65279))%N.

Fixpoint trimStart (s : JS.units) : JS.units :=
  match s with
  | [] => []
  | c :: s' => if isWhiteSpace c then trimStart s' else s
  end.

Definition trimEnd (s : JS.units) : JS.units := rev (trimStart (rev s)).

Definition trim (s : JS.units) : JS.units := trimEnd (trimStart s).

Fixpoint indexOfFrom (c : N) (s : JS.units) (i : Z) : Z :=
  match s with
  | [] => -1
  | x :: s' => if (x =? c)%N then i else indexOfFrom c s' (i + 1)
  end.

(** [s.indexOf(c)] for a one-unit pattern: the first index, or -1. *)
Definition indexOf (c : N) (s : JS.units) : Z := indexOfFrom c s 0.

(** [s.slice(start, end)]: a negative index counts from the end, both
    are clamped to the string. *)
Definition slice (s : JS.units) (start end_ : Z) : JS.units :=
  let len := Z.of_nat (List.length s) in
  let from := if start <? 0 then Z.max (len + start) 0 else Z.min start len in
  let to := if end_ <? 0 then Z.max (len + end_) 0 else Z.min end_ len in
  let span := Z.max (to - from) 0 in
  firstn (Z.to_nat span) (skipn (Z.to_nat from) s).

(** The code units of a text written in ASCII. *)
Fixpoint ofAscii (s : string) : JS.units :=
  match s with
  | EmptyString => []
  | String c s' => N_of_ascii c :: ofAscii s'
  end.

Definition openPar : N := 40.

End Units.

Module SCPDFData.

Record t : Type := {
  type : SCType;
  compName : string;
  registrantId : JS.js string;
  wcaId : JS.js string;
  personNameRoman : JS.js JS.units;
  personNameTrans : JS.js JS.units;
  eventAndRoundText : JS.js string;
  attemptsPreCutoff : JS.js JS.number;
  attemptsPostCutoff : JS.js JS.number;
  cutoffText : JS.js string;
  timeLimitStartText : JS.js string;
  timeLimitEndText : JS.js string;
  group : JS.js string
}.

(** [#formatToAttempts]; [undefined] for a format that is not a key. *)
Definition formatToAttempts (format : string) : JS.js JS.number :=
  if String.eqb format "a" then JS.Val (JS.Int 5)
  else if String.eqb format "m" then JS.Val (JS.Int 3)
  else if String.eqb format "1" then JS.Val (JS.Int 1)
  else if String.eqb format "2" then JS.Val (JS.Int 2)
  else if String.eqb format "3" then JS.Val (JS.Int 3)
  else if String.eqb format "5" then JS.Val (JS.Int 5)
  else JS.Undefined.

(** [#formatToCutoffAttempts]. *)
Definition formatToCutoffAttempts (format : string) : JS.js JS.number :=
  if String.eqb format "a" then JS.Val (JS.Int 2)
  else if String.eqb format "m" then JS.Val (JS.Int 1)
  else if String.eqb format "1" then JS.Null
  else if String.eqb format "2" then JS.Null
  else if String.eqb format "3" then JS.Null
  else if String.eqb format "5" then JS.Null
  else JS.Undefined.

(** [#setNameData]: the members [personNameRoman] and
    [personNameTrans] it sets. *)
Definition setNameData (scDataName : JS.units) : JS.units * JS.js JS.units :=
  let scDataName := Units.trim scDataName in
  let openParInd := Units.indexOf Units.openPar scDataName in
  if openParInd =? -1
  then (scDataName, JS.Null)
  else (Units.trim (Units.slice scDataName 0 openParInd),
        (* exclude open and closed parentheses *)
        JS.Val (Units.slice scDataName (openParInd + 1) (-1))).

(** [#setPersonData]: [registrantId], [wcaId] and the two name members.
    Calling [trim] on a name that is [null] or [undefined] throws. *)
Definition setPersonData (scData : SCData.t)
  : JS.result (string * JS.js string * (JS.units * JS.js JS.units)) :=
  let registrantId_ := JS.template JS.showNumber (SCData.registrantId scData) in
  let wcaId_ :=
    match SCData.newCompetitor scData with
    | JS.Val true => JS.Val "New Competitor"
    | _ => SCData.wcaId scData
    end in
  match SCData.personName scData with
  | JS.Val scDataName => JS.Ok (registrantId_, wcaId_, setNameData scDataName)
  | _ => JS.Throw JS.TypeError
  end.

Definition getEventAndRoundText (eventName : JS.js string) (round numRounds : JS.number)
  : string :=
  let roundText :=
    if JS.strictEq round numRounds then "Final"
    else "Round " ++ JS.showNumber round in
  JS.template id eventName ++ " " ++ roundText.

Definition setEventAndRoundText (scData : SCData.t) : string :=
  getEventAndRoundText (SCData.eventName scData)
    (JS.Int (Z.of_nat (SCData.round scData)))
    (JS.Int (Z.of_nat (SCData.numRounds scData))).

(** Durations.  A time value is a multiple of 1/100, and is kept in
    hundredths: [Int v] stands for v/100.  On a whole number of
    centiseconds the quotients and remainders of [#getTimeText] are
    such values or differ from one by a rounding error that neither
    [Number.isInteger] nor [toFixed(2)] can see. *)

Definition twoDigits (d : Z) : string :=
  (if d <? 10 then "0" else "") ++ JS.showZ d.

(** [value.toFixed(2)]. *)
Definition toFixed2 (value : Z) : string :=
  (if value <? 0 then "-" else "")
  ++ JS.showZ (Z.abs value / 100) ++ "." ++ twoDigits (Z.abs value mod 100).

Definition getTimeTextPart (value : JS.number) (unit : string) : string :=
  match value with
  | JS.NaN => "NaN " ++ unit ++ "s"
  | JS.Int v =>
      (* No need to display any text if value is 0 *)
      if v =? 0 then ""
      else
        let valueText :=
          if Z.rem v 100 =? 0 then JS.showZ (Z.quot v 100) else toFixed2 v in
        let unitText := if v =? 100 then unit else unit ++ "s" in
        valueText ++ " " ++ unitText
  end.

Definition timeOf (f : Z -> Z) (totalCentisec : JS.number) : JS.number :=
  match totalCentisec with
  | JS.NaN => JS.NaN
  | JS.Int c => JS.Int (f c)
  end.

Definition getTimeText (totalCentisec : JS.number) : string :=
  let hours := timeOf (fun c => 100 * Z.quot c (100 * 60 * 60)) totalCentisec in
  let minutes := timeOf (fun c => 100 * Z.rem (Z.quot c (100 * 60)) 60) totalCentisec in
  (* Centiseconds are intentionally kept *)
  let seconds := timeOf (fun c => Z.rem c (100 * 60)) totalCentisec in
  let timeParts := [(hours, "hour"); (minutes, "minute"); (seconds, "second")] in
  String.concat " "
    (List.filter (fun x => negb (String.eqb x ""))
       (map (fun x => getTimeTextPart (fst x) (snd x)) timeParts)).

Definition getCutoffText (attempts totalCentisec : JS.js JS.number)
  : JS.result string :=
  let* attemptsText :=
    match attempts with
    | JS.Val (JS.Int 1) => JS.Ok "1"
    | JS.Val (JS.Int 2) => JS.Ok "1 or 2"
    | _ => JS.Throw (JS.Error ("attempts must be 1 or 2 (got "
                               ++ JS.template JS.showNumber attempts ++ ")"))
    end in
  let timeText := getTimeText (JS.toNumber totalCentisec) in
  JS.Ok ("Continue if " ++ attemptsText ++ " < " ++ timeText).

(** [#setCutoffData]: [attemptsPreCutoff], [attemptsPostCutoff] and
    [cutoffText]. *)
Definition setCutoffData (scData : SCData.t)
  : JS.result (JS.js JS.number * JS.js JS.number * JS.js string) :=
  let totalAttempts := formatToAttempts (SCData.format scData) in
  match SCData.cutoffCentisec scData with
  | JS.Null =>
      match formatToCutoffAttempts (SCData.format scData) with
      | JS.Null =>
          (* no cutoff, and the event does not allow cutoffs *)
          JS.Ok (totalAttempts, JS.Null, JS.Null)
      | nominal =>
          (* no cutoff, but cutoffs are allowed for the event *)
          JS.Ok (nominal,
                 JS.Val (JS.sub (JS.toNumber totalAttempts) (JS.toNumber nominal)),
                 JS.Val "N/A")
      end
  | _ =>
      (* this round has a cutoff *)
      let attemptsPreCutoff_ := SCData.cutoffAttempts scData in
      let attemptsPostCutoff_ :=
        JS.sub (JS.toNumber totalAttempts) (JS.toNumber attemptsPreCutoff_) in
      let* cutoffText_ :=
        getCutoffText (SCData.cutoffAttempts scData) (SCData.cutoffCentisec scData) in
      JS.Ok (attemptsPreCutoff_, JS.Val attemptsPostCutoff_, JS.Val cutoffText_)
  end.

Definition getCumulRoundText (cumulRoundInfos : list CumulRoundInfo.t) : string :=
  if (List.length cumulRoundInfos <? 2)%nat then ""
  else
    let textArr :=
      map (fun x => getEventAndRoundText (CumulRoundInfo.eventName x)
                      (CumulRoundInfo.round x)
                      (JS.Int (Z.of_nat (CumulRoundInfo.numRounds x))))
        cumulRoundInfos in
    if (List.length cumulRoundInfos =? 2)%nat
    then " for " ++ String.concat " and " textArr
    else ", shared by " ++ JS.showNat (List.length cumulRoundInfos) ++ " events".

(** [#setTimeLimitData]: [timeLimitStartText] and [timeLimitEndText]. *)
Definition setTimeLimitData (scData : SCData.t) : string * string :=
  if String.eqb (SCData.eventId scData) "333mbf"
  then ("Time limit per solve", "10 minutes per cube, up to 1 hour")
  else
    if (List.length (SCData.cumulRoundInfos scData) =? 0)%nat
    then ("Time limit per solve",
          "DNF if ≥ " ++ getTimeText (JS.toNumber (SCData.timeLimit scData)))
    else ("Cumulative time limit",
          getTimeText (JS.toNumber (SCData.timeLimit scData))
          ++ getCumulRoundText (SCData.cumulRoundInfos scData)).

(** [#setGroupData]: the member [group]. *)
Definition setGroupData (scData : SCData.t) : string :=
  JS.template id (SCData.groupRoomAbbr scData)
  ++ JS.template JS.showNumber (SCData.groupNum scData).

Definition fromScData (scData : SCData.t) : JS.result t :=
  match SCData.type scData with
  | competitor =>
      let* person := setPersonData scData in
      let eventAndRoundText_ := setEventAndRoundText scData in
      let* cutoffData := setCutoffData scData in
      let timeLimitData := setTimeLimitData scData in
      JS.Ok {| type := SCData.type scData;
               compName := SCData.compName scData;
               registrantId := JS.Val (fst (fst person));
               wcaId := snd (fst person);
               personNameRoman := JS.Val (fst (snd person));
               personNameTrans := snd (snd person);
               eventAndRoundText := JS.Val eventAndRoundText_;
               attemptsPreCutoff := fst (fst cutoffData);
               attemptsPostCutoff := snd (fst cutoffData);
               cutoffText := snd cutoffData;
               timeLimitStartText := JS.Val (fst timeLimitData);
               timeLimitEndText := JS.Val (snd timeLimitData);
               group := JS.Val (setGroupData scData) |}
  | roundBlank =>
      let eventAndRoundText_ := setEventAndRoundText scData in
      let* cutoffData := setCutoffData scData in
      let timeLimitData := setTimeLimitData scData in
      JS.Ok {| type := SCData.type scData;
               compName := SCData.compName scData;
               registrantId := JS.Undefined;
               wcaId := JS.Undefined;
               personNameRoman := JS.Undefined;
               personNameTrans := JS.Undefined;
               eventAndRoundText := JS.Val eventAndRoundText_;
               attemptsPreCutoff := fst (fst cutoffData);
               attemptsPostCutoff := snd (fst cutoffData);
               cutoffText := snd cutoffData;
               timeLimitStartText := JS.Val (fst timeLimitData);
               timeLimitEndText := JS.Val (snd timeLimitData);
               group := JS.Undefined |}
  | formatBlank =>
      JS.Ok {| type := SCData.type scData;
               compName := SCData.compName scData;
               registrantId := JS.Undefined;
               wcaId := JS.Undefined;
               personNameRoman := JS.Undefined;
               personNameTrans := JS.Undefined;
               eventAndRoundText := JS.Undefined;
               attemptsPreCutoff := JS.Undefined;
               attemptsPostCutoff := JS.Undefined;
               cutoffText := JS.Undefined;
               timeLimitStartText := JS.Undefined;
               timeLimitEndText := JS.Undefined;
               group := JS.Undefined |}
  end.

End SCPDFData.

(** [#getTimeText] once more, this time computed as the source computes
    it: on doubles.  A finite double is held by its exact value
    [n / 2^k]; the division is the rounded one of the machine, and
    truncation, remainder, [Number.isInteger] and [toFixed(2)] are
    exact functions of that value.  It serves to check the hundredths
    of [SCPDFData.getTimeText] against the arithmetic of the source. *)
Module OnDoubles.

Definition exact (f : float) : option (Z * Z) :=
  match Prim2SF f with
  | S754_zero _ => Some (0, 0)
  | S754_finite negative m e =>
      let n := if negative then Z.neg m else Z.pos m in
      if e <? 0 then Some (n, - e) else Some (n * 2 ^ e, 0)
  | _ => None
  end.

Definition Math_trunc (v : Z * Z) : Z * Z := (Z.quot (fst v) (2 ^ snd v), 0).

(** [v % d] for an integer [d]. *)
Definition remainder (v : Z * Z) (d : Z) : Z * Z :=
  (Z.rem (fst v) (d * 2 ^ snd v), snd v).

Definition isInteger (v : Z * Z) : bool := Z.rem (fst v) (2 ^ snd v) =? 0.

(** [v.toFixed(2)]: the nearest multiple of 1/100, the larger one in
    case of a tie. *)
Definition toFixed2 (v : Z * Z) : string :=
  let a := Z.abs (fst v) in
  let h := (2 * 100 * a + 2 ^ snd v) / 2 ^ (snd v + 1) in
  (if fst v <? 0 then "-" else "")
  ++ JS.showZ (h / 100) ++ "." ++ SCPDFData.twoDigits (h mod 100).

Definition getTimeTextPart (value : option (Z * Z)) (unit : string) : string :=
  match value with
  | None => "NaN " ++ unit ++ "s"
  | Some v =>
      if fst v =? 0 then ""
      else
        let valueText :=
          if isInteger v then JS.showZ (Z.quot (fst v) (2 ^ snd v)) else toFixed2 v in
        let unitText := if fst v =? 2 ^ snd v then unit else unit ++ "s" in
        valueText ++ " " ++ unitText
  end.

Definition quotient (totalCentisec d : Z) : option (Z * Z) :=
  exact (PrimFloat.div (JS.doubleOfZ totalCentisec) (JS.doubleOfZ d)).

Definition getTimeText (totalCentisec : Z) : string :=
  let hours := option_map Math_trunc (quotient totalCentisec (100 * 60 * 60)) in
  let minutes :=
    option_map (fun v => remainder (Math_trunc v) 60)
      (quotient totalCentisec (100 * 60)) in
  let seconds := option_map (fun v => remainder v 60) (quotient totalCentisec 100) in
  let timeParts := [(hours, "hour"); (minutes, "minute"); (seconds, "second")] in
  String.concat " "
    (List.filter (fun x => negb (String.eqb x ""))
       (map (fun x => getTimeTextPart (fst x) (snd x)) timeParts)).

(** Both computations give the same text for a duration. *)
Definition agrees (totalCentisec : Z) : bool :=
  String.eqb (getTimeText totalCentisec) (SCPDFData.getTimeText (JS.Int totalCentisec)).

End OnDoubles.

Definition getScPdfDataForEvent (wcif : WCIF.t) (optionsObj : OptionsObj)
    (eventId : string) : JS.result (list SCPDFData.t) :=
  let* scDataArr := getScDataForEvent wcif optionsObj eventId in
  JS.mapM SCPDFData.fromScData scDataArr.

(* ================================================================= *)
(** ** sc_pdf.js: laying scorecards out on pages *)

(** The PDF document, as far as the layout uses it: jsPDF keeps the
    pages and the current page; what is drawn is recorded in order.
    Rendering itself (fonts, tables, text widths) is jsPDF's. *)
Module jsPDF.

Inductive Drawing : Type :=
| CutLines (page : nat)
| Scorecard (page : nat) (x y : Z) (scPdfData : SCPDFData.t).

Record t : Type := {
  numPages : nat;
  currentPage : nat;
  drawn : list Drawing;
  savedAs : option string
}.

(** [new jsPDF({unit: 'pt', format: 'letter'})]: a document is created
    with its first page. *)
Definition new : t :=
  {| numPages := 1; currentPage := 1; drawn := []; savedAs := None |}.

(** The letter format in points. *)
Definition getWidth : Z := 612.
Definition getHeight : Z := 792.

(** [doc.addPage(format)]: the new page becomes the current one. *)
Definition addPage (doc : t) : t :=
  {| numPages := S (numPages doc);
     currentPage := S (numPages doc);
     drawn := drawn doc;
     savedAs := savedAs doc |}.

(** [doc.setPage(n)]: ignored when the document has no page [n]. *)
Definition setPage (n : nat) (doc : t) : t :=
  if ((1 <=? n) && (n <=? numPages doc))%nat
  then {| numPages := numPages doc;
          currentPage := n;
          drawn := drawn doc;
          savedAs := savedAs doc |}
  else doc.

(** Something is drawn on the current page. *)
Definition draw (d : nat -> Drawing) (doc : t) : t :=
  {| numPages := numPages doc;
     currentPage := currentPage doc;
     drawn := (drawn doc ++ [d (currentPage doc)])%list;
     savedAs := savedAs doc |}.

Definition save (fileName : string) (doc : t) : t :=
  {| numPages := numPages doc;
     currentPage := currentPage doc;
     drawn := drawn doc;
     savedAs := Some fileName |}.

End jsPDF.

(** The state the layout works on: the document and the console. *)
Record Env : Type := {
  doc : jsPDF.t;
  console : list string
}.

Definition onDoc (f : jsPDF.t -> jsPDF.t) (env : Env) : Env :=
  {| doc := f (doc env); console := console env |}.

Definition consoleLog (line : string) (env : Env) : Env :=
  {| doc := doc env; console := (console env ++ [line])%list |}.

Definition drawCutLines (env : Env) : Env :=
  onDoc (jsPDF.draw jsPDF.CutLines) env.

(** [drawScorecard]: the drawing function is looked up by the type of
    the scorecard; no function is registered for [formatBlank], and
    calling the missing entry throws. *)
Definition drawScorecard (scPdfData : SCPDFData.t) (x y : Z) (env : Env)
  : JS.result Env :=
  match SCPDFData.type scPdfData with
  | competitor | roundBlank =>
      JS.Ok (onDoc (jsPDF.draw (fun page => jsPDF.Scorecard page x y scPdfData)) env)
  | formatBlank => JS.Throw JS.TypeError
  end.

(** (x, y) coordinates corresponding to a scorecard position in a 2x2
    grid. *)
Definition coords : list (Z * Z) :=
  let xCenter := jsPDF.getWidth / 2 in
  let yCenter := jsPDF.getHeight / 2 in
  [(0, 0); (xCenter, 0); (0, yCenter); (xCenter, yCenter)].

(** The [for] loop of [draw4Scorecards], from index [i] on. *)
Fixpoint drawEach (scPdfSubset : list SCPDFData.t) (i : nat) (env : Env)
  : JS.result Env :=
  match scPdfSubset with
  | [] => JS.Ok env
  | scPdfData :: rest =>
      match nth_error coords i with
      | None => JS.Throw JS.TypeError
      | Some (x, y) =>
          let* env' := drawScorecard scPdfData x y env in
          drawEach rest (S i) env'
      end
  end.

Definition warningText (eventAndRound : JS.js string) (len : nat) : string :=
  "Warning: " ++ JS.template id eventAndRound
  ++ ": length of scPdfSubset is " ++ JS.showNat len
  ++ " instead of 4. Did you mean to add blank scorecards to the end?".

Definition draw4Scorecards (scPdfSubset : list SCPDFData.t) (env : Env)
  : JS.result Env :=
  let len := List.length scPdfSubset in
  let* env1 :=
    if (len <? 4)%nat then
      match scPdfSubset with
      | [] => JS.Throw JS.TypeError
      | first :: _ =>
          JS.Ok (consoleLog
                   (warningText (SCPDFData.eventAndRoundText first) len) env)
      end
    else if (4 <? len)%nat then
      JS.Throw (JS.Error ("Length of scPdfSubset is " ++ JS.showNat len
                          ++ " (must be <= 4)"))
    else JS.Ok env in
  drawEach scPdfSubset 0 env1.

(** [for (let i = 0; i < (scPdfArr.length / 4) - 1; i++)]: the test
    [i < len / 4 - 1] holds exactly when [4 * i + 4 < len]. *)
Fixpoint addPages (fuel i len : nat) (d : jsPDF.t) : jsPDF.t :=
  match fuel with
  | O => d
  | S fuel' =>
      if (4 * i + 4 <? len)%nat
      then addPages fuel' (S i) len (jsPDF.addPage d)
      else d
  end.

(** [for (let i = 0; i < scPdfArr.length / 4; i++)]: the test holds
    exactly when [4 * i < len]. *)
Fixpoint drawPages (fuel i : nat) (scPdfArr : list SCPDFData.t) (env : Env)
  : JS.result Env :=
  match fuel with
  | O => JS.Ok env
  | S fuel' =>
      if (4 * i <? List.length scPdfArr)%nat
      then
        (* jsPDF pages are 1-indexed *)
        let env1 := drawCutLines (onDoc (jsPDF.setPage (i + 1)) env) in
        let scPdfSubset := firstn 4 (skipn (i * 4) scPdfArr) in
        let* env2 := draw4Scorecards scPdfSubset env1 in
        drawPages fuel' (S i) scPdfArr env2
      else JS.Ok env
  end.

(** The part of [genScPdfEvent] between the formatted records and the
    saving of the file.  Neither loop can run more often than there
    are records, which is the fuel given. *)
Definition layoutPages (scPdfArr : list SCPDFData.t) : JS.result Env :=
  let len := List.length scPdfArr in
  let d := addPages len 0 len jsPDF.new in
  drawPages len 0 scPdfArr {| doc := d; console := [] |}.

Definition genScPdfEvent (wcif : WCIF.t) (optionsObj : OptionsObj)
    (eventId : string) : JS.result Env :=
  let* scPdfArr := getScPdfDataForEvent wcif optionsObj eventId in
  let* env := layoutPages scPdfArr in
  match WCIF.eventIdToName eventId with
  | JS.Val name =>
      let eventName := JS.replaceAll " "%char "_"%char name in
      JS.Ok (onDoc (jsPDF.save (WCIF.compId wcif ++ "_" ++ eventName ++ ".pdf")) env)
  | _ => JS.Throw JS.TypeError
  end.

(* ================================================================= *)
(** ** options.js, the earlier revision *)

(** The earlier revision of the options module counted blank scorecards
    rather than pages, in one formula. *)
Module EarlierOptions.

(** [(4 * Math.ceil((numCompetitors + 4) / 4)) - numCompetitors]: fill
    in the final page with blanks, and add 1 page of blanks. *)
Definition numExtraBlanks (numCompetitors : Z) : Z :=
  4 * ((numCompetitors + 4 + 3) / 4) - numCompetitors.

Definition getNumBlanksForRound (wcif : WCIF.t) (eventId : string) (round : nat)
  : JS.result JS.number :=
  let* numCompetitors := WCIF.getNumAdvancingToRound wcif eventId round in
  match JS.toNumber numCompetitors with
  | JS.NaN => JS.Ok JS.NaN
  | JS.Int n =>
      (* If groups are already assigned, just add some emergency blanks *)
      if WCIF.groupsAreAssigned wcif eventId round
      then JS.Ok (JS.Int (numExtraBlanks n))
      else JS.Ok (JS.Int (n + numExtraBlanks n))
  end.

End EarlierOptions.

(* ================================================================= *)
(** ** Sample documents *)

Module Samples.

Definition accepted : option WCIF.Registration :=
  Some {| WCIF.status := "accepted"; WCIF.isCompeting := true |}.

(** A person competing in the given group activities. *)
Definition person (registrantId : Z) (name : string) (wcaId : option string)
    (groups : list Z) : WCIF.Person :=
  {| WCIF.registrantId := registrantId;
     WCIF.personName := Units.ofAscii name;
     WCIF.wcaId := wcaId;
     WCIF.registration := accepted;
     WCIF.assignments :=
       map (fun g => {| WCIF.activityId := g;
                        WCIF.assignmentCode := "competitor" |}) groups |}.

(** Persons 1, ..., n, all competing in the same group activities. *)
Definition people (n : nat) (groups : list Z) : list WCIF.Person :=
  map (fun i => person (Z.of_nat i) "Competitor" None groups) (seq 1 n).

Definition percent (level : Z) : option WCIF.AdvancementCondition :=
  Some {| WCIF.type := "percent"; WCIF.level := level |}.

Definition ranking (level : Z) : option WCIF.AdvancementCondition :=
  Some {| WCIF.type := "ranking"; WCIF.level := level |}.

Definition round (id format : string) (cutoff : option WCIF.Cutoff)
    (centiseconds : Z) (advancement : option WCIF.AdvancementCondition)
  : WCIF.Round :=
  {| WCIF.roundId := id;
     WCIF.format := format;
     WCIF.cutoff := cutoff;
     WCIF.timeLimit := Some {| WCIF.centiseconds := centiseconds;
                               WCIF.cumulativeRoundIds := [] |};
     WCIF.advancementCondition := advancement |}.

(** Four rounds of 3x3x3: 75 percent advance from the first round, 29
    percent from the second, the best 12 from the third. *)
Definition cube : WCIF.Event :=
  {| WCIF.eventId := "333";
     WCIF.rounds :=
       [ round "333-r1" "a" None 60000 (percent 75);
         round "333-r2" "a" None 60000 (percent 29);
         round "333-r3" "a" None 60000 (ranking 12);
         round "333-r4" "a" None 60000 None ] |}.

(** One round of multi-blind whose document entry declares a cutoff. *)
Definition multiBlind : WCIF.Event :=
  {| WCIF.eventId := "333mbf";
     WCIF.rounds :=
       [ {| WCIF.roundId := "333mbf-r1";
            WCIF.format := "1";
            WCIF.cutoff := Some {| WCIF.numberOfAttempts := 1;
                                   WCIF.attemptResult := 6000 |};
            WCIF.timeLimit := None;
            WCIF.advancementCondition := None |} ] |}.

Definition group (id : Z) (code : string) : WCIF.ChildActivity :=
  {| WCIF.childId := id; WCIF.childActivityCode := code |}.

(** One venue with one room; the first round of 3x3x3 has the given
    groups, the other rounds have none yet. *)
Definition venue (groups : list WCIF.ChildActivity) : WCIF.Venue :=
  {| WCIF.rooms :=
       [ {| WCIF.roomName := "Ballroom";
            WCIF.activities :=
              [ {| WCIF.activityCode := "333-r1";
                   WCIF.childActivities := groups |};
                {| WCIF.activityCode := "333-r2";
                   WCIF.childActivities := [] |};
                {| WCIF.activityCode := "333mbf-r1-a1";
                   WCIF.childActivities := [group 31 "333mbf-r1-g1-a1"] |} ] |} ] |}.

Definition competition (persons : list WCIF.Person)
    (groups : list WCIF.ChildActivity) : WCIF.t :=
  {| WCIF.compId := "SampleOpen2026";
     WCIF.name := "Sample Open 2026";
     WCIF.events := [cube; multiBlind];
     WCIF.persons := persons;
     WCIF.venues := [venue groups] |}.

(** Eighty accepted registrations, no group assigned yet. *)
Definition registered80 : WCIF.t := competition (people 80 []) [].

(** [n] competitors, all in group 1 of the first round. *)
Definition assigned (n : nat) : WCIF.t :=
  competition (people n [11]) [group 11 "333-r1-g1"].

(** One competitor entered in both groups of the first round. *)
Definition enteredTwice : WCIF.t :=
  competition (people 1 [11; 12])
    [group 11 "333-r1-g1"; group 12 "333-r1-g2"].

(** One person in the group of the multi-blind round. *)
Definition blindfolded : WCIF.t :=
  competition [person 7 "Jason Chang" (Some "2010CHAN01") [31]] [].

(** The options object when every round of 3x3x3 and the multi-blind
    round ask for [pages] pages of blanks, and the room is abbreviated
    to B. *)
Definition options (pages : Z) : OptionsObj :=
  <[ RoundBlanksOption.genId "333" 1 := RoundBlanksOption.new "333" 1 (NumberValue pages) ]>
  (<[ RoundBlanksOption.genId "333" 2 := RoundBlanksOption.new "333" 2 (NumberValue pages) ]>
  (<[ RoundBlanksOption.genId "333" 3 := RoundBlanksOption.new "333" 3 (NumberValue pages) ]>
  (<[ RoundBlanksOption.genId "333" 4 := RoundBlanksOption.new "333" 4 (NumberValue pages) ]>
  (<[ RoundBlanksOption.genId "333mbf" 1 := RoundBlanksOption.new "333mbf" 1 (NumberValue pages) ]>
  (<[ RoomOption.genId "Ballroom" := RoomOption.new "Ballroom" (TextValue "B") ]> ∅))))).



(** The name of the example in [#setNameData]: Jason Chang, then the
    three characters U+7AE0, U+7DAD and U+7950 in parentheses. *)
Definition jasonChang : JS.units := Units.ofAscii "Jason Chang".

Definition jasonChangTranslation : JS.units := [31456; 32173; 31056]%N.

Definition jasonChangFull : JS.units :=
  (Units.ofAscii "Jason Chang (" ++ jasonChangTranslation ++ Units.ofAscii ")")%list.

(** A record for a round of the given event: the third round of four,
    with the given format, cutoff, time limit and rounds sharing a
    cumulative time limit. *)
Definition scData (eventId format : string) (cutoffAttempts cutoffCentisec : JS.js JS.number)
    (timeLimit : Z) (cumulRoundInfos : list CumulRoundInfo.t) : SCData.t :=
  {| SCData.type := roundBlank;
     SCData.compName := "Sample Open 2026";
     SCData.registrantId := JS.Null;
     SCData.newCompetitor := JS.Null;
     SCData.wcaId := JS.Null;
     SCData.personName := JS.Null;
     SCData.eventId := eventId;
     SCData.eventName := WCIF.eventIdToName eventId;
     SCData.round := 3;
     SCData.numRounds := 4;
     SCData.format := format;
     SCData.cutoffCentisec := cutoffCentisec;
     SCData.cutoffAttempts := cutoffAttempts;
     SCData.timeLimit := JS.Val (JS.Int timeLimit);
     SCData.cumulRoundInfos := cumulRoundInfos;
     SCData.groupNum := JS.Null;
     SCData.groupRoom := JS.Null;
     SCData.numRooms := JS.Null |}.


End Samples.

(* ================================================================= *)
(** ** Objects used as dictionaries *)

(** An ordinary object whose properties are set one by one and listed
    with [Object.keys]. *)
Module Dict.

(** The properties in the order of their creation. *)
Definition t (A : Type) : Type := list (string * A).

Definition empty {A : Type} : t A := [].

(** [obj[key] = v]: a property that exists keeps its place. *)
Fixpoint set {A : Type} (key : string) (v : A) (obj : t A) : t A :=
  match obj with
  | [] => [(key, v)]
  | (k, x) :: rest =>
      if String.eqb k key then (k, v) :: rest else (k, x) :: set key v rest
  end.

(** [obj[key]]. *)
Fixpoint get {A : Type} (key : string) (obj : t A) : JS.js A :=
  match obj with
  | [] => JS.Undefined
  | (k, x) :: rest => if String.eqb k key then JS.Val x else get key rest
  end.

(** An array index: the canonical decimal text of an integer from 0 to
    2^32 - 2. *)
Definition arrayIndex (key : string) : option N :=
  match JS.digitsValue 0 key with
  | Some n =>
      if String.eqb (JS.showN n) key && (n <? 2 ^ 32 - 1)%N then Some n else None
  | None => None
  end.

Fixpoint insertSorted (n : N) (l : list N) : list N :=
  match l with
  | [] => [n]
  | m :: rest => if (n <=? m)%N then n :: l else m :: insertSorted n rest
  end.

Definition ascending (l : list N) : list N := fold_right insertSorted [] l.

Definition indices (names : list string) : list N :=
  flat_map (fun k => match arrayIndex k with Some n => [n] | None => [] end) names.

(** [Object.keys(obj)]: the array indices in ascending order, then the
    other keys in the order of their creation. *)
Definition keys {A : Type} (obj : t A) : list string :=
  let names := map fst obj in
  (map JS.showN (ascending (indices names))
   ++ List.filter (fun k => match arrayIndex k with Some _ => false | None => true end)
        names)%list.

End Dict.

(* ================================================================= *)
(** ** options.js: the pages of blanks proposed for a round *)

(** A number of pages is a number of scorecards divided by four.  It is
    kept as that number of scorecards, its fourfold: [JS.Int q] stands
    for q / 4, which a double holds exactly while q is below 2^53. *)
Module Quarters.

(** The decimals of q / 4. *)
Definition decimals (q : Z) : string :=
  if q mod 4 =? 1 then ".25"
  else if q mod 4 =? 2 then ".5"
  else if q mod 4 =? 3 then ".75"
  else "".

(** [String(q / 4)]. *)
Definition show (pages : JS.number) : string :=
  match pages with
  | JS.NaN => "NaN"
  | JS.Int q =>
      (if q <? 0 then "-" else "") ++ JS.showZ (Z.abs q / 4) ++ decimals (Z.abs q)
  end.

(** The value as an option holds it.  A number of pages that is not
    whole is kept as its decimal text: the field of the form shows that
    text, and the product with the scorecards per page reads it back. *)
Definition optionValue (pages : JS.number) : OptionValue :=
  match pages with
  | JS.NaN => TextValue "NaN"
  | JS.Int q => if q mod 4 =? 0 then NumberValue (q / 4) else TextValue (show pages)
  end.

End Quarters.

(** The result is in quarters of a page. *)
Definition getBlankPagesForRound (wcif : WCIF.t) (eventId : string) (round : nat)
  : JS.result JS.number :=
  (* If groups are already assigned, just add a page of emergency blank scorecards *)
  if WCIF.groupsAreAssigned wcif eventId round then JS.Ok (JS.Int 4)
  else
    (* provide scorecards for filling in at the competition, plus one
       page of extra blank scorecards *)
    let* numCompetitors := WCIF.getNumAdvancingToRound wcif eventId round in
    JS.Ok (JS.add (JS.toNumber numCompetitors) (JS.Int 4)).

(** The [for (let round = 1; round <= numRounds; round++)] loop: the
    rounds [round], ..., [round + count - 1].  The keys of the object
    it fills are 1, 2, ..., which [Object.keys] lists in this order;
    the object is kept as the list of its rounds with their pages. *)
Fixpoint blankPagesFrom (wcif : WCIF.t) (eventId : string) (round count : nat)
  : JS.result (list (nat * JS.number)) :=
  match count with
  | O => JS.Ok []
  | S count' =>
      let* pages := getBlankPagesForRound wcif eventId round in
      let* rest := blankPagesFrom wcif eventId (S round) count' in
      JS.Ok ((round, pages) :: rest)
  end.

Definition getBlankPagesPerRoundByEvent (wcif : WCIF.t) (eventId : string)
  : JS.result (list (nat * JS.number)) :=
  let* numRounds := WCIF.getNumRounds wcif eventId in
  blankPagesFrom wcif eventId 1 numRounds.

(** The [for (const eventId of wcif.getEventIds())] loop. *)
Fixpoint blankPagesOfEvents (wcif : WCIF.t) (eventIds : list string)
    (blanksPerRound : Dict.t (list (nat * JS.number)))
  : JS.result (Dict.t (list (nat * JS.number))) :=
  match eventIds with
  | [] => JS.Ok blanksPerRound
  | eventId :: rest =>
      let* perRound := getBlankPagesPerRoundByEvent wcif eventId in
      blankPagesOfEvents wcif rest (Dict.set eventId perRound blanksPerRound)
  end.

Definition getBlankPagesPerRound (wcif : WCIF.t)
  : JS.result (Dict.t (list (nat * JS.number))) :=
  blankPagesOfEvents wcif (WCIF.getEventIds wcif) Dict.empty.

(* ================================================================= *)
(** ** options.js: the tabs and their options *)

(** [class OptionsTab], without the HTML element it builds: the names,
    the description and the options. *)
Module OptionsTab.

Record t : Type := {
  tabName : string;
  getTabContentId : string;
  getTabButtonName : string;
  options : list Option_;
  desc : string
}.

(** The constructor, as the classes derived from it call it. *)
Definition new (tabName_ id desc_ : string) : t :=
  {| tabName := tabName_;
     getTabContentId := "optionsTab-content-" ++ id;
     getTabButtonName := "optionsTab-button-" ++ id;
     options := [];
     desc := desc_ |}.

Definition addOption (option : Option_) (tab : t) : t :=
  {| tabName := tabName tab;
     getTabContentId := getTabContentId tab;
     getTabButtonName := getTabButtonName tab;
     options := (options tab ++ [option])%list;
     desc := desc tab |}.

End OptionsTab.

Module HelpOptionsTab.

Definition new : OptionsTab.t :=
  OptionsTab.new "Help" "helpOptions"
    ("Click a tab to start customizing your scorecards. "
     ++ "Once you're ready, click the " ++ String (ascii_of_nat 34) "Download scorecards"
     ++ String (ascii_of_nat 34) " button above.").

End HelpOptionsTab.

Module BlanksOptionsTab.

(** [/\D/.test(data)]: some character is not a digit. *)
Fixpoint testNonDigit (data : string) : bool :=
  match data with
  | EmptyString => false
  | String c rest =>
      negb ((48 <=? N_of_ascii c) && (N_of_ascii c <=? 57))%N || testNonDigit rest
  end.

(** [#beforeinputEventListener]: whether the insertion is prevented.
    The data of the event is a text or [null]. *)
Definition beforeinputEventListener (data : JS.js string) : bool :=
  match data with
  | JS.Val s => negb (String.eqb s "") && testNonDigit s
  | _ => false
  end.

(** The inner loop of [#finishDiv]: an option for every round of the
    event. *)
Definition addRounds (eventId : string) (eventDict : list (nat * JS.number))
    (tab : OptionsTab.t) : OptionsTab.t :=
  fold_left
    (fun tab entry =>
       let defaultValue := Quarters.optionValue (snd entry) in
       let option := RoundBlanksOption.new eventId (fst entry) defaultValue in
       OptionsTab.addOption option tab)
    eventDict tab.

(** The outer loop of [#finishDiv]: the events in the order of
    [Object.keys], each with its entry of the object. *)
Fixpoint addEvents (numBlanksObj : Dict.t (list (nat * JS.number)))
    (eventIds : list string) (tab : OptionsTab.t) : JS.result OptionsTab.t :=
  match eventIds with
  | [] => JS.Ok tab
  | eventId :: rest =>
      match Dict.get eventId numBlanksObj with
      | JS.Val eventDict =>
          addEvents numBlanksObj rest (addRounds eventId eventDict tab)
      | _ => JS.Throw JS.TypeError
      end
  end.

(** [#finishDiv], as far as the options go. *)
Definition finishDiv (wcif : WCIF.t) (tab : OptionsTab.t) : JS.result OptionsTab.t :=
  let* numBlanksObj := getBlankPagesPerRound wcif in
  addEvents numBlanksObj (Dict.keys numBlanksObj) tab.

Definition new (wcif : WCIF.t) : JS.result OptionsTab.t :=
  finishDiv wcif
    (OptionsTab.new "Blank scorecards" "numBlanks"
       "Enter the number of pages of blank scorecards to generate for each round.").

End BlanksOptionsTab.

(** The rooms tab writes the first character of a room name in upper
    case.  What that character becomes is the host's affair
    ([initial], for a name that is not empty); a name that is empty has
    no first character, and upper-casing [undefined] throws. *)
Module RoomOptionsTab.

Section Initial.

Variable initial : string -> string.

(** The [for (const room of rooms)] loop of [#finishDiv]. *)
Fixpoint addRooms (numRooms : nat) (rooms : list string) (tab : OptionsTab.t)
  : JS.result OptionsTab.t :=
  match rooms with
  | [] => JS.Ok tab
  | room :: rest =>
      let* defaultValue :=
        if Nat.eqb numRooms 1
        then (* No need to label the room if there's only one *) JS.Ok ""
        else
          match room with
          | EmptyString => JS.Throw JS.TypeError
          | _ => JS.Ok (initial room)
          end in
      let option := RoomOption.new room (TextValue defaultValue) in
      addRooms numRooms rest (OptionsTab.addOption option tab)
  end.

Definition finishDiv (wcif : WCIF.t) (tab : OptionsTab.t) : JS.result OptionsTab.t :=
  let rooms := WCIF.getRoomNames wcif in
  addRooms (List.length rooms) rooms tab.

Definition new (wcif : WCIF.t) : JS.result OptionsTab.t :=
  finishDiv wcif
    (OptionsTab.new "Rooms" "roomAbbrs"
       ("Enter an abbreviation (max 2 letters) for each room. "
        ++ "This will show up in the " ++ String (ascii_of_nat 34) "Group"
        ++ String (ascii_of_nat 34) " field of a scorecard. "
        ++ "If you'd like, you can leave abbreviations blank.")).

End Initial.

End RoomOptionsTab.

(** [optTabsCreate]: the help tab, the rooms tab and the blanks tab, made
    in this order. *)
Definition optTabsCreate (initial : string -> string) (wcif : WCIF.t)
  : JS.result (list OptionsTab.t) :=
  let help := HelpOptionsTab.new in
  let* rooms := RoomOptionsTab.new initial wcif in
  let* blanks := BlanksOptionsTab.new wcif in
  JS.Ok [help; rooms; blanks].

(* ================================================================= *)
(** ** sc_pdf.js: the documents of a competition *)

(** What a run leaves behind: the documents saved so far, in order, and
    whether it ended normally. *)
Definition Saved : Type := list Env * JS.result unit.

(** [genScPdfsFromWcif]: one document per event; an exception ends the
    run, and the documents saved before it stay saved. *)
Fixpoint genScPdfsFor (wcif : WCIF.t) (optionsObj : OptionsObj)
    (eventIds : list string) (saved : list Env) : Saved :=
  match eventIds with
  | [] => (saved, JS.Ok tt)
  | eventId :: rest =>
      match genScPdfEvent wcif optionsObj eventId with
      | JS.Ok env => genScPdfsFor wcif optionsObj rest (saved ++ [env])%list
      | JS.Throw e => (saved, JS.Throw e)
      end
  end.

Definition genScPdfsFromWcif (wcif : WCIF.t) (optionsObj : OptionsObj) : Saved :=
  genScPdfsFor wcif optionsObj (WCIF.getEventIds wcif) [].

(* ================================================================= *)
(** ** main.js: from the form to the documents *)

(** The entries of the options form, in the order of its fields. *)
Definition FormData : Type := list (string * string).

(** [formData.get(name)]: the value of the first field of that name,
    [null] when there is none. *)
Fixpoint FormData_get (name : string) (formData : FormData) : JS.js string :=
  match formData with
  | [] => JS.Null
  | (n, v) :: rest => if String.eqb n name then JS.Val v else FormData_get name rest
  end.

(** The value an option takes from the form.  [null] is kept as the
    number 0, which is what it counts for where an option value is
    used: in the product with the scorecards per page. *)
Definition formValue (v : JS.js string) : OptionValue :=
  match v with
  | JS.Val s => TextValue s
  | _ => NumberValue 0
  end.

(** The loop of [optionsToPdf]: every option takes its value from the
    form and is stored under its id; of two options with one id the
    later one stays. *)
Definition optionsObjOf (options : list Option_) (formData : FormData) : OptionsObj :=
  fold_left
    (fun (optionsObj : OptionsObj) option =>
       let id := getId option in
       let option' :=
         {| inputType := inputType option;
            getId := id;
            defaultValue := defaultValue option;
            value := formValue (FormData_get id formData) |} in
       <[ id := option' ]> optionsObj)
    options ∅.

Definition optionsToPdf (wcif : WCIF.t) (optionsTabArr : list OptionsTab.t)
    (formData : FormData) : Saved :=
  let options := flat_map OptionsTab.options optionsTabArr in
  let optionsObj := optionsObjOf options formData in
  genScPdfsFromWcif wcif optionsObj.

(* ================================================================= *)
(** ** sc_pdf.js: the rows of attempts *)

(** The first cell of a row: an attempt number, or the text of an extra
    attempt. *)
Inductive AttemptCell : Type :=
| AttemptNumber (i : Z)
| AttemptText (text : string).

(** The [body] that [pdfAddAttempts] hands to the table: one row per
    attempt from [startAttempt] to [endAttempt], its first cell the
    attempt, the other four empty.  A bound that is not a number makes
    the test of the loop fail at once. *)
Definition pdfAddAttempts_body (startAttempt endAttempt : JS.number) (extras : bool)
  : list (AttemptCell * list string) :=
  match startAttempt, endAttempt with
  | JS.Int s, JS.Int e =>
      map (fun k =>
             let i := s + Z.of_nat k in
             let attemptText :=
               if extras then AttemptText ("E" ++ JS.showZ i) else AttemptNumber i in
             (attemptText, repeat "" 4))
        (seq 0 (Z.to_nat (e - s + 1)))
  | _, _ => []
  end.

(** The rows [pdfAddPreCutoffAttempts] adds below its header. *)
Definition pdfAddPreCutoffAttempts_body (scPdfData : SCPDFData.t)
  : list (AttemptCell * list string) :=
  pdfAddAttempts_body (JS.Int 1) (JS.toNumber (SCPDFData.attemptsPreCutoff scPdfData)) false.

(** The rows [pdfAddPostCutoffAttempts] adds: none when there is no
    count of attempts after the cutoff. *)
Definition pdfAddPostCutoffAttempts_body (scPdfData : SCPDFData.t)
  : list (AttemptCell * list string) :=
  match SCPDFData.attemptsPostCutoff scPdfData with
  | JS.Null => []
  | attemptsPostCutoff =>
      let attemptsPreCutoff := JS.toNumber (SCPDFData.attemptsPreCutoff scPdfData) in
      pdfAddAttempts_body (JS.add attemptsPreCutoff (JS.Int 1))
        (JS.add attemptsPreCutoff (JS.toNumber attemptsPostCutoff)) false
  end.

(* ================================================================= *)
(** ** sc_pdf.js: a text on one or two lines *)

(** Texts are measured by jsPDF, in the font style and size that are
    set.  The measure is left to it: a width in points, a double, for a
    style, a size and a text. *)
Module Lines.

Section Measured.

Variable getTextWidth : string -> float -> string -> float.

(** Left/right margin for text *)
Definition textMargin : float := 19.5%float.

(** [(doc.internal.pageSize.width / 2) - (textMargin * 2)] on a page of
    letter format. *)
Definition maxWidth : float := (612 / 2 - textMargin * 2)%float.

(** [regularText[index]], and [regularText.slice(0, index)]. *)
Definition charAt (s : string) (index : nat) : option ascii := String.get index s.

(** The width of the first line when the regular text is cut at
    [index]. *)
Definition totalWidth (fontSize : float) (boldText regularText : string) (index : nat)
  : float :=
  let totalWidth := 0%float in
  let totalWidth :=
    (totalWidth + getTextWidth "bold" fontSize (boldText ++ ": "))%float in
  (totalWidth + getTextWidth "normal" fontSize (substring 0 index regularText))%float.

(** The loop of [getNewlineIndex], from [index] down to 1. *)
Fixpoint newlineIndexFrom (fontSize : float) (boldText regularText : string)
    (index : nat) : JS.result nat :=
  match index with
  | O =>
      (* index <= 0, which is a bug *)
      JS.Throw (JS.Error ("Newline index is 0 for this multiline text: '"
                          ++ boldText ++ ": " ++ regularText))
  | S index' =>
      (* We only want to split on space characters *)
      if (index <? String.length regularText)%nat
         && negb (match charAt regularText index with
                  | Some c => Ascii.eqb c " "
                  | None => false
                  end)
      then newlineIndexFrom fontSize boldText regularText index'
      else if PrimFloat.leb (totalWidth fontSize boldText regularText index) maxWidth
      then JS.Ok index
      else newlineIndexFrom fontSize boldText regularText index'
  end.

Definition getNewlineIndex (fontSize : float) (boldText regularText : string)
  : JS.result nat :=
  newlineIndexFrom fontSize boldText regularText (String.length regularText).

(** The texts [pdfTextBoldAndRegular] writes, and the height it
    returns: the bold text with its colon, the first line of the regular
    text, and the second line if there is one. *)
Record Written : Type := {
  bold : string;
  line1 : string;
  line2 : option string;
  textHeight : float
}.

Definition pdfTextBoldAndRegular (fontSize : float) (boldText regularText : string)
    (allowMultiline : bool) : JS.result Written :=
  let* line2Slice :=
    if allowMultiline then getNewlineIndex fontSize boldText regularText
    else JS.Ok (String.length regularText) in
  let len := String.length regularText in
  if allowMultiline && negb (Nat.eqb line2Slice len)
  then
    let whitespace := 1%float in
    JS.Ok {| bold := boldText ++ ": ";
             line1 := substring 0 line2Slice regularText;
             (* Add 1 to skip the space *)
             line2 := Some (substring (line2Slice + 1) (len - (line2Slice + 1)) regularText);
             textHeight := (fontSize + (fontSize + whitespace))%float |}
  else
    JS.Ok {| bold := boldText ++ ": ";
             line1 := substring 0 line2Slice regularText;
             line2 := None;
             textHeight := fontSize |}.

(** [pdfWriteTimeLimit]: the time limit may take two lines.  Reading
    the length of a text that is [undefined] or [null] throws. *)
Definition pdfWriteTimeLimit (scPdfData : SCPDFData.t) : JS.result Written :=
  match SCPDFData.timeLimitEndText scPdfData with
  | JS.Val endText =>
      pdfTextBoldAndRegular 10%float
        (JS.template id (SCPDFData.timeLimitStartText scPdfData)) endText true
  | _ => JS.Throw JS.TypeError
  end.

(** [pdfWritePenaltyExample]. *)
Definition pdfWritePenaltyExample : JS.result Written :=
  pdfTextBoldAndRegular 10.5%float "Penalty example" "4.25 + 2 = 6.25" false.

End Measured.

End Lines.

(* ================================================================= *)
(** ** Sample measure *)

Module Measures.

(** A measure for the examples: every character is six tenths of the
    font size wide, in both styles. *)
Definition monospace (style : string) (fontSize : float) (text : string) : float :=
  (fontSize * 6 / 10
   * PrimFloat.of_uint63 (Uint63.of_Z (Z.of_nat (String.length text))))%float.

End Measures.

(* ================================================================= *)
(** * Vocabulary of the statements *)

(** Texts made of decimal digits only. *)
Fixpoint onlyDigits (s : string) : bool :=
  match s with
  | EmptyString => true
  | String c s' =>
      ((48 <=? N_of_ascii c) && (N_of_ascii c <=? 57))%N && onlyDigits s'
  end.

(** Texts without a given character. *)
Fixpoint lacks (c : ascii) (s : string) : bool :=
  match s with
  | EmptyString => true
  | String x s' => negb (Ascii.eqb x c) && lacks c s'
  end.

(** The human-readable duration, in the words of the specification: a
    duration in centiseconds is decomposed into hours, minutes and
    seconds, the seconds keeping their hundredths; every component that
    is not zero is written as its value, a space and its unit, the unit
    in the plural unless the value is 1; the components are joined by
    single spaces.  Values are in hundredths, as in [getTimeTextPart]. *)
Module DurationSpec.

Definition hours (c : Z) : Z := c / 360000.
Definition minutes (c : Z) : Z := (c / 6000) mod 60.

Definition valueText (hundredths : Z) : string :=
  if hundredths mod 100 =? 0 then JS.showZ (hundredths / 100)
  else JS.showZ (hundredths / 100) ++ "."
       ++ (if hundredths mod 100 <? 10 then "0" else "")
       ++ JS.showZ (hundredths mod 100).




End DurationSpec.

(** Consecutive chunks of four: the partition of a sequence of
    scorecards into pages. *)
Fixpoint chunks4 {A : Type} (l : list A) : list (list A) :=
  match l with
  | a :: b :: c :: d :: rest => [a; b; c; d] :: chunks4 rest
  | [] => []
  | short => [short]
  end.

(** What one page shows: the cut lines, then its scorecards at the four
    origins of the grid, row by row. *)
Definition pageDrawn (page : nat) (chunk : list SCPDFData.t) : list jsPDF.Drawing :=
  jsPDF.CutLines page
    :: map (fun placed => jsPDF.Scorecard page (fst (fst placed)) (snd (fst placed))
                            (snd placed))
         (combine [(0, 0); (306, 0); (0, 396); (306, 396)] chunk).

(** The pages [page], [page + 1], ... for the chunks in order. *)
Fixpoint pagesDrawn (page : nat) (chunks : list (list SCPDFData.t))
  : list jsPDF.Drawing :=
  match chunks with
  | [] => []
  | chunk :: rest => (pageDrawn page chunk ++ pagesDrawn (S page) rest)%list
  end.

(** The warning logged for a chunk of fewer than four scorecards. *)
Definition chunkWarning (chunk : list SCPDFData.t) : list string :=
  match chunk with
  | first :: _ =>
      if (List.length chunk <? 4)%nat
      then [warningText (SCPDFData.eventAndRoundText first) (List.length chunk)]
      else []
  | [] => []
  end.

Definition drawable (scPdfData : SCPDFData.t) : Prop :=
  SCPDFData.type scPdfData <> formatBlank.

(** The types of scorecard the deriver produces. *)
Definition fromDeriver (scData : SCData.t) : Prop :=
  SCData.type scData <> formatBlank.

(** An option value that stands for a whole number of pages: a number,
    or a text made of digits (what the field of the form lets in). *)
Definition wholePages (v : OptionValue) : Prop :=
  match v with
  | NumberValue _ => True
  | TextValue s => onlyDigits s = true
  end.

(** The members of a scorecard record that describe its round. *)
Definition roundMembers (scData : SCData.t)
  : string * string * JS.js string * nat * nat * string
    * JS.js JS.number * JS.js JS.number * JS.js JS.number * list CumulRoundInfo.t :=
  (SCData.compName scData, SCData.eventId scData, SCData.eventName scData,
   SCData.round scData, SCData.numRounds scData, SCData.format scData,
   SCData.cutoffCentisec scData, SCData.cutoffAttempts scData,
   SCData.timeLimit scData, SCData.cumulRoundInfos scData).

(** The texts of a formatted scorecard that describe its round. *)
Definition roundTexts (scPdfData : SCPDFData.t)
  : string * JS.js string * JS.js JS.number * JS.js JS.number * JS.js string
    * JS.js string * JS.js string :=
  (SCPDFData.compName scPdfData, SCPDFData.eventAndRoundText scPdfData,
   SCPDFData.attemptsPreCutoff scPdfData, SCPDFData.attemptsPostCutoff scPdfData,
   SCPDFData.cutoffText scPdfData, SCPDFData.timeLimitStartText scPdfData,
   SCPDFData.timeLimitEndText scPdfData).

(** The events that have a name, with their names. *)
Definition eventNames : list (string * string) :=
  [ ("333", "3x3x3 Cube"); ("222", "2x2x2 Cube"); ("444", "4x4x4 Cube");
    ("555", "5x5x5 Cube"); ("666", "6x6x6 Cube"); ("777", "7x7x7 Cube");
    ("333bf", "3x3x3 Blindfolded"); ("333fm", "3x3x3 Fewest Moves");
    ("333oh", "3x3x3 One-Handed"); ("clock", "Clock"); ("minx", "Megaminx");
    ("pyram", "Pyraminx"); ("skewb", "Skewb"); ("sq1", "Square-1");
    ("444bf", "4x4x4 Blindfolded"); ("555bf", "5x5x5 Blindfolded");
    ("333mbf", "3x3x3 Multi-Blind") ].

(** The name of the file of an event, from the name of the event. *)
Definition fileName (w : WCIF.t) (eventName : string) : string :=
  WCIF.compId w ++ "_" ++ JS.replaceAll " " "_" eventName ++ ".pdf".

(** The document [env] is the one saved for the event. *)
Definition savedFor (w : WCIF.t) (optionsObj : OptionsObj) (eventId : string)
    (env : Env) : Prop :=
  genScPdfEvent w optionsObj eventId = JS.Ok env /\
  exists name : string,
    WCIF.eventIdToName eventId = JS.Val name /\
    jsPDF.savedAs (doc env) = Some (fileName w name).

(** The first line fits the width when the regular text is cut at
    [index]: the test of [getNewlineIndex]. *)
Definition firstLineFits (getTextWidth : string -> float -> string -> float)
    (fontSize : float) (boldText regularText : string) (index : nat) : bool :=
  PrimFloat.leb (Lines.totalWidth getTextWidth fontSize boldText regularText index)
    Lines.maxWidth.

(** The places where a text may be cut: its end, and its spaces. *)
Definition mayCut (regularText : string) (index : nat) : Prop :=
  index = String.length regularText \/ String.get index regularText = Some " "%char.

(** The product with a percentage, checked against the exact quotient:
    the floor of [numAdvancing * pct / 100] when that quotient is no
    whole number, and the quotient or one less when it is one; never
    below 0 nor above [numAdvancing]. *)
Definition floorPctNearExact (numAdvancing pct : Z) : bool :=
  match WCIF.floorPct (JS.Int numAdvancing) pct with
  | JS.Int r =>
      let exact := numAdvancing * pct / 100 in
      ((r =? exact) || (((numAdvancing * pct) mod 100 =? 0) && (r =? exact - 1)))
      && (0 <=? r) && (r <=? numAdvancing)
  | JS.NaN => false
  end.

(* ================================================================= *)
(** * Properties *)

(** Appending to a text that starts with known characters computes. *)
#[local] Arguments String.append !s1 s2 : simpl nomatch.

(** ** The host language *)

Lemma bind_Ok_inv {A B : Type} (m : JS.result A) (k : A -> JS.result B) (b : B) :
  JS.bind m k = JS.Ok b -> exists a, m = JS.Ok a /\ k a = JS.Ok b.
Proof.
  destruct m as [a | e]; simpl; intros H.
  - exists a. split; [reflexivity | exact H].
  - discriminate H.
Qed.

(** Splits a hypothesis [bind m k = Ok b] into its two steps, again
    and again. *)
Ltac bind_inv H :=
  let a := fresh "a" in
  let Ha := fresh "Hstep" in
  apply bind_Ok_inv in H; destruct H as (a & Ha & H); simpl in H.

Lemma string_of_uint_onlyDigits (d : Decimal.uint) :
  onlyDigits (NilEmpty.string_of_uint d) = true.
Proof.
  induction d; simpl; try reflexivity; exact IHd.
Qed.

Lemma showN_onlyDigits (n : N) : onlyDigits (JS.showN n) = true.
Proof. apply string_of_uint_onlyDigits. Qed.

Lemma showN_inj (n m : N) : JS.showN n = JS.showN m -> n = m.
Proof.
  unfold JS.showN. intros H.
  assert (Hu : Some (N.to_uint n) = Some (N.to_uint m)).
  { rewrite <- (NilEmpty.usu (N.to_uint n)), <- (NilEmpty.usu (N.to_uint m)).
    now rewrite H. }
  injection Hu as Hu.
  rewrite <- (DecimalN.Unsigned.of_to n), <- (DecimalN.Unsigned.of_to m).
  now rewrite Hu.
Qed.

Lemma showNat_inj (n m : nat) : JS.showNat n = JS.showNat m -> n = m.
Proof.
  unfold JS.showNat. intros H. apply showN_inj in H. now apply Nat2N.inj.
Qed.

Lemma onlyDigits_lacks (c : ascii) (s : string) :
  ((N_of_ascii c <? 48) || (57 <? N_of_ascii c))%N = true ->
  onlyDigits s = true -> lacks c s = true.
Proof.
  intros Hc. induction s as [| x s IH]; simpl; [reflexivity |].
  intros H. apply andb_prop in H. destruct H as [Hx Hs].
  rewrite (IH Hs), andb_true_r.
  destruct (Ascii.eqb_spec x c) as [-> | _]; [| reflexivity].
  apply andb_prop in Hx. destruct Hx as [H1 H2].
  apply N.leb_le in H1. apply N.leb_le in H2.
  apply orb_prop in Hc. destruct Hc as [Hc | Hc]; apply N.ltb_lt in Hc; lia.
Qed.

Lemma lacks_append (c : ascii) (a b : string) :
  lacks c (a ++ b) = lacks c a && lacks c b.
Proof.
  induction a as [| x a IH]; simpl; [reflexivity |].
  now rewrite IH, andb_assoc.
Qed.

(** ** options.js: option identifiers *)

Lemma append_inj_l (p a b : string) : p ++ a = p ++ b -> a = b.
Proof.
  induction p as [| c p IH]; simpl; intros H; [exact H |].
  injection H as H. now apply IH.
Qed.

(** A text that ends in [-r] and digits has one event part only. *)
Lemma round_suffix_unique (e1 e2 d1 d2 : string) :
  lacks "-" d1 = true -> lacks "-" d2 = true ->
  e1 ++ "-r" ++ d1 = e2 ++ "-r" ++ d2 -> e1 = e2 /\ d1 = d2.
Proof.
  intros H1 H2. revert e2.
  induction e1 as [| c e1 IH]; intros [| c2 e2]; simpl; intros H.
  - injection H as H. now split.
  - injection H as Hc H. subst c2.
    destruct e2 as [| c3 e2]; simpl in H; [discriminate H |].
    injection H as _ H. subst d1.
    rewrite lacks_append in H1. simpl in H1.
    now rewrite andb_false_r in H1.
  - injection H as Hc H. subst c.
    destruct e1 as [| c3 e1]; simpl in H; [discriminate H |].
    injection H as _ H. subst d2.
    rewrite lacks_append in H2. simpl in H2.
    now rewrite andb_false_r in H2.
  - injection H as Hc H. subst c2.
    destruct (IH e2 H) as [-> ->]. now split.
Qed.

Lemma showNat_lacks_hyphen (n : nat) : lacks "-" (JS.showNat n) = true.
Proof.
  apply onlyDigits_lacks; [reflexivity | apply showN_onlyDigits].
Qed.

Lemma RoundBlanksOption_genId_inj (e1 e2 : string) (r1 r2 : nat) :
  RoundBlanksOption.genId e1 r1 = RoundBlanksOption.genId e2 r2 ->
  e1 = e2 /\ r1 = r2.
Proof.
  unfold RoundBlanksOption.genId. intros H.
  apply append_inj_l in H.
  apply round_suffix_unique in H; try apply showNat_lacks_hyphen.
  destruct H as [He Hr]. split; [exact He | now apply showNat_inj].
Qed.






(** Only the first space is replaced. *)
Example genId_second_space_kept :
  RoomOption.genId "Main Hall A" = "room-abbr-Main-Hall A".
Proof. reflexivity. Qed.

(** Both options end up under one key of the options object: the
    later one replaces the earlier one. *)
Example colliding_rooms_share_an_option :
  let first := RoomOption.new "Side Room" (TextValue "S") in
  let second := RoomOption.new "Side-Room" (TextValue "T") in
  let optionsObj : OptionsObj :=
    <[ getId second := second ]> (<[ getId first := first ]> ∅) in
  optionsObj !! RoomOption.genId "Side Room" = Some second.
Proof. vm_compute. reflexivity. Qed.

(** ** wcif.js: events and cutoffs *)

(** The unsupported event is never listed, whatever the document. *)
Lemma getEventIds_without_fewest_moves (w : WCIF.t) :
  ~ In "333fm" (WCIF.getEventIds w).
Proof.
  unfold WCIF.getEventIds. intros H.
  apply filter_In in H. destruct H as [_ H].
  now rewrite String.eqb_refl in H.
Qed.

(** C10: for every document and round, both cutoff queries answer
    [null] for the multi-blind event, without looking the round up; so
    the cutoff members of every scorecard record built for that event
    are [null], also when the document declares a cutoff, as the sample
    document does. *)
Theorem getCutoff_multiBlind_null (w : WCIF.t) (round : nat) :
  WCIF.getCutoffCentisec w "333mbf" round = JS.Ok JS.Null /\
  WCIF.getCutoffAttempts w "333mbf" round = JS.Ok JS.Null /\
  (forall (actId registrantId : Z) (scData : SCData.t),
      SCData.competitorScData w "333mbf" round actId registrantId = JS.Ok scData ->
      SCData.cutoffCentisec scData = JS.Null /\
      SCData.cutoffAttempts scData = JS.Null) /\
  (forall scData : SCData.t,
      SCData.roundBlankScData w "333mbf" round = JS.Ok scData ->
      SCData.cutoffCentisec scData = JS.Null /\
      SCData.cutoffAttempts scData = JS.Null).
Proof.
  split; [reflexivity | split; [reflexivity | split]].
  - intros actId registrantId scData H.
    unfold SCData.competitorScData in H.
    repeat bind_inv H.
    injection H as <-. simpl. split; congruence.
  - intros scData H.
    unfold SCData.roundBlankScData in H.
    repeat bind_inv H.
    injection H as <-. simpl. split; congruence.
Qed.

(** The multi-blind round of the sample document declares a cutoff, and
    a record is built for its competitor; the record carries none. *)
Lemma getCutoff_multiBlind_null_witness :
  WCIF.roundField Samples.blindfolded "333mbf" 1 WCIF.cutoff
  = JS.Ok (Some {| WCIF.numberOfAttempts := 1; WCIF.attemptResult := 6000 |}) /\
  exists scData : SCData.t,
    SCData.competitorScData Samples.blindfolded "333mbf" 1 31 7 = JS.Ok scData /\
    SCData.cutoffCentisec scData = JS.Null /\
    SCData.cutoffAttempts scData = JS.Null.
Proof.
  split; [reflexivity |].
  eexists. split; [vm_compute; reflexivity |].
  apply (proj1 (proj2 (proj2 (getCutoff_multiBlind_null Samples.blindfolded 1))) 31 7).
  vm_compute. reflexivity.
Defined.

(** For any other event the cutoff of the document is returned. *)
Example getCutoff_other_event :
  let w := Samples.competition [] [] in
  let withCutoff :=
    {| WCIF.compId := WCIF.compId w; WCIF.name := WCIF.name w;
       WCIF.events :=
         [ {| WCIF.eventId := "666";
              WCIF.rounds :=
                [ Samples.round "666-r1" "m"
                    (Some {| WCIF.numberOfAttempts := 1;
                             WCIF.attemptResult := 21000 |}) 30000 None ] |} ];
       WCIF.persons := []; WCIF.venues := [] |} in
  WCIF.getCutoffCentisec withCutoff "666" 1 = JS.Ok (JS.Val (JS.Int 21000)) /\
  WCIF.getCutoffAttempts withCutoff "666" 1 = JS.Ok (JS.Val (JS.Int 1)).
Proof. split; reflexivity. Qed.

(** ** sc_pdf.js: durations *)

Lemma append_empty_r (a : string) : a ++ "" = a.
Proof. induction a as [| c a IH]; simpl; [reflexivity | now rewrite IH]. Qed.











(** Each component on its own, singular and plural, with and without
    hundredths. *)
Example getTimeText_samples :
  map (fun c => SCPDFData.getTimeText (JS.Int c))
    [60; 200; 6000; 12000; 7000; 6010; 720000; 4205]
  = [ "0.60 seconds"; "2 seconds"; "1 minute"; "2 minutes";
      "1 minute 10 seconds"; "1 minute 0.10 seconds"; "2 hours";
      "42.05 seconds" ].
Proof. vm_compute. reflexivity. Qed.

(** The hundredths agree with the doubles of the source: on every
    duration up to one minute, on durations spread over a day, and on
    durations of several years. *)
Example getTimeText_agrees_with_doubles :
  forallb OnDoubles.agrees (map Z.of_nat (seq 0 (60 * 100 + 1))) = true /\
  forallb OnDoubles.agrees
    (map (fun i => 7919 * Z.of_nat i) (seq 0 1100)) = true /\
  forallb OnDoubles.agrees
    (map (fun i => 123456789012 + 97 * Z.of_nat i) (seq 0 1000)) = true.
Proof. split; [| split]; vm_compute; reflexivity. Qed.

(** ** sc_pdf.js: cutoff members *)



(** ** sc_pdf.js: time limit members *)



(** The event-and-round text: the last round is the final. *)
Example getEventAndRoundText_samples :
  SCPDFData.getEventAndRoundText (JS.Val "3x3x3 Cube") (JS.Int 1) (JS.Int 3)
  = "3x3x3 Cube Round 1" /\
  SCPDFData.getEventAndRoundText (JS.Val "3x3x3 Cube") (JS.Int 3) (JS.Int 3)
  = "3x3x3 Cube Final".
Proof. split; reflexivity. Qed.

(** ** sc_pdf.js: name members *)

Lemma indexOfFrom_absent (c : N) (s : JS.units) (i : Z) :
  ~ In c s -> Units.indexOfFrom c s i = -1.
Proof.
  revert i. induction s as [| x s IH]; intros i Hs; simpl; [reflexivity |].
  destruct (N.eqb_spec x c) as [-> | _].
  - exfalso. apply Hs. now left.
  - apply IH. intros H. apply Hs. now right.
Qed.

Lemma indexOfFrom_first (c : N) (before after : JS.units) (i : Z) :
  ~ In c before ->
  Units.indexOfFrom c (before ++ c :: after)%list i = i + Z.of_nat (List.length before).
Proof.
  revert i. induction before as [| x before IH]; intros i Hb; simpl.
  - rewrite N.eqb_refl. lia.
  - destruct (N.eqb_spec x c) as [-> | _].
    + exfalso. apply Hb. now left.
    + rewrite IH; [lia |]. intros H. apply Hb. now right.
Qed.

Lemma slice_before (before after : JS.units) (c : N) :
  Units.slice (before ++ c :: after)%list 0 (Z.of_nat (List.length before)) = before.
Proof.
  unfold Units.slice. rewrite length_app. cbn [List.length].
  set (b := List.length before). set (a := List.length after).
  replace (0 <? 0) with false by reflexivity. cbv iota.
  replace (Z.of_nat b <? 0) with false by (symmetry; apply Z.ltb_ge; lia).
  cbv iota.
  replace (Z.min 0 (Z.of_nat (b + S a))) with 0 by lia.
  replace (Z.min (Z.of_nat b) (Z.of_nat (b + S a))) with (Z.of_nat b) by lia.
  replace (Z.to_nat (Z.max (Z.of_nat b - 0) 0)) with b by lia.
  change (Z.to_nat 0) with 0%nat. rewrite skipn_O.
  unfold b. rewrite firstn_app, Nat.sub_diag, firstn_all. cbn [firstn].
  apply app_nil_r.
Qed.

Lemma slice_after (before after : JS.units) (c : N) :
  Units.slice (before ++ c :: after)%list (Z.of_nat (List.length before) + 1) (-1)
  = removelast after.
Proof.
  unfold Units.slice. rewrite length_app. cbn [List.length].
  set (b := List.length before). set (a := List.length after).
  replace (Z.of_nat b + 1 <? 0) with false by (symmetry; apply Z.ltb_ge; lia).
  replace (-1 <? 0) with true by reflexivity. cbv iota.
  replace (Z.min (Z.of_nat b + 1) (Z.of_nat (b + S a))) with (Z.of_nat (S b)) by lia.
  replace (Z.to_nat (Z.max (Z.max (Z.of_nat (b + S a) + -1) 0 - Z.of_nat (S b)) 0))
    with (pred a) by lia.
  rewrite Nat2Z.id.
  replace (skipn (S b) (before ++ c :: after)%list) with after.
  - symmetry. apply removelast_firstn_len.
  - change (c :: after) with ([c] ++ after)%list.
    rewrite app_assoc.
    rewrite skipn_app.
    replace (S b) with (List.length (before ++ [c])%list)
      by (rewrite length_app; simpl; lia).
    now rewrite skipn_all, Nat.sub_diag.
Qed.

(** C7: [#setNameData] answers for every name.  When the trimmed name
    has no opening parenthesis, the roman part is the trimmed name and
    there is no translation ([null]).  Otherwise the roman part is what
    stands before the first opening parenthesis, trimmed, and the
    translation is what stands after it, without its last character.
    The two example names are split as expected. *)
Theorem setNameData_spec :
  (forall name : JS.units,
      ~ In Units.openPar (Units.trim name) ->
      SCPDFData.setNameData name = (Units.trim name, JS.Null)) /\
  (forall name before after : JS.units,
      Units.trim name = (before ++ Units.openPar :: after)%list ->
      ~ In Units.openPar before ->
      SCPDFData.setNameData name
      = (Units.trim before, JS.Val (removelast after))) /\
  SCPDFData.setNameData Samples.jasonChang = (Samples.jasonChang, JS.Null) /\
  SCPDFData.setNameData Samples.jasonChangFull
  = (Samples.jasonChang, JS.Val Samples.jasonChangTranslation).
Proof.
  split; [| split; [| split; vm_compute; reflexivity]].
  - intros name H. unfold SCPDFData.setNameData, Units.indexOf.
    now rewrite (indexOfFrom_absent _ _ 0 H).
  - intros name before after Ht Hb.
    unfold SCPDFData.setNameData, Units.indexOf.
    rewrite Ht, (indexOfFrom_first _ before after 0 Hb), Z.add_0_l.
    destruct (Z.eqb_spec (Z.of_nat (List.length before)) (-1)) as [H | _]; [lia |].
    now rewrite slice_before, slice_after.
Qed.

Lemma setNameData_spec_witness :
  SCPDFData.setNameData (Units.ofAscii "  Ana Li (Li) ")
  = (Units.ofAscii "Ana Li", JS.Val (Units.ofAscii "Li")) /\
  SCPDFData.setNameData (Units.ofAscii " Ana Li ") = (Units.ofAscii "Ana Li", JS.Null).
Proof.
  split.
  - apply (proj1 (proj2 setNameData_spec) (Units.ofAscii "  Ana Li (Li) ")
             (Units.ofAscii "Ana Li ") (Units.ofAscii "Li)")).
    + vm_compute. reflexivity.
    + vm_compute. intuition discriminate.
  - apply (proj1 setNameData_spec (Units.ofAscii " Ana Li ")).
    vm_compute. intuition discriminate.
Defined.

(** Without a closing parenthesis the last character is dropped all
    the same, and a non-breaking space counts as white space. *)
Example setNameData_edge_cases :
  SCPDFData.setNameData (Units.ofAscii "Ana (Li") = (Units.ofAscii "Ana", JS.Val (Units.ofAscii "L")) /\
  SCPDFData.setNameData (Units.ofAscii "Ana (") = (Units.ofAscii "Ana", JS.Val []) /\
  SCPDFData.setNameData ([160] ++ Units.ofAscii "Ana" ++ [160])%list%N
  = (Units.ofAscii "Ana", JS.Null).
Proof. repeat split; vm_compute; reflexivity. Qed.

(** ** sc_pdf.js: the group member *)

(** Whatever the record, the text before the group number is the text
    of [undefined]. *)
Lemma setGroupData_undefined (scData : SCData.t) :
  SCPDFData.setGroupData scData
  = "undefined" ++ JS.template JS.showNumber (SCData.groupNum scData).
Proof. reflexivity. Qed.

(** C2, on the sample competition with two competitors in group 1 of
    the Ballroom, whose abbreviation option holds B: the group texts of
    the two competitor scorecards are [undefined1], not [B1] (the two
    filler blanks that follow have no group text). *)
Theorem group_label_lacks_room_abbreviation :
  Samples.options 0 !! RoomOption.genId "Ballroom"
  = Some (RoomOption.new "Ballroom" (TextValue "B")) /\
  JS.rmap (map SCData.groupRoom)
    (getScDataForEvent (Samples.assigned 2) (Samples.options 0) "333")
  = JS.Ok [JS.Val "Ballroom"; JS.Val "Ballroom"; JS.Null; JS.Null] /\
  JS.rmap (map SCPDFData.group)
    (getScPdfDataForEvent (Samples.assigned 2) (Samples.options 0) "333")
  = JS.Ok [JS.Val "undefined1"; JS.Val "undefined1"; JS.Undefined; JS.Undefined].
Proof. repeat split; vm_compute; reflexivity. Qed.

(** ** sc_data.js: blank scorecards of a round *)

(** When groups are assigned for a round, the number advancing to it is
    the number of its assigned competitors. *)
Lemma getNumAdvancingToRound_assigned (w : WCIF.t) (eventId : string) (round : nat) :
  (1 <= round)%nat ->
  WCIF.groupsAreAssigned w eventId round = true ->
  WCIF.getNumAdvancingToRound w eventId round
  = JS.Ok (JS.Val (JS.Int (Z.of_nat
             (List.length (WCIF.assignedCompetitors w eventId round))))).
Proof.
  intros Hr Ha. destruct round as [| r]; [lia |].
  unfold WCIF.getNumAdvancingToRound. cbn [WCIF.walkBack].
  rewrite Ha, orb_true_r. reflexivity.
Qed.

(** The number of blank records as the code computes it, for an option
    that holds a number of pages: with groups assigned, 4 minus the
    remainder of the number of competitors, plus 4 per page. *)
Lemma getScDataForRoundBlanks_assigned (w : WCIF.t) (optionsObj : OptionsObj)
    (eventId : string) (round : nat) (o : Option_) (pages : Z) (blank : SCData.t) :
  (1 <= round)%nat ->
  WCIF.groupsAreAssigned w eventId round = true ->
  optionsObj !! RoundBlanksOption.genId eventId round = Some o ->
  value o = NumberValue pages ->
  0 <= pages < 2 ^ 29 ->
  SCData.roundBlankScData w eventId round = JS.Ok blank ->
  getScDataForRoundBlanks w optionsObj eventId round
  = JS.Ok (repeat blank
             (Z.to_nat (4 - Z.of_nat (List.length
                                        (WCIF.assignedCompetitors w eventId round)) mod 4
                        + 4 * pages))).
Proof.
  intros Hr Ha Ho Hv Hp Hb. unfold getScDataForRoundBlanks.
  rewrite Ha, (getNumAdvancingToRound_assigned w eventId round Hr Ha), Ho, Hv.
  cbn [JS.bind JS.toNumber JS.rem JS.sub JS.add valueTimes Z.eqb].
  set (n := Z.of_nat (List.length (WCIF.assignedCompetitors w eventId round))).
  assert (Hn : 0 <= n) by (unfold n; lia).
  rewrite Z.rem_mod_nonneg by lia.
  assert (Hm : 0 <= n mod 4 < 4) by (apply Z.mod_pos_bound; lia).
  unfold arrayOfLength.
  destruct (Z.leb_spec 0 (4 - n mod 4 + pages * 4)) as [_ | H]; [| lia].
  destruct (Z.ltb_spec (4 - n mod 4 + pages * 4) (2 ^ 32)) as [_ | H]; [| lia].
  cbn [andb JS.bind]. rewrite Hb. cbn [JS.bind].
  do 2 f_equal. lia.
Qed.

(** Without assigned groups: 4 per page. *)
Lemma getScDataForRoundBlanks_unassigned (w : WCIF.t) (optionsObj : OptionsObj)
    (eventId : string) (round : nat) (o : Option_) (pages : Z) (blank : SCData.t) :
  WCIF.groupsAreAssigned w eventId round = false ->
  optionsObj !! RoundBlanksOption.genId eventId round = Some o ->
  value o = NumberValue pages ->
  0 <= pages < 2 ^ 29 ->
  SCData.roundBlankScData w eventId round = JS.Ok blank ->
  getScDataForRoundBlanks w optionsObj eventId round
  = JS.Ok (repeat blank (Z.to_nat (4 * pages))).
Proof.
  intros Ha Ho Hv Hp Hb. unfold getScDataForRoundBlanks.
  rewrite Ha, Ho, Hv.
  cbn [JS.bind JS.add valueTimes]. unfold arrayOfLength.
  destruct (Z.leb_spec 0 (0 + pages * 4)) as [_ | H]; [| lia].
  destruct (Z.ltb_spec (0 + pages * 4) (2 ^ 32)) as [_ | H]; [| lia].
  cbn [andb JS.bind]. rewrite Hb. cbn [JS.bind].
  do 2 f_equal. lia.
Qed.

(** C1, at the input where it fails: four competitors are assigned to
    the round, the option asks for no page of blanks, and the deriver
    emits four blank records (a whole page), not none. *)
Theorem roundBlanks_multiple_of_four :
  WCIF.groupsAreAssigned (Samples.assigned 4) "333" 1 = true /\
  List.length (WCIF.assignedCompetitors (Samples.assigned 4) "333" 1) = 4%nat /\
  value (RoundBlanksOption.new "333" 1 (NumberValue 0)) = NumberValue 0 /\
  JS.rmap (fun blanks => List.length blanks)
    (getScDataForRoundBlanks (Samples.assigned 4) (Samples.options 0) "333" 1)
  = JS.Ok 4%nat.
Proof. repeat split; vm_compute; reflexivity. Qed.

(** The other cases of the rule, on the samples: five competitors and
    two pages give 3 + 8 blanks; a round without groups gives 8. *)
Example roundBlanks_samples :
  JS.rmap (fun blanks => List.length blanks)
    (getScDataForRoundBlanks (Samples.assigned 5) (Samples.options 2) "333" 1)
  = JS.Ok 11%nat /\
  JS.rmap (fun blanks => List.length blanks)
    (getScDataForRoundBlanks (Samples.assigned 5) (Samples.options 2) "333" 2)
  = JS.Ok 8%nat.
Proof. split; vm_compute; reflexivity. Qed.

(** The earlier revision filled the last page and added one page: no
    filler for a multiple of four.  With its default of one page the
    present revision emits the same number of blanks, except for a
    multiple of four, where it emits four more. *)
Lemma numExtraBlanks_filler (numCompetitors : Z) :
  0 <= numCompetitors ->
  EarlierOptions.numExtraBlanks numCompetitors
  = (if numCompetitors mod 4 =? 0 then 0 else 4 - numCompetitors mod 4) + 4.
Proof.
  intros Hn. unfold EarlierOptions.numExtraBlanks.
  destruct (Z.eqb_spec (numCompetitors mod 4) 0) as [H | H];
    Z.div_mod_to_equations; lia.
Qed.

Example earlier_revision_multiple_of_four :
  EarlierOptions.getNumBlanksForRound (Samples.assigned 4) "333" 1 = JS.Ok (JS.Int 4) /\
  JS.rmap (fun blanks => List.length blanks)
    (getScDataForRoundBlanks (Samples.assigned 4) (Samples.options 1) "333" 1)
  = JS.Ok 8%nat.
Proof. split; vm_compute; reflexivity. Qed.

(** ** wcif.js: the number of competitors advancing to a round *)

(** Percentages already on the stack stay below what the loop pushes. *)
Lemma walkBack_stack (w : WCIF.t) (eventId : string) (i : nat) (stack : list Z) :
  WCIF.walkBack w eventId i stack
  = JS.rmap (fun found => (fst found, (snd found ++ stack)%list))
      (WCIF.walkBack w eventId i []).
Proof.
  revert stack. induction i as [| i IH]; intros stack; [reflexivity |].
  cbn [WCIF.walkBack].
  destruct (Nat.eqb (S i) 1 || WCIF.groupsAreAssigned w eventId (S i));
    [reflexivity |].
  destruct (WCIF.roundField w eventId i WCIF.advancementCondition)
    as [[a |] | e]; try reflexivity.
  cbn [JS.bind].
  destruct (String.eqb (WCIF.type a) "ranking"); [reflexivity |].
  rewrite (IH (WCIF.level a :: stack)), (IH [WCIF.level a]).
  destruct (WCIF.walkBack w eventId i []) as [[base s] | e]; [| reflexivity].
  cbn [JS.rmap JS.bind fst snd]. now rewrite <- app_assoc.
Qed.

Lemma popAll_app (s1 s2 : list Z) (n : JS.js JS.number) :
  WCIF.popAll (s1 ++ s2)%list n = WCIF.popAll s2 (WCIF.popAll s1 n).
Proof.
  revert n. induction s1 as [| pct s1 IH]; intros n; [reflexivity |].
  cbn [app WCIF.popAll]. apply IH.
Qed.

(** One more round back: the percentage of the previous round is
    applied last, to what advances to the previous round. *)
Lemma getNumAdvancingToRound_percent (w : WCIF.t) (eventId : string) (round : nat)
    (adv : WCIF.AdvancementCondition) :
  (1 <= round)%nat ->
  WCIF.groupsAreAssigned w eventId (S round) = false ->
  WCIF.roundField w eventId round WCIF.advancementCondition = JS.Ok (Some adv) ->
  WCIF.type adv <> "ranking" ->
  WCIF.getNumAdvancingToRound w eventId (S round)
  = (let* n := WCIF.getNumAdvancingToRound w eventId round in
     JS.Ok (JS.Val (WCIF.floorPct (JS.toNumber n) (WCIF.level adv)))).
Proof.
  intros Hr Ha Hadv Ht. unfold WCIF.getNumAdvancingToRound.
  cbn [WCIF.walkBack]. rewrite Ha, Hadv.
  destruct round as [| r]; [lia |]. cbn [Nat.eqb orb JS.bind].
  destruct (String.eqb_spec (WCIF.type adv) "ranking") as [He | _];
    [contradiction |].
  rewrite walkBack_stack.
  destruct (WCIF.walkBack w eventId (S r) []) as [[base s] | e]; [| reflexivity].
  cbn [JS.rmap JS.bind fst snd]. now rewrite popAll_app.
Qed.

(** C3, as the code has it.  For the first round, and for a round
    whose groups are assigned, the result is the number of competitor
    entries over the groups of that round (a person counts once per
    group entered); for a first round without groups that is 0.  For a
    later round without groups: when the previous round advances by
    ranking, the result is the fixed count; otherwise it is what
    advances to the previous round, multiplied by the percentage and
    floored. *)
Theorem getNumAdvancingToRound_spec (w : WCIF.t) (eventId : string) :
  (forall round : nat,
      round = 1%nat \/
      ((1 <= round)%nat /\ WCIF.groupsAreAssigned w eventId round = true) ->
      WCIF.getNumAdvancingToRound w eventId round
      = JS.Ok (JS.Val (JS.Int (Z.of_nat
                 (List.length (WCIF.assignedCompetitors w eventId round)))))) /\
  (WCIF.groupsAreAssigned w eventId 1 = false ->
   WCIF.getNumAdvancingToRound w eventId 1 = JS.Ok (JS.Val (JS.Int 0))) /\
  (forall (round : nat) (adv : WCIF.AdvancementCondition),
      (1 <= round)%nat ->
      WCIF.groupsAreAssigned w eventId (S round) = false ->
      WCIF.roundField w eventId round WCIF.advancementCondition = JS.Ok (Some adv) ->
      (WCIF.type adv = "ranking" ->
       WCIF.getNumAdvancingToRound w eventId (S round)
       = JS.Ok (JS.Val (JS.Int (WCIF.level adv)))) /\
      (WCIF.type adv <> "ranking" ->
       WCIF.getNumAdvancingToRound w eventId (S round)
       = (let* n := WCIF.getNumAdvancingToRound w eventId round in
          JS.Ok (JS.Val (WCIF.floorPct (JS.toNumber n) (WCIF.level adv)))))).
Proof.
  split; [| split].
  - intros round [-> | [Hr Ha]].
    + reflexivity.
    + now apply getNumAdvancingToRound_assigned.
  - intros Ha. unfold WCIF.getNumAdvancingToRound. cbn [WCIF.walkBack Nat.eqb orb].
    cbn [JS.bind snd fst WCIF.popAll].
    unfold WCIF.groupsAreAssigned in Ha. apply Z.ltb_ge in Ha.
    do 3 f_equal. lia.
  - intros round adv Hr Ha Hadv. split.
    + intros Ht. unfold WCIF.getNumAdvancingToRound.
      cbn [WCIF.walkBack]. rewrite Ha, Hadv.
      destruct round as [| r]; [lia |]. cbn [Nat.eqb orb JS.bind].
      now rewrite Ht.
    + now apply getNumAdvancingToRound_percent.
Qed.

Lemma getNumAdvancingToRound_spec_witness :
  WCIF.getNumAdvancingToRound (Samples.assigned 80) "333" 1 = JS.Ok (JS.Val (JS.Int 80)) /\
  WCIF.getNumAdvancingToRound (Samples.assigned 80) "333" 2 = JS.Ok (JS.Val (JS.Int 60)) /\
  WCIF.getNumAdvancingToRound (Samples.assigned 80) "333" 4 = JS.Ok (JS.Val (JS.Int 12)).
Proof.
  assert (Hne : forall t : string, String.eqb t "ranking" = false -> t <> "ranking").
  { intros t H. now apply String.eqb_neq. }
  assert (H1 : (1 <= 1)%nat) by lia.
  assert (H3 : (1 <= 3)%nat) by lia.
  split; [| split].
  - apply (proj1 (getNumAdvancingToRound_spec (Samples.assigned 80) "333") 1%nat).
    right. split; [exact H1 | vm_compute; reflexivity].
  - rewrite (proj2 (proj2 (proj2 (getNumAdvancingToRound_spec (Samples.assigned 80) "333")) 1%nat
               {| WCIF.type := "percent"; WCIF.level := 75 |} H1 eq_refl eq_refl)
               (Hne "percent" eq_refl)).
    vm_compute. reflexivity.
  - apply (proj1 (proj2 (proj2 (getNumAdvancingToRound_spec (Samples.assigned 80) "333")) 3%nat
               {| WCIF.type := "ranking"; WCIF.level := 12 |} H3 eq_refl eq_refl)
               eq_refl).
Defined.

(** C3, as stated, fails twice.  Eighty persons are registered and no
    group is assigned: the first round counts 0, not 80.  One person is
    entered in both groups of a round: the round counts 2, while it has
    one distinct competitor. *)
Lemma getNumAdvancingToRound_counts_entries :
  List.length (WCIF.getCompetitorRegistrantIds Samples.registered80) = 80%nat /\
  WCIF.groupsAreAssigned Samples.registered80 "333" 1 = false /\
  WCIF.getNumAdvancingToRound Samples.registered80 "333" 1 = JS.Ok (JS.Val (JS.Int 0)) /\
  WCIF.getNumAdvancingToRound Samples.registered80 "333" 1 <> JS.Ok (JS.Val (JS.Int 80)) /\
  WCIF.groupsAreAssigned Samples.enteredTwice "333" 1 = true /\
  WCIF.assignedCompetitors Samples.enteredTwice "333" 1 = [1; 1] /\
  WCIF.getNumAdvancingToRound Samples.enteredTwice "333" 1 = JS.Ok (JS.Val (JS.Int 2)).
Proof.
  repeat split; try (vm_compute; reflexivity).
  vm_compute. discriminate.
Qed.

(** The product is rounded as a double before it is floored: 29 percent
    of 100 is 28, since 100 * 0.29 is 28.999999999999996. *)
Example floorPct_samples :
  WCIF.floorPct (JS.Int 80) 75 = JS.Int 60 /\
  WCIF.floorPct (JS.Int 7) 75 = JS.Int 5 /\
  WCIF.floorPct (JS.Int 100) 29 = JS.Int 28 /\
  WCIF.floorPct JS.NaN 75 = JS.NaN.
Proof. repeat split; vm_compute; reflexivity. Qed.

(** The rounds of the sample event, from 100 competitors: 75 percent,
    then 29 percent of those, then the best 12; a fifth round does not
    exist, and asking for it throws. *)
Example getNumAdvancingToRound_samples :
  map (WCIF.getNumAdvancingToRound (Samples.assigned 100) "333") [1; 2; 3; 4; 5]%nat
  = [ JS.Ok (JS.Val (JS.Int 100)); JS.Ok (JS.Val (JS.Int 75));
      JS.Ok (JS.Val (JS.Int 21)); JS.Ok (JS.Val (JS.Int 12));
      JS.Throw JS.TypeError ].
Proof. vm_compute. reflexivity. Qed.

(** ** sc_pdf.js: pages *)

Lemma div4_step (n : nat) : (S (S (S (S n))) / 4 = S (n / 4))%nat.
Proof.
  change (S (S (S (S n)))) with (4 + n)%nat.
  replace (4 + n)%nat with (1 * 4 + n)%nat by lia.
  rewrite Nat.div_add_l by lia. lia.
Qed.

Lemma mod4_step (n : nat) : (S (S (S (S n))) mod 4 = n mod 4)%nat.
Proof.
  change (S (S (S (S n)))) with (4 + n)%nat.
  replace (4 + n)%nat with (n + 1 * 4)%nat by lia.
  apply Nat.Div0.mod_add.
Qed.

Section Chunks.

Context {A : Type}.

(** Induction four elements at a time. *)
Lemma list_ind4 (P : list A -> Prop) :
  P [] ->
  (forall a, P [a]) ->
  (forall a b, P [a; b]) ->
  (forall a b c, P [a; b; c]) ->
  (forall a b c d rest, P rest -> P (a :: b :: c :: d :: rest)) ->
  forall l, P l.
Proof.
  intros H0 H1 H2 H3 H4.
  fix IH 1. intros [| a [| b [| c [| d rest]]]].
  - exact H0.
  - apply H1.
  - apply H2.
  - apply H3.
  - apply H4, IH.
Qed.



Lemma chunks4_count (l : list A) :
  List.length (chunks4 l) = ((List.length l + 3) / 4)%nat.
Proof.
  induction l as [| a | a b | a b c | a b c d rest IH] using list_ind4;
    try reflexivity.
  cbn [chunks4 List.length]. rewrite IH.
  change (S (S (S (S (List.length rest)))) + 3)%nat
    with (S (S (S (S (List.length rest + 3))))).
  now rewrite div4_step.
Qed.

(** The first chunk is the first four elements, the other chunks are
    the chunks of the rest. *)
Lemma chunks4_step (l : list A) :
  l <> [] -> chunks4 l = firstn 4 l :: chunks4 (skipn 4 l).
Proof.
  destruct l as [| a [| b [| c [| d rest]]]]; intros H;
    [contradiction | reflexivity ..].
Qed.

Lemma skipn_nonempty (n : nat) (l : list A) :
  (n < List.length l)%nat -> skipn n l <> [].
Proof.
  intros Hn H. apply (f_equal (fun x => List.length x)) in H.
  rewrite length_skipn in H. simpl in H. lia.
Qed.

Lemma skipn_4_more (i : nat) (l : list A) :
  skipn 4 (skipn (i * 4) l) = skipn (S i * 4) l.
Proof. rewrite skipn_skipn. reflexivity. Qed.

End Chunks.

(** The scorecards of a chunk are drawn at the origins of the grid. *)
Lemma drawEach_ok (scPdfSubset : list SCPDFData.t) (i : nat) (env : Env) :
  (i + List.length scPdfSubset <= 4)%nat ->
  Forall drawable scPdfSubset ->
  drawEach scPdfSubset i env
  = JS.Ok (onDoc (fun d =>
             {| jsPDF.numPages := jsPDF.numPages d;
                jsPDF.currentPage := jsPDF.currentPage d;
                jsPDF.drawn :=
                  (jsPDF.drawn d
                   ++ map (fun placed =>
                             jsPDF.Scorecard (jsPDF.currentPage d)
                               (fst (fst placed)) (snd (fst placed)) (snd placed))
                        (combine (skipn i [(0, 0); (306, 0); (0, 396); (306, 396)])
                           scPdfSubset))%list;
                jsPDF.savedAs := jsPDF.savedAs d |}) env).
Proof.
  revert i env.
  induction scPdfSubset as [| sc rest IH]; intros i env Hi Hd.
  - destruct env as [[n p dr sv] co]. unfold onDoc. cbn.
    rewrite combine_nil, app_nil_r. reflexivity.
  - inversion Hd as [| ? ? Hsc Hrest]; subst.
    cbn [List.length] in Hi.
    assert (Hc : exists xy, nth_error coords i = Some xy
                            /\ skipn i [(0, 0); (306, 0); (0, 396); (306, 396)]
                               = xy :: skipn (S i) [(0, 0); (306, 0); (0, 396); (306, 396)]).
    { destruct i as [| [| [| [| i]]]]; try lia; eexists; split; reflexivity. }
    destruct Hc as ([x y] & Hnth & Hskip).
    cbn [drawEach]. rewrite Hnth.
    unfold drawScorecard, drawable in *.
    destruct (SCPDFData.type sc) eqn:Ht; try contradiction;
      cbn [JS.bind]; rewrite IH by (assumption || lia);
      rewrite Hskip; destruct env as [[n p dr sv] co];
      unfold onDoc, jsPDF.draw; cbn; rewrite <- app_assoc; reflexivity.
Qed.

(** A chunk of one to four scorecards is drawn on the current page, and
    a warning is logged when it has fewer than four. *)
Lemma draw4Scorecards_ok (scPdfSubset : list SCPDFData.t) (env : Env) :
  (1 <= List.length scPdfSubset <= 4)%nat ->
  Forall drawable scPdfSubset ->
  draw4Scorecards scPdfSubset env
  = JS.Ok {| doc :=
               {| jsPDF.numPages := jsPDF.numPages (doc env);
                  jsPDF.currentPage := jsPDF.currentPage (doc env);
                  jsPDF.drawn :=
                    (jsPDF.drawn (doc env)
                     ++ tl (pageDrawn (jsPDF.currentPage (doc env)) scPdfSubset))%list;
                  jsPDF.savedAs := jsPDF.savedAs (doc env) |};
             console := (console env ++ chunkWarning scPdfSubset)%list |}.
Proof.
  intros Hlen Hd. unfold draw4Scorecards, chunkWarning.
  destruct scPdfSubset as [| first rest]; [simpl in Hlen; lia |].
  destruct (Nat.ltb_spec (List.length (first :: rest)) 4) as [Hshort | Hfull].
  - cbn [JS.bind]. rewrite drawEach_ok by (assumption || lia).
    destruct env as [[n p dr sv] co]. reflexivity.
  - destruct (Nat.ltb_spec 4 (List.length (first :: rest))) as [Hlong | _]; [lia |].
    cbn [JS.bind]. rewrite drawEach_ok by (assumption || lia).
    destruct env as [[n p dr sv] co]. unfold onDoc. cbn.
    now rewrite app_nil_r.
Qed.



(** The first loop adds one page for every chunk after the first. *)
Lemma addPages_spec (scPdfArr : list SCPDFData.t) (fuel i : nat) (d : jsPDF.t) :
  (List.length scPdfArr <= 4 * i + 4 + fuel)%nat ->
  jsPDF.numPages (addPages fuel i (List.length scPdfArr) d)
  = (jsPDF.numPages d + List.length (chunks4 (skipn (S i * 4) scPdfArr)))%nat
  /\ jsPDF.drawn (addPages fuel i (List.length scPdfArr) d) = jsPDF.drawn d.
Proof.
  revert i d. induction fuel as [| fuel IH]; intros i d Hfuel.
  - cbn [addPages]. rewrite skipn_all2 by lia. cbn. split; [lia | reflexivity].
  - cbn [addPages].
    destruct (Nat.ltb_spec (4 * i + 4) (List.length scPdfArr)) as [Hmore | Hdone].
    + destruct (IH (S i) (jsPDF.addPage d)) as [Hn Hd]; [lia |].
      rewrite Hn, Hd.
      rewrite (chunks4_step (skipn (S i * 4) scPdfArr))
        by (apply skipn_nonempty; lia).
      rewrite skipn_4_more. cbn [List.length jsPDF.addPage jsPDF.numPages jsPDF.drawn].
      split; [lia | reflexivity].
    + rewrite skipn_all2 by lia. cbn. split; [lia | reflexivity].
Qed.

(** The second loop draws the chunks in order, one per page, provided
    the document has the pages. *)
Lemma drawPages_spec (scPdfArr : list SCPDFData.t) (fuel i : nat) (env : Env) :
  (List.length scPdfArr <= 4 * i + fuel)%nat ->
  Forall drawable scPdfArr ->
  (i + List.length (chunks4 (skipn (i * 4) scPdfArr)) <= jsPDF.numPages (doc env))%nat ->
  exists env' : Env,
    drawPages fuel i scPdfArr env = JS.Ok env' /\
    jsPDF.numPages (doc env') = jsPDF.numPages (doc env) /\
    jsPDF.drawn (doc env')
    = (jsPDF.drawn (doc env)
       ++ pagesDrawn (S i) (chunks4 (skipn (i * 4) scPdfArr)))%list /\
    console env'
    = (console env ++ flat_map chunkWarning (chunks4 (skipn (i * 4) scPdfArr)))%list.
Proof.
  intros Hfuel Hd. revert i env Hfuel.
  induction fuel as [| fuel IH]; intros i env Hfuel Hpages.
  - exists env. cbn [drawPages]. rewrite skipn_all2 by lia. cbn.
    now rewrite !app_nil_r.
  - cbn [drawPages].
    destruct (Nat.ltb_spec (4 * i) (List.length scPdfArr)) as [Hmore | Hdone].
    2: { exists env. rewrite skipn_all2 by lia. cbn. now rewrite !app_nil_r. }
    set (l := skipn (i * 4) scPdfArr) in *.
    assert (Hl : l <> []) by (apply skipn_nonempty; lia).
    assert (Hlen : (1 <= List.length (firstn 4 l) <= 4)%nat).
    { rewrite length_firstn. unfold l. rewrite length_skipn. lia. }
    rewrite (chunks4_step l Hl) in *. unfold l in Hpages |- *.
    rewrite skipn_4_more in *. fold l in Hpages |- *.
    cbn [List.length] in Hpages.
    assert (Hpage : jsPDF.setPage (i + 1) (doc env)
                    = {| jsPDF.numPages := jsPDF.numPages (doc env);
                         jsPDF.currentPage := S i;
                         jsPDF.drawn := jsPDF.drawn (doc env);
                         jsPDF.savedAs := jsPDF.savedAs (doc env) |}).
    { unfold jsPDF.setPage. rewrite Nat.add_1_r.
      destruct (Nat.leb_spec (S i) (jsPDF.numPages (doc env))) as [_ | H]; [| lia].
      reflexivity. }
    rewrite draw4Scorecards_ok
      by (try exact Hlen; apply Forall_take, Forall_drop, Hd).
    cbn [JS.bind]. unfold drawCutLines, onDoc. cbn [doc console].
    rewrite Hpage. unfold jsPDF.draw.
    cbn [jsPDF.numPages jsPDF.currentPage jsPDF.drawn jsPDF.savedAs].
    match goal with
    | |- exists env', drawPages fuel (S i) scPdfArr ?e = _ /\ _ =>
        destruct (IH (S i) e) as (env' & Hrun & Hn & Hdr & Hco);
          [lia | cbn [doc jsPDF.numPages]; lia |]
    end.
    exists env'. split; [exact Hrun |].
    cbn [doc console jsPDF.numPages jsPDF.drawn] in Hn, Hdr, Hco.
    split; [exact Hn |]. split.
    + rewrite Hdr. cbn [pagesDrawn flat_map]. unfold pageDrawn at 2.
      cbn [tl]. rewrite <- !app_assoc. reflexivity.
    + rewrite Hco. cbn [flat_map]. now rewrite <- app_assoc.
Qed.

(** The layout of any sequence of drawable scorecards. *)
Lemma layoutPages_ok (scPdfArr : list SCPDFData.t) :
  Forall drawable scPdfArr ->
  exists env : Env,
    layoutPages scPdfArr = JS.Ok env /\
    jsPDF.numPages (doc env) = Nat.max 1 (List.length (chunks4 scPdfArr)) /\
    jsPDF.drawn (doc env) = pagesDrawn 1 (chunks4 scPdfArr) /\
    console env = flat_map chunkWarning (chunks4 scPdfArr).
Proof.
  intros Hd. unfold layoutPages.
  destruct (addPages_spec scPdfArr (List.length scPdfArr) 0 jsPDF.new) as [Hn Hdr];
    [lia |].
  assert (Hcount : (jsPDF.numPages jsPDF.new
                    + List.length (chunks4 (skipn (1 * 4) scPdfArr)))%nat
                   = Nat.max 1 (List.length (chunks4 scPdfArr))).
  { destruct scPdfArr as [| a [| b [| c [| d rest]]]]; reflexivity. }
  destruct (drawPages_spec scPdfArr (List.length scPdfArr) 0
              {| doc := addPages (List.length scPdfArr) 0 (List.length scPdfArr) jsPDF.new;
                 console := [] |})
    as (env & Hrun & Hpages & Hdrawn & Hconsole); [lia | exact Hd | |].
  - cbn [doc]. rewrite Hn, Hcount.
    change (skipn (0 * 4) scPdfArr) with scPdfArr. lia.
  - exists env. cbn [doc console] in *.
    change (skipn (0 * 4) scPdfArr) with scPdfArr in *.
    split; [exact Hrun |]. split; [now rewrite Hpages, Hn, Hcount |].
    split; [now rewrite Hdrawn, Hdr | exact Hconsole].
Qed.

(** What [map] with a throwing callback returns holds what every
    result of the callback holds. *)
Lemma mapM_Forall {A B : Type} (f : A -> JS.result B) (P : B -> Prop)
    (l : list A) (l' : list B) :
  (forall x y, f x = JS.Ok y -> P y) ->
  JS.mapM f l = JS.Ok l' -> Forall P l'.
Proof.
  intros Hf. revert l'. induction l as [| x l IH]; intros l' H; cbn [JS.mapM] in H.
  - injection H as <-. constructor.
  - bind_inv H. bind_inv H. injection H as <-.
    constructor; [now apply (Hf x) | now apply IH].
Qed.

Lemma competitorScData_type (w : WCIF.t) (eventId : string) (round : nat)
    (actId registrantId : Z) (scData : SCData.t) :
  SCData.competitorScData w eventId round actId registrantId = JS.Ok scData ->
  fromDeriver scData.
Proof.
  unfold SCData.competitorScData. intros H. repeat bind_inv H.
  injection H as <-. discriminate.
Qed.

Lemma getScDataForRoundBlanks_type (w : WCIF.t) (optionsObj : OptionsObj)
    (eventId : string) (round : nat) (blanks : list SCData.t) :
  getScDataForRoundBlanks w optionsObj eventId round = JS.Ok blanks ->
  Forall fromDeriver blanks.
Proof.
  unfold getScDataForRoundBlanks. intros H. bind_inv H.
  destruct (optionsObj !! RoundBlanksOption.genId eventId round) as [o |];
    [| discriminate H].
  bind_inv H. bind_inv H. injection H as <-.
  unfold SCData.roundBlankScData in Hstep1. repeat bind_inv Hstep1.
  injection Hstep1 as <-.
  apply List.Forall_forall. intros x Hx. apply repeat_spec in Hx. subst x. discriminate.
Qed.

Lemma getScDataForRound_type (w : WCIF.t) (optionsObj : OptionsObj)
    (eventId : string) (round : nat) (scDataArr : list SCData.t) :
  getScDataForRound w optionsObj eventId round = JS.Ok scDataArr ->
  Forall fromDeriver scDataArr.
Proof.
  unfold getScDataForRound. intros H. bind_inv H. bind_inv H. injection H as <-.
  apply Forall_app. split.
  - apply Forall_concat.
    apply (mapM_Forall (getScDataForGroup w eventId round) (Forall fromDeriver)
             (WCIF.getGroupActIds w eventId round)); [| assumption].
    intros actId group Hg. unfold getScDataForGroup in Hg.
    apply (mapM_Forall _ fromDeriver _ _ (fun registrantId scData =>
             competitorScData_type w eventId round actId registrantId scData) Hg).
  - now apply (getScDataForRoundBlanks_type w optionsObj eventId round).
Qed.

Lemma scDataForRounds_type (w : WCIF.t) (optionsObj : OptionsObj)
    (eventId : string) (from count : nat) (scDataArr : list SCData.t) :
  scDataForRounds w optionsObj eventId from count = JS.Ok scDataArr ->
  Forall fromDeriver scDataArr.
Proof.
  revert from scDataArr. induction count as [| count IH]; intros from scDataArr H;
    cbn [scDataForRounds] in H.
  - injection H as <-. constructor.
  - bind_inv H. bind_inv H. injection H as <-.
    apply Forall_app. split.
    + now apply (getScDataForRound_type w optionsObj eventId from).
    + now apply (IH (S from)).
Qed.

Lemma fromScData_type (scData : SCData.t) (scPdfData : SCPDFData.t) :
  SCPDFData.fromScData scData = JS.Ok scPdfData ->
  SCPDFData.type scPdfData = SCData.type scData.
Proof.
  unfold SCPDFData.fromScData. intros H.
  destruct (SCData.type scData) eqn:Ht; repeat bind_inv H;
    injection H as <-; reflexivity.
Qed.

(** Every scorecard the deriver and the formatter produce for an event
    has a drawing function. *)
Lemma getScPdfDataForEvent_drawable (w : WCIF.t) (optionsObj : OptionsObj)
    (eventId : string) (scPdfArr : list SCPDFData.t) :
  getScPdfDataForEvent w optionsObj eventId = JS.Ok scPdfArr ->
  Forall drawable scPdfArr.
Proof.
  unfold getScPdfDataForEvent, getScDataForEvent. intros H.
  bind_inv H. bind_inv Hstep.
  apply scDataForRounds_type in Hstep.
  revert scPdfArr H. induction Hstep as [| scData rest Hsc _ IH]; intros scPdfArr H;
    cbn [JS.mapM] in H.
  - injection H as <-. constructor.
  - bind_inv H. bind_inv H. injection H as <-.
    constructor; [| now apply IH].
    unfold drawable. now rewrite (fromScData_type scData _ Hstep).
Qed.




(** A whole event, from the document to the saved file: six assigned
    competitors and one page of blanks per round fill six pages. *)
Example genScPdfEvent_sample :
  JS.rmap (fun env => (jsPDF.numPages (doc env), List.length (jsPDF.drawn (doc env)),
                       console env, jsPDF.savedAs (doc env)))
    (genScPdfEvent (Samples.assigned 6) (Samples.options 1) "333")
  = JS.Ok (6%nat, 30%nat, [], Some "SampleOpen2026_3x3x3_Cube.pdf").
Proof. vm_compute. reflexivity. Qed.

(* ================================================================= *)
(** * Further properties *)

(** ** The host language: texts and their numbers *)

(** Reading a decimal text back: the digits of [d] after an accumulated
    value [acc]. *)
Lemma digitsValue_string_of_uint (d : Decimal.uint) (acc : N) :
  JS.digitsValue acc (NilEmpty.string_of_uint d)
  = Some (Pos.of_uint d + acc * 10 ^ DecimalPos.Unsigned.usize d)%N.
Proof.
  revert acc.
  assert (Hpos : forall (l : Decimal.uint) (p : positive),
             (N.pos (Pos.of_uint_acc l p)
              = Pos.of_uint l + N.pos p * 10 ^ DecimalPos.Unsigned.usize l)%N).
  { intros l p. rewrite DecimalPos.Unsigned.of_uint_acc_rev.
    now rewrite DecimalPos.Unsigned.of_uint_alt. }
  induction d as [| d IH | d IH | d IH | d IH | d IH | d IH | d IH | d IH | d IH | d IH];
    intros acc;
    [ simpl; f_equal; lia
    | cbn [NilEmpty.string_of_uint JS.digitsValue DecimalPos.Unsigned.usize Pos.of_uint];
      change (N_of_ascii _) with 48%N || change (N_of_ascii _) with 49%N
      || change (N_of_ascii _) with 50%N || change (N_of_ascii _) with 51%N
      || change (N_of_ascii _) with 52%N || change (N_of_ascii _) with 53%N
      || change (N_of_ascii _) with 54%N || change (N_of_ascii _) with 55%N
      || change (N_of_ascii _) with 56%N || change (N_of_ascii _) with 57%N;
      cbn [N.leb N.compare Pos.compare Pos.compare_cont andb];
      rewrite IH, ?Hpos, N.pow_succ_r'; f_equal; lia .. ].
Qed.

(** The decimal text of a number reads back as that number. *)
Lemma digitsValue_showN (n : N) : JS.digitsValue 0 (JS.showN n) = Some n.
Proof.
  unfold JS.showN. rewrite digitsValue_string_of_uint.
  change (Pos.of_uint (N.to_uint n)) with (N.of_uint (N.to_uint n)).
  rewrite DecimalN.Unsigned.of_to. f_equal. lia.
Qed.

Lemma Number_showNat (n : nat) : JS.Number_ (JS.Val (JS.showNat n)) = JS.Int (Z.of_nat n).
Proof.
  unfold JS.Number_, JS.showNat. rewrite digitsValue_showN.
  f_equal. lia.
Qed.

(** Pieces of a text that is put together from two. *)
Lemma substring_whole (s : string) : substring 0 (String.length s) s = s.
Proof. induction s as [| c s IH]; simpl; [reflexivity | now rewrite IH]. Qed.

Lemma substring_append_l (a s : string) : substring 0 (String.length a) (a ++ s) = a.
Proof.
  induction a as [| c a IH]; simpl.
  - now destruct s.
  - now rewrite IH.
Qed.

Lemma substring_append_r (a s : string) (n m : nat) :
  substring (String.length a + n) m (a ++ s) = substring n m s.
Proof. induction a as [| c a IH]; simpl; [reflexivity | exact IH]. Qed.

Lemma append_assoc (a b c : string) : (a ++ b) ++ c = a ++ b ++ c.
Proof. induction a as [| x a IH]; simpl; [reflexivity | now rewrite IH]. Qed.

Lemma length_append (a b : string) :
  String.length (a ++ b) = (String.length a + String.length b)%nat.
Proof. induction a as [| c a IH]; simpl; [reflexivity | now rewrite IH]. Qed.

(** Searching for a hyphen followed by [x]: a stretch without hyphen is
    passed over, and so is a hyphen followed by another character. *)
Lemma index_skip (x : ascii) (a s : string) :
  lacks "-" a = true ->
  index 0 (String "-" (String x "")) (a ++ s)
  = option_map (Nat.add (String.length a)) (index 0 (String "-" (String x "")) s).
Proof.
  induction a as [| c a IH]; intros Ha.
  - simpl. destruct (index 0 _ s); reflexivity.
  - simpl in Ha. apply andb_prop in Ha. destruct Ha as [Hc Ha].
    cbn [String.append index String.prefix].
    destruct (ascii_dec "-" c) as [<- | _]; [discriminate Hc |].
    rewrite (IH Ha). destruct (index 0 _ s); reflexivity.
Qed.

Lemma index_hit (x : ascii) (s : string) :
  index 0 (String "-" (String x "")) (String "-" (String x s)) = Some 0%nat.
Proof.
  cbn [index String.prefix].
  destruct (ascii_dec "-" "-") as [_ | H]; [| now elim H].
  destruct (ascii_dec x x) as [_ | H]; [| now elim H].
  now destruct s.
Qed.

Lemma index_miss (x y : ascii) (s : string) :
  x <> y -> y <> "-"%char ->
  index 0 (String "-" (String x "")) (String "-" (String y s))
  = option_map (Nat.add 2) (index 0 (String "-" (String x "")) s).
Proof.
  intros Hxy Hy. cbn [index String.prefix].
  destruct (ascii_dec "-" "-") as [_ | H]; [| now elim H].
  destruct (ascii_dec x y) as [E | _]; [now elim Hxy |].
  destruct (ascii_dec "-" y) as [E | _]; [now elim Hy |].
  destruct (index 0 _ s); reflexivity.
Qed.

Lemma index_absent (x : ascii) (a : string) :
  lacks "-" a = true -> index 0 (String "-" (String x "")) a = None.
Proof.
  intros Ha. rewrite <- (append_empty_r a), (index_skip x a "" Ha). reflexivity.
Qed.

(** A text without the separator is one piece. *)
Lemma split_absent (x : ascii) (a : string) :
  index 0 (String "-" (String x "")) a = None ->
  JS.split (String "-" (String x "")) a = [a].
Proof.
  intros H. unfold JS.split.
  destruct (String.length a); simpl; [reflexivity | now rewrite H].
Qed.

(** Cutting at the first separator. *)
Lemma split_first (x : ascii) (a b : string) :
  index 0 (String "-" (String x "")) (a ++ String "-" (String x b))
  = Some (String.length a) ->
  JS.split (String "-" (String x "")) (a ++ String "-" (String x b))
  = a :: JS.splitFuel (String.length a + 1 + String.length b)
           (String "-" (String x "")) b.
Proof.
  intros H. unfold JS.split.
  rewrite length_append. cbn [String.length].
  replace (String.length a + S (S (String.length b)))%nat
    with (S (String.length a + 1 + String.length b)) by lia.
  cbn [JS.splitFuel]. rewrite H. cbn [String.length].
  rewrite substring_append_l. f_equal. f_equal.
  rewrite length_append. cbn [String.length].
  replace (String.length a + S (S (String.length b)) - (String.length a + 2))%nat
    with (String.length b) by lia.
  rewrite substring_append_r. cbn [substring].
  apply substring_whole.
Qed.

Lemma splitFuel_absent (fuel : nat) (x : ascii) (a : string) :
  index 0 (String "-" (String x "")) a = None ->
  JS.splitFuel fuel (String "-" (String x "")) a = [a].
Proof. intros H. destruct fuel; simpl; [reflexivity | now rewrite H]. Qed.

(** ** wcif.js: round identifiers and activity codes *)

Lemma split_round_id (x : ascii) (a d : string) :
  lacks "-" a = true -> lacks "-" d = true ->
  JS.split (String "-" (String x "")) (a ++ String "-" (String x d)) = [a; d].
Proof.
  intros Ha Hd. rewrite split_first.
  - now rewrite splitFuel_absent by now apply index_absent.
  - rewrite index_skip, index_hit by exact Ha. simpl. f_equal. lia.
Qed.

(** A round identifier is read back as the event and the round it was
    made from, for an event whose id has no hyphen; that is how a round
    sharing a cumulative time limit is described.  An identifier
    without hyphen names no round: the round is [NaN]. *)
Theorem roundId_round_trip (eventId : string) (round : nat) :
  lacks "-" eventId = true ->
  let roundId := eventId ++ "-r" ++ JS.showNat round in
  WCIF.getEventIdFromRoundId roundId = eventId /\
  WCIF.getRoundFromRoundId roundId = JS.Int (Z.of_nat round) /\
  (forall (w : WCIF.t) (numRounds : nat),
      WCIF.getNumRounds w eventId = JS.Ok numRounds ->
      CumulRoundInfo.new w roundId
      = JS.Ok {| CumulRoundInfo.eventId := eventId;
                 CumulRoundInfo.eventName := WCIF.eventIdToName eventId;
                 CumulRoundInfo.round := JS.Int (Z.of_nat round);
                 CumulRoundInfo.numRounds := numRounds |}) /\
  WCIF.getEventIdFromRoundId eventId = eventId /\
  WCIF.getRoundFromRoundId eventId = JS.NaN.
Proof.
  intros He roundId.
  assert (Hsplit : JS.split "-r" roundId = [eventId; JS.showNat round]).
  { apply split_round_id; [exact He | apply showNat_lacks_hyphen]. }
  assert (Hnone : JS.split "-r" eventId = [eventId]).
  { apply split_absent, index_absent, He. }
  assert (Hid : WCIF.getEventIdFromRoundId roundId = eventId).
  { unfold WCIF.getEventIdFromRoundId. now rewrite Hsplit. }
  assert (Hround : WCIF.getRoundFromRoundId roundId = JS.Int (Z.of_nat round)).
  { unfold WCIF.getRoundFromRoundId. rewrite Hsplit.
    change (JS.at_ [eventId; JS.showNat round] 1) with (JS.Val (JS.showNat round)).
    apply Number_showNat. }
  split; [exact Hid | split; [exact Hround | split; [| split]]].
  - intros w numRounds Hn. unfold CumulRoundInfo.new.
    rewrite Hid, Hn, Hround. reflexivity.
  - unfold WCIF.getEventIdFromRoundId. now rewrite Hnone.
  - unfold WCIF.getRoundFromRoundId. now rewrite Hnone.
Qed.

Lemma roundId_round_trip_witness :
  WCIF.getEventIdFromRoundId "555bf-r2" = "555bf" /\
  WCIF.getRoundFromRoundId "555bf-r2" = JS.Int 2.
Proof.
  destruct (roundId_round_trip "555bf" 2 eq_refl) as (H1 & H2 & _).
  split; [exact H1 | exact H2].
Defined.

(** The first group activity with a given id, when some group activity
    has it. *)
Lemma find_childId (actId : Z) (l : list WCIF.ChildActivity) :
  In actId (map WCIF.childId l) ->
  exists actObj, find (fun x => WCIF.childId x =? actId) l = Some actObj.
Proof.
  intros H. apply in_map_iff in H. destruct H as (x & Hx & Hin).
  destruct (find (fun x => WCIF.childId x =? actId) l) eqn:E.
  - now exists c.
  - apply (find_none _ _ E) in Hin. rewrite Hx, Z.eqb_refl in Hin. discriminate Hin.
Qed.

Lemma getGroupActIds_are_groups (w : WCIF.t) (eventId : string) (round : nat) (actId : Z) :
  In actId (WCIF.getGroupActIds w eventId round) ->
  In actId (map WCIF.childId (WCIF.getGroupActObjs w)).
Proof.
  unfold WCIF.getGroupActIds, WCIF.getGroupActObjs.
  intros H. apply in_map_iff in H. destruct H as (c & Hc & Hin).
  apply in_map_iff. exists c. split; [exact Hc |].
  apply in_flat_map in Hin. destruct Hin as (a & Ha & Hca).
  apply in_flat_map. exists a. split; [| exact Hca].
  now apply filter_In in Ha.
Qed.

(** The group number is read back from the activity code of a group,
    with or without the attempt part of a multi-blind code; the event
    id has no hyphen. *)
Theorem getGroupNum_decodes (w : WCIF.t) (actId : Z) (actObj : WCIF.ChildActivity)
    (eventId : string) (round group : nat) :
  lacks "-" eventId = true ->
  find (fun x => WCIF.childId x =? actId) (WCIF.getGroupActObjs w) = Some actObj ->
  (WCIF.childActivityCode actObj
   = eventId ++ "-r" ++ JS.showNat round ++ "-g" ++ JS.showNat group
   \/ exists attempt : nat,
        WCIF.childActivityCode actObj
        = eventId ++ "-r" ++ JS.showNat round ++ "-g" ++ JS.showNat group
          ++ "-a" ++ JS.showNat attempt) ->
  WCIF.getGroupNum w actId = JS.Ok (JS.Int (Z.of_nat group)).
Proof.
  intros He Hfind Hcode. unfold WCIF.getGroupNum. rewrite Hfind.
  pose proof (showNat_lacks_hyphen round) as Hr.
  pose proof (showNat_lacks_hyphen group) as Hg.
  set (R := JS.showNat round) in *. set (G := JS.showNat group) in *.
  (* the code up to the round, and the code up to the group *)
  set (upToRound := eventId ++ String "-" (String "r" R)).
  set (plain := upToRound ++ String "-" (String "g" G)).
  assert (Hplain_form : eventId ++ "-r" ++ R ++ "-g" ++ G = plain).
  { unfold plain, upToRound. rewrite append_assoc. reflexivity. }
  assert (Hround_g : index 0 "-g" upToRound = None).
  { unfold upToRound. rewrite index_skip by exact He.
    rewrite index_miss by discriminate.
    now rewrite index_absent by exact Hr. }
  assert (Hsplit_g : JS.split "-g" plain = [upToRound; G]).
  { unfold plain. rewrite split_first.
    - now rewrite splitFuel_absent by now apply index_absent.
    - unfold upToRound. rewrite append_assoc. cbn [String.append].
      rewrite index_skip by exact He.
      rewrite index_miss by discriminate.
      rewrite index_skip by exact Hr.
      rewrite index_hit. cbn [option_map].
      rewrite length_append. cbn [String.length]. f_equal. lia. }
  assert (Hplain_a : forall tail : string,
             index 0 "-a" (plain ++ tail)
             = option_map (Nat.add (String.length plain)) (index 0 "-a" tail)).
  { intros tail. unfold plain, upToRound.
    rewrite ?append_assoc. cbn [String.append]. rewrite ?append_assoc.
    cbn [String.append].
    rewrite index_skip by exact He.
    rewrite index_miss by discriminate.
    rewrite index_skip by exact Hr.
    rewrite index_miss by discriminate.
    rewrite index_skip by exact Hg.
    rewrite !length_append. cbn [String.length]. rewrite length_append.
    cbn [String.length].
    destruct (index 0 "-a" tail); cbn [option_map]; [f_equal; lia | reflexivity]. }
  assert (Hdone : JS.Number_ (JS.at_ (JS.split "-g" plain) 1)
                  = JS.Int (Z.of_nat group)).
  { rewrite Hsplit_g.
    change (JS.at_ [upToRound; G] 1) with (JS.Val G).
    apply Number_showNat. }
  destruct Hcode as [-> | [attempt ->]].
  - rewrite Hplain_form.
    rewrite (split_absent "a" plain).
    + now rewrite Hdone.
    + rewrite <- (append_empty_r plain), Hplain_a. reflexivity.
  - replace (eventId ++ "-r" ++ R ++ "-g" ++ G ++ "-a" ++ JS.showNat attempt)
      with (plain ++ String "-" (String "a" (JS.showNat attempt))).
    2:{ rewrite <- Hplain_form. rewrite ?append_assoc. cbn [String.append].
        rewrite ?append_assoc. cbn [String.append]. now rewrite ?append_assoc. }
    rewrite (split_first "a" plain).
    + now rewrite Hdone.
    + rewrite Hplain_a, index_hit. cbn [option_map]. f_equal. lia.
Qed.

Lemma getGroupNum_decodes_witness :
  WCIF.getGroupNum Samples.blindfolded 31 = JS.Ok (JS.Int 1).
Proof.
  apply (getGroupNum_decodes Samples.blindfolded 31
           (Samples.group 31 "333mbf-r1-g1-a1") "333mbf" 1 1);
    [reflexivity | reflexivity | right; exists 1%nat; reflexivity].
Defined.

(** ** wcif.js: groups, rooms and competitors *)

Lemma find_room (actId : Z) (l : list WCIF.Room) :
  In actId (map WCIF.childId
              (flat_map WCIF.childActivities (flat_map WCIF.activities l))) ->
  exists roomObj, find (WCIF.roomHasActId actId) l = Some roomObj /\ In roomObj l.
Proof.
  intros H. apply in_map_iff in H. destruct H as (c & Hc & Hin).
  apply in_flat_map in Hin. destruct Hin as (a & Ha & Hca).
  apply in_flat_map in Ha. destruct Ha as (r & Hr & Har).
  destruct (find (WCIF.roomHasActId actId) l) as [roomObj |] eqn:E.
  - exists roomObj. split; [reflexivity |]. now apply find_some in E.
  - apply (find_none _ _ E) in Hr. unfold WCIF.roomHasActId in Hr.
    assert (Hex : existsb (fun x => WCIF.childId x =? actId)
                    (flat_map WCIF.childActivities (WCIF.activities r)) = true).
    { apply existsb_exists. exists c. split.
      - apply in_flat_map. now exists a.
      - rewrite Hc. apply Z.eqb_refl. }
    rewrite Hex in Hr. discriminate Hr.
Qed.

(** Every group activity of a round resolves to a group number and to
    the name of one of the rooms; an id that no group activity of the
    schedule has resolves to neither, and both queries throw. *)
Theorem group_activity_lookup (w : WCIF.t) (actId : Z) :
  (forall (eventId : string) (round : nat),
      In actId (WCIF.getGroupActIds w eventId round) ->
      exists (groupNum : JS.number) (room : string),
        WCIF.getGroupNum w actId = JS.Ok groupNum /\
        WCIF.getGroupRoom w actId = JS.Ok room /\
        In room (WCIF.getRoomNames w)) /\
  (~ In actId (map WCIF.childId (WCIF.getGroupActObjs w)) ->
   WCIF.getGroupNum w actId = JS.Throw JS.TypeError /\
   WCIF.getGroupRoom w actId = JS.Throw JS.TypeError).
Proof.
  split.
  - intros eventId round H. apply getGroupActIds_are_groups in H.
    destruct (find_childId actId _ H) as (actObj & Hfind).
    destruct (find_room actId (WCIF.getRoomObjs w) H) as (roomObj & Hroom & Hin).
    eexists. exists (WCIF.roomName roomObj).
    unfold WCIF.getGroupNum, WCIF.getGroupRoom. rewrite Hfind, Hroom.
    split; [reflexivity | split; [reflexivity |]].
    unfold WCIF.getRoomNames. now apply in_map.
  - intros H. unfold WCIF.getGroupNum, WCIF.getGroupRoom.
    destruct (find (fun x => WCIF.childId x =? actId) (WCIF.getGroupActObjs w))
      as [actObj |] eqn:E.
    { exfalso. apply H. apply find_some in E. destruct E as [Hin Heq].
      apply Z.eqb_eq in Heq. apply in_map_iff. now exists actObj. }
    split; [reflexivity |].
    destruct (find (WCIF.roomHasActId actId) (WCIF.getRoomObjs w))
      as [roomObj |] eqn:E'; [| reflexivity].
    exfalso. apply H. apply find_some in E'. destruct E' as [Hin Hhas].
    unfold WCIF.roomHasActId in Hhas. apply existsb_exists in Hhas.
    destruct Hhas as (c & Hc & Heq). apply Z.eqb_eq in Heq.
    apply in_map_iff. exists c. split; [exact Heq |].
    unfold WCIF.getGroupActObjs, WCIF.getTopLevelActObjs.
    apply in_flat_map in Hc. destruct Hc as (a & Ha & Hca).
    apply in_flat_map. exists a. split; [| exact Hca].
    apply in_flat_map. now exists roomObj.
Qed.

Lemma group_activity_lookup_witness :
  exists (groupNum : JS.number) (room : string),
    WCIF.getGroupNum (Samples.assigned 2) 11 = JS.Ok groupNum /\
    WCIF.getGroupRoom (Samples.assigned 2) 11 = JS.Ok room /\
    In room (WCIF.getRoomNames (Samples.assigned 2)).
Proof.
  apply (proj1 (group_activity_lookup (Samples.assigned 2) 11) "333" 1%nat).
  simpl. left. reflexivity.
Defined.

(** Groups are assigned for a round exactly when some person of the
    document has a competitor assignment to one of the round's group
    activities. *)
Theorem groupsAreAssigned_iff (w : WCIF.t) (eventId : string) (round : nat) :
  WCIF.groupsAreAssigned w eventId round = true
  <-> exists (p : WCIF.Person) (a : WCIF.Assignment),
        In p (WCIF.persons w) /\ In a (WCIF.assignments p) /\
        WCIF.assignmentCode a = "competitor" /\
        In (WCIF.activityId a) (WCIF.getGroupActIds w eventId round).
Proof.
  unfold WCIF.groupsAreAssigned, WCIF.assignedCompetitors. split.
  - intros H. apply Z.ltb_lt in H.
    destruct (flat_map (WCIF.getCompetitorsFromActId w)
                (WCIF.getGroupActIds w eventId round)) as [| id rest] eqn:E;
      [simpl in H; lia |].
    assert (Hin : In id (flat_map (WCIF.getCompetitorsFromActId w)
                           (WCIF.getGroupActIds w eventId round)))
      by (rewrite E; now left).
    apply in_flat_map in Hin. destruct Hin as (actId & Hact & Hid).
    unfold WCIF.getCompetitorsFromActId in Hid.
    apply in_map_iff in Hid. destruct Hid as (p & _ & Hp).
    apply filter_In in Hp. destruct Hp as [Hp Hcomp].
    unfold WCIF.competingInAct in Hcomp. apply existsb_exists in Hcomp.
    destruct Hcomp as (a & Ha & Hboth). apply andb_prop in Hboth.
    destruct Hboth as [Hid Hcode]. apply Z.eqb_eq in Hid.
    apply String.eqb_eq in Hcode.
    exists p, a. rewrite Hid. now repeat split.
  - intros (p & a & Hp & Ha & Hcode & Hact).
    apply Z.ltb_lt.
    assert (Hin : In (WCIF.registrantId p)
                    (flat_map (WCIF.getCompetitorsFromActId w)
                       (WCIF.getGroupActIds w eventId round))).
    { apply in_flat_map. exists (WCIF.activityId a). split; [exact Hact |].
      unfold WCIF.getCompetitorsFromActId. apply in_map.
      apply filter_In. split; [exact Hp |].
      unfold WCIF.competingInAct. apply existsb_exists. exists a.
      split; [exact Ha |]. now rewrite Z.eqb_refl, Hcode. }
    destruct (flat_map _ _); [destruct Hin | simpl; lia].
Qed.

(** The competitors of a group are the persons with a competitor
    assignment to it, each listed once however many such assignments
    the person has, in the order of the document. *)
Theorem getCompetitorsFromActId_spec (w : WCIF.t) (actId : Z) :
  (forall id : Z,
      In id (WCIF.getCompetitorsFromActId w actId)
      <-> exists (p : WCIF.Person) (a : WCIF.Assignment),
            In p (WCIF.persons w) /\ WCIF.registrantId p = id /\
            In a (WCIF.assignments p) /\ WCIF.activityId a = actId /\
            WCIF.assignmentCode a = "competitor") /\
  (List.NoDup (map WCIF.registrantId (WCIF.persons w)) ->
   List.NoDup (WCIF.getCompetitorsFromActId w actId)) /\
  (List.length (WCIF.getCompetitorsFromActId w actId)
   <= List.length (WCIF.persons w))%nat.
Proof.
  unfold WCIF.getCompetitorsFromActId. split; [| split].
  - intros id. split.
    + intros H. apply in_map_iff in H. destruct H as (p & Hid & Hp).
      apply filter_In in Hp. destruct Hp as [Hp Hcomp].
      unfold WCIF.competingInAct in Hcomp. apply existsb_exists in Hcomp.
      destruct Hcomp as (a & Ha & Hboth). apply andb_prop in Hboth.
      destruct Hboth as [Hact Hcode]. apply Z.eqb_eq in Hact.
      apply String.eqb_eq in Hcode. exists p, a. now repeat split.
    + intros (p & a & Hp & Hid & Ha & Hact & Hcode).
      apply in_map_iff. exists p. split; [exact Hid |].
      apply filter_In. split; [exact Hp |].
      unfold WCIF.competingInAct. apply existsb_exists. exists a.
      split; [exact Ha |]. now rewrite Hact, Z.eqb_refl, Hcode.
  - generalize (WCIF.persons w). intros l.
    induction l as [| p l IH]; simpl; intros Hnd; [apply List.NoDup_nil |].
    inversion Hnd as [| ? ? Hnotin Hnd']. subst.
    destruct (WCIF.competingInAct actId p); simpl; [| now apply IH].
    apply List.NoDup_cons; [| now apply IH].
    intros Hin. apply Hnotin. apply in_map_iff in Hin.
    destruct Hin as (q & Hq & Hqin). apply filter_In in Hqin.
    apply in_map_iff. exists q. now split.
  - rewrite length_map. apply filter_length_le.
Qed.

Lemma getCompetitorsFromActId_spec_witness :
  List.NoDup (map WCIF.registrantId (WCIF.persons Samples.enteredTwice)) /\
  List.NoDup (WCIF.getCompetitorsFromActId Samples.enteredTwice 11).
Proof.
  assert (H : List.NoDup (map WCIF.registrantId (WCIF.persons Samples.enteredTwice))).
  { simpl. apply List.NoDup_cons; [intros [] | apply List.NoDup_nil]. }
  split; [exact H |].
  apply (proj1 (proj2 (getCompetitorsFromActId_spec Samples.enteredTwice 11)) H).
Defined.

(** ** wcif.js: a round the document does not have *)

Lemma getRoundObj_missing (w : WCIF.t) (eventId : string) (round : nat) :
  (forall eventObj : WCIF.Event,
      WCIF.getEventObj w eventId = Some eventObj ->
      ~ In (eventId ++ "-r" ++ JS.showNat round)
          (map WCIF.roundId (WCIF.rounds eventObj))) ->
  forall (A : Type) (field : WCIF.Round -> A),
    WCIF.roundField w eventId round field = JS.Throw JS.TypeError.
Proof.
  intros H A field. unfold WCIF.roundField, WCIF.getRoundObj.
  destruct (WCIF.getEventObj w eventId) as [eventObj |]; [| reflexivity].
  simpl.
  destruct (find _ (WCIF.rounds eventObj)) as [r |] eqn:E; [| reflexivity].
  exfalso. apply (H eventObj eq_refl).
  apply find_some in E. destruct E as [Hin Heq].
  apply String.eqb_eq in Heq. apply in_map_iff. now exists r.
Qed.

(** When the document has no event of the given id, or its event has
    no round of the given number, every query about the round throws a
    TypeError, and no scorecard record is built for it; the two cutoff
    queries still answer [null] for the multi-blind event, which they
    never look up. *)
Theorem round_accessors_without_round (w : WCIF.t) (eventId : string) (round : nat) :
  (forall eventObj : WCIF.Event,
      WCIF.getEventObj w eventId = Some eventObj ->
      ~ In (eventId ++ "-r" ++ JS.showNat round)
          (map WCIF.roundId (WCIF.rounds eventObj))) ->
  WCIF.getFormat w eventId round = JS.Throw JS.TypeError /\
  WCIF.getTimeLimit w eventId round = JS.Throw JS.TypeError /\
  WCIF.getCumulRoundIds w eventId round = JS.Throw JS.TypeError /\
  (eventId <> "333mbf" ->
   WCIF.getCutoffCentisec w eventId round = JS.Throw JS.TypeError /\
   WCIF.getCutoffAttempts w eventId round = JS.Throw JS.TypeError) /\
  (eventId = "333mbf" ->
   WCIF.getCutoffCentisec w eventId round = JS.Ok JS.Null /\
   WCIF.getCutoffAttempts w eventId round = JS.Ok JS.Null) /\
  SCData.roundBlankScData w eventId round = JS.Throw JS.TypeError /\
  (WCIF.getEventObj w eventId = None ->
   WCIF.getNumRounds w eventId = JS.Throw JS.TypeError).
Proof.
  intros H. pose proof (getRoundObj_missing w eventId round H) as Hf.
  unfold WCIF.getFormat, WCIF.getTimeLimit, WCIF.getCumulRoundIds,
    WCIF.getCutoffCentisec, WCIF.getCutoffAttempts.
  rewrite !Hf. repeat split; try reflexivity.
  - apply String.eqb_neq in H0. now rewrite H0.
  - apply String.eqb_neq in H0. now rewrite H0.
  - now subst eventId.
  - now subst eventId.
  - unfold SCData.roundBlankScData, WCIF.getNumRounds, WCIF.getFormat.
    rewrite Hf. now destruct (WCIF.getEventObj w eventId).
  - intros E. unfold WCIF.getNumRounds. now rewrite E.
Qed.

(** The sample event has four rounds; a fifth is asked for. *)
Lemma round_accessors_without_round_witness :
  WCIF.getFormat (Samples.assigned 2) "333" 5 = JS.Throw JS.TypeError /\
  SCData.roundBlankScData (Samples.assigned 2) "333" 5 = JS.Throw JS.TypeError.
Proof.
  assert (H : forall eventObj : WCIF.Event,
             WCIF.getEventObj (Samples.assigned 2) "333" = Some eventObj ->
             ~ In ("333" ++ "-r" ++ JS.showNat 5)
                 (map WCIF.roundId (WCIF.rounds eventObj))).
  { intros eventObj E. injection E as <-. simpl.
    intros [H | [H | [H | [H | []]]]]; discriminate H. }
  destruct (round_accessors_without_round (Samples.assigned 2) "333" 5 H)
    as (H1 & _ & _ & _ & _ & H2 & _).
  split; [exact H1 | exact H2].
Defined.

(** ** sc_data.js: the scorecards of a round *)

Lemma mapM_length {A B : Type} (f : A -> JS.result B) (l : list A) (l' : list B) :
  JS.mapM f l = JS.Ok l' -> List.length l' = List.length l.
Proof.
  revert l'. induction l as [| x l IH]; simpl; intros l' H.
  - now injection H as <-.
  - bind_inv H. bind_inv H. injection H as <-. simpl. f_equal. now apply IH.
Qed.

Lemma mapM_map {A B C : Type} (f : A -> JS.result B) (g : B -> C) (h : A -> C)
    (l : list A) (l' : list B) :
  (forall x y, f x = JS.Ok y -> g y = h x) ->
  JS.mapM f l = JS.Ok l' -> map g l' = map h l.
Proof.
  intros Hf. revert l'. induction l as [| x l IH]; simpl; intros l' H.
  - now injection H as <-.
  - bind_inv H. bind_inv H. injection H as <-. simpl.
    f_equal; [now apply Hf | now apply IH].
Qed.

(** What a competitor record takes from its arguments. *)
Lemma competitorScData_members (w : WCIF.t) (eventId : string) (round : nat)
    (actId registrantId : Z) (scData : SCData.t) :
  SCData.competitorScData w eventId round actId registrantId = JS.Ok scData ->
  SCData.type scData = competitor /\
  SCData.registrantId scData = JS.Val (JS.Int registrantId) /\
  SCData.eventId scData = eventId /\
  SCData.round scData = round.
Proof.
  intros H. unfold SCData.competitorScData in H.
  repeat bind_inv H. injection H as <-. now repeat split.
Qed.

(** The members that describe the round are those of the blank record
    of the round. *)
Lemma competitorScData_roundMembers (w : WCIF.t) (eventId : string) (round : nat)
    (actId registrantId : Z) (scData : SCData.t) :
  SCData.competitorScData w eventId round actId registrantId = JS.Ok scData ->
  exists blank : SCData.t,
    SCData.roundBlankScData w eventId round = JS.Ok blank /\
    roundMembers scData = roundMembers blank.
Proof.
  intros H. unfold SCData.competitorScData in H.
  repeat bind_inv H. injection H as <-.
  unfold SCData.roundBlankScData.
  repeat match goal with
         | E : ?m = JS.Ok _ |- context [JS.bind ?m _] => rewrite E; simpl
         end.
  eexists. split; reflexivity.
Qed.

Lemma roundBlankScData_members (w : WCIF.t) (eventId : string) (round : nat)
    (scData : SCData.t) :
  SCData.roundBlankScData w eventId round = JS.Ok scData ->
  SCData.type scData = roundBlank /\
  SCData.registrantId scData = JS.Null /\
  SCData.eventId scData = eventId /\
  SCData.round scData = round.
Proof.
  intros H. unfold SCData.roundBlankScData in H.
  repeat bind_inv H. injection H as <-. now repeat split.
Qed.

Lemma getScDataForRoundBlanks_repeat (w : WCIF.t) (optionsObj : OptionsObj)
    (eventId : string) (round : nat) (blanks : list SCData.t) :
  getScDataForRoundBlanks w optionsObj eventId round = JS.Ok blanks ->
  exists blank : SCData.t,
    SCData.roundBlankScData w eventId round = JS.Ok blank /\
    blanks = repeat blank (List.length blanks).
Proof.
  intros H. unfold getScDataForRoundBlanks in H.
  bind_inv H.
  destruct (optionsObj !! RoundBlanksOption.genId eventId round) as [o |];
    [| discriminate H].
  bind_inv H. bind_inv H. injection H as <-.
  exists a1. split; [assumption |]. now rewrite repeat_length.
Qed.

(** The scorecards of a round: first one for every competitor of its
    groups, group after group in the order of the schedule and, within
    a group, in the order of the persons of the document; then the
    blank ones, which are all the same record. *)
Theorem getScDataForRound_order (w : WCIF.t) (optionsObj : OptionsObj)
    (eventId : string) (round : nat) (scDataArr : list SCData.t) :
  getScDataForRound w optionsObj eventId round = JS.Ok scDataArr ->
  exists (competitors blanks : list SCData.t) (blank : SCData.t),
    scDataArr = (competitors ++ blanks)%list /\
    map SCData.registrantId competitors
    = map (fun id => JS.Val (JS.Int id)) (WCIF.assignedCompetitors w eventId round) /\
    Forall (fun scData => SCData.type scData = competitor) competitors /\
    getScDataForRoundBlanks w optionsObj eventId round = JS.Ok blanks /\
    SCData.roundBlankScData w eventId round = JS.Ok blank /\
    blanks = repeat blank (List.length blanks) /\
    SCData.type blank = roundBlank /\
    Forall (fun scData => SCData.eventId scData = eventId
                          /\ SCData.round scData = round) scDataArr.
Proof.
  intros H. unfold getScDataForRound in H.
  bind_inv H. bind_inv H. injection H as <-.
  rename a into groups, a0 into blanks.
  destruct (getScDataForRoundBlanks_repeat _ _ _ _ _ Hstep0) as (blank & Hblank & Hrep).
  destruct (roundBlankScData_members _ _ _ _ Hblank) as (Hty & _ & He & Hr).
  exists (concat groups), blanks, blank.
  assert (Hgroups : forall (ids : list Z) (gs : list (list SCData.t)),
             JS.mapM (getScDataForGroup w eventId round) ids = JS.Ok gs ->
             map SCData.registrantId (concat gs)
             = map (fun id => JS.Val (JS.Int id))
                 (flat_map (WCIF.getCompetitorsFromActId w) ids) /\
             Forall (fun scData => SCData.type scData = competitor
                                   /\ SCData.eventId scData = eventId
                                   /\ SCData.round scData = round) (concat gs)).
  { induction ids as [| actId ids IH]; simpl; intros gs Hgs.
    - injection Hgs as <-. split; [reflexivity | constructor].
    - bind_inv Hgs. bind_inv Hgs. injection Hgs as <-. simpl.
      destruct (IH _ Hstep2) as [IHids IHty].
      unfold getScDataForGroup in Hstep1.
      rewrite !map_app. split.
      + f_equal; [| exact IHids].
        apply (mapM_map _ _ _ _ _ (fun x y Hxy =>
                 proj1 (proj2 (competitorScData_members _ _ _ _ _ _ Hxy))) Hstep1).
      + apply List.Forall_app. split; [| exact IHty].
        apply (mapM_Forall _ _ _ _ (fun x y Hxy =>
                 let m := competitorScData_members _ _ _ _ _ _ Hxy in
                 conj (proj1 m) (proj2 (proj2 m))) Hstep1). }
  destruct (Hgroups _ _ Hstep) as [Hids Hty'].
  repeat split; try assumption.
  - eapply List.Forall_impl; [| exact Hty']. now intros sc (? & _).
  - apply List.Forall_app. split.
    + eapply List.Forall_impl; [| exact Hty']. now intros sc (_ & ? & ?).
    + rewrite Hrep. apply List.Forall_forall. intros sc Hin.
      apply repeat_spec in Hin. now subst sc.
Qed.

Lemma getScDataForRound_order_witness :
  exists (scDataArr competitors blanks : list SCData.t),
    getScDataForRound (Samples.assigned 2) (Samples.options 0) "333" 1 = JS.Ok scDataArr /\
    scDataArr = (competitors ++ blanks)%list /\
    map SCData.registrantId competitors = [JS.Val (JS.Int 1); JS.Val (JS.Int 2)] /\
    List.length blanks = 2%nat.
Proof.
  destruct (getScDataForRound (Samples.assigned 2) (Samples.options 0) "333" 1)
    as [scDataArr | e] eqn:E; [| vm_compute in E; discriminate E].
  destruct (getScDataForRound_order _ _ _ _ _ E)
    as (cs & bs & b & Happ & Hids & _ & Hbs & _).
  exists scDataArr, cs, bs.
  split; [reflexivity | split; [exact Happ | split; [exact Hids |]]].
  vm_compute in Hbs. injection Hbs as <-. reflexivity.
Defined.

(** ** sc_data.js and sc_pdf.js: whole pages *)

Lemma onlyDigits_decimalDigits (s : string) (mantissa : Z) :
  onlyDigits s = true ->
  exists value : Z, decimalDigits s mantissa None = Some (value, 0%nat).
Proof.
  revert mantissa. induction s as [| c s IH]; simpl; intros mantissa H.
  - now exists mantissa.
  - apply andb_prop in H. destruct H as [Hc Hs]. rewrite Hc.
    destruct (Ascii.eqb_spec c ".") as [-> | _]; [discriminate Hc |].
    apply IH, Hs.
Qed.

(** A whole number of pages makes a number of scorecards that is a
    multiple of four. *)
Lemma valueTimes_whole (v : OptionValue) :
  wholePages v -> exists pages : Z, valueTimes v 4 = JS.Int (4 * pages).
Proof.
  destruct v as [n | s]; simpl; intros H.
  - exists n. f_equal. lia.
  - destruct (String.eqb_spec s ".") as [-> | _]; [discriminate H |].
    destruct (onlyDigits_decimalDigits s 0 H) as (value & ->).
    exists value. change (10 ^ Z.of_nat 0) with 1.
    rewrite Z.mod_1_r, Z.div_1_r. simpl. f_equal. lia.
Qed.

Lemma competitor_records_length (w : WCIF.t) (eventId : string) (round : nat)
    (ids : list Z) (groups : list (list SCData.t)) :
  JS.mapM (getScDataForGroup w eventId round) ids = JS.Ok groups ->
  List.length (concat groups)
  = List.length (flat_map (WCIF.getCompetitorsFromActId w) ids).
Proof.
  revert groups. induction ids as [| actId ids IH]; simpl; intros groups H.
  - now injection H as <-.
  - bind_inv H. bind_inv H. injection H as <-. simpl.
    rewrite !length_app. f_equal; [| now apply IH].
    unfold getScDataForGroup in Hstep. now apply mapM_length in Hstep.
Qed.

Lemma groupsAreAssigned_false (w : WCIF.t) (eventId : string) (round : nat) :
  WCIF.groupsAreAssigned w eventId round = false ->
  WCIF.assignedCompetitors w eventId round = [].
Proof.
  unfold WCIF.groupsAreAssigned. intros H. apply Z.ltb_ge in H.
  destruct (WCIF.assignedCompetitors w eventId round); [reflexivity | simpl in H; lia].
Qed.

(** The number of blank records of a round whose option holds a whole
    number of pages. *)
Lemma getScDataForRoundBlanks_length (w : WCIF.t) (optionsObj : OptionsObj)
    (eventId : string) (round : nat) (o : Option_) (blanks : list SCData.t) :
  optionsObj !! RoundBlanksOption.genId eventId round = Some o ->
  wholePages (value o) ->
  getScDataForRoundBlanks w optionsObj eventId round = JS.Ok blanks ->
  exists pages : Z,
    Z.of_nat (List.length blanks)
    = (if WCIF.groupsAreAssigned w eventId round
       then 4 - Z.of_nat (List.length (WCIF.assignedCompetitors w eventId round)) mod 4
       else 0) + 4 * pages.
Proof.
  intros Ho Hw H. unfold getScDataForRoundBlanks in H. rewrite Ho in H.
  destruct (valueTimes_whole _ Hw) as (pages & Hv). rewrite Hv in H.
  exists pages.
  destruct (WCIF.groupsAreAssigned w eventId round) eqn:Ha.
  - destruct round as [| round'].
    + simpl in H. discriminate H.
    + rewrite (getNumAdvancingToRound_assigned w eventId (S round')) in H by (lia || exact Ha).
      simpl JS.bind in H.
      set (n := Z.of_nat (List.length (WCIF.assignedCompetitors w eventId (S round')))) in *.
      assert (Hn : 0 <= n) by (unfold n; lia).
      cbn [JS.toNumber JS.rem JS.sub JS.add] in H.
      change (4 =? 0) with false in H. cbv iota in H.
      rewrite Z.rem_mod_nonneg in H by lia.
      unfold arrayOfLength in H.
      destruct ((0 <=? 4 - n mod 4 + 4 * pages) && (4 - n mod 4 + 4 * pages <? 2 ^ 32)) eqn:Hb;
        [| discriminate H].
      simpl JS.bind in H. bind_inv H. injection H as <-.
      rewrite repeat_length.
      apply andb_prop in Hb. destruct Hb as [Hb _]. apply Z.leb_le in Hb. lia.
  - simpl JS.bind in H. cbn [JS.add] in H. unfold arrayOfLength in H.
    destruct ((0 <=? 0 + 4 * pages) && (0 + 4 * pages <? 2 ^ 32)) eqn:Hb;
      [| discriminate H].
    simpl JS.bind in H. bind_inv H. injection H as <-.
    rewrite repeat_length.
    apply andb_prop in Hb. destruct Hb as [Hb _]. apply Z.leb_le in Hb. lia.
Qed.

Lemma getScDataForRound_length (w : WCIF.t) (optionsObj : OptionsObj)
    (eventId : string) (round : nat) (o : Option_) (scDataArr : list SCData.t) :
  optionsObj !! RoundBlanksOption.genId eventId round = Some o ->
  wholePages (value o) ->
  getScDataForRound w optionsObj eventId round = JS.Ok scDataArr ->
  (List.length scDataArr mod 4 = 0)%nat.
Proof.
  intros Ho Hw H. unfold getScDataForRound in H.
  bind_inv H. bind_inv H. injection H as <-.
  apply competitor_records_length in Hstep.
  destruct (getScDataForRoundBlanks_length _ _ _ _ _ _ Ho Hw Hstep0) as (pages & Hlen).
  rewrite length_app, Hstep.
  fold (WCIF.assignedCompetitors w eventId round).
  destruct (WCIF.groupsAreAssigned w eventId round) eqn:Ha.
  - set (n := List.length (WCIF.assignedCompetitors w eventId round)) in *.
    apply Nat2Z.inj. rewrite Nat2Z.inj_mod, Nat2Z.inj_add, Hlen.
    change (Z.of_nat 4) with 4. change (Z.of_nat 0) with 0.
    replace (Z.of_nat n + (4 - Z.of_nat n mod 4 + 4 * pages))
      with (Z.of_nat n - Z.of_nat n mod 4 + (1 + pages) * 4) by lia.
    rewrite Z.mod_add by lia.
    rewrite Zminus_mod_idemp_r, Z.sub_diag. reflexivity.
  - rewrite (groupsAreAssigned_false _ _ _ Ha).
    cbn [List.length Nat.add].
    apply Nat2Z.inj. rewrite Nat2Z.inj_mod, Hlen.
    change (Z.of_nat 4) with 4. change (Z.of_nat 0) with 0.
    replace (0 + 4 * pages) with (0 + pages * 4) by lia.
    now rewrite Z.mod_add by lia.
Qed.

(** When the option of a round holds a whole number of pages, the
    scorecards of the round fill whole pages: with groups assigned the
    filler blanks complete the last page of competitors, and without
    groups there are only the pages of blanks. *)
Theorem getScDataForRound_fills_pages (w : WCIF.t) (optionsObj : OptionsObj)
    (eventId : string) (round : nat) (o : Option_) (scDataArr : list SCData.t) :
  optionsObj !! RoundBlanksOption.genId eventId round = Some o ->
  wholePages (value o) ->
  getScDataForRound w optionsObj eventId round = JS.Ok scDataArr ->
  (List.length scDataArr mod 4 = 0)%nat.
Proof. exact (getScDataForRound_length w optionsObj eventId round o scDataArr). Qed.

Lemma getScDataForRound_fills_pages_witness :
  exists scDataArr : list SCData.t,
    getScDataForRound (Samples.assigned 5) (Samples.options 2) "333" 1 = JS.Ok scDataArr /\
    List.length scDataArr = 16%nat /\
    (List.length scDataArr mod 4 = 0)%nat.
Proof.
  destruct (getScDataForRound (Samples.assigned 5) (Samples.options 2) "333" 1)
    as [scDataArr | e] eqn:E; [| vm_compute in E; discriminate E].
  exists scDataArr. split; [reflexivity |]. split.
  - vm_compute in E. injection E as <-. reflexivity.
  - apply (getScDataForRound_fills_pages (Samples.assigned 5) (Samples.options 2) "333" 1
             (RoundBlanksOption.new "333" 1 (NumberValue 2)) scDataArr);
      [vm_compute; reflexivity | exact I | exact E].
Defined.

(** Every record of a round carries the round members of the blank
    record of the round. *)
Lemma getScDataForRound_roundMembers (w : WCIF.t) (optionsObj : OptionsObj)
    (eventId : string) (round : nat) (scDataArr : list SCData.t) :
  getScDataForRound w optionsObj eventId round = JS.Ok scDataArr ->
  exists blank : SCData.t,
    SCData.roundBlankScData w eventId round = JS.Ok blank /\
    Forall (fun scData => roundMembers scData = roundMembers blank
                          /\ fromDeriver scData) scDataArr.
Proof.
  intros H. pose proof (getScDataForRound_type _ _ _ _ _ H) as Hty.
  unfold getScDataForRound in H.
  bind_inv H. bind_inv H. injection H as <-.
  destruct (getScDataForRoundBlanks_repeat _ _ _ _ _ Hstep0) as (blank & Hblank & Hrep).
  exists blank. split; [exact Hblank |].
  apply List.Forall_forall. intros sc Hin.
  split; [| exact (proj1 (List.Forall_forall _ _) Hty sc Hin)].
  apply in_app_or in Hin. destruct Hin as [Hin | Hin].
  - clear Hty Hstep0 Hrep.
    revert a Hstep Hin.
    induction (WCIF.getGroupActIds w eventId round) as [| actId ids IH];
      simpl; intros groups Hg Hin.
    + injection Hg as <-. destruct Hin.
    + bind_inv Hg. bind_inv Hg. injection Hg as <-. simpl in Hin.
      apply in_app_or in Hin. destruct Hin as [Hin | Hin]; [| eapply IH; eassumption].
      unfold getScDataForGroup in Hstep.
      assert (Hf : forall (x : Z) (y : SCData.t),
                 SCData.competitorScData w eventId round actId x = JS.Ok y ->
                 roundMembers y = roundMembers blank).
      { intros x y Hxy.
        destruct (competitorScData_roundMembers _ _ _ _ _ _ Hxy) as (b & Hb & Hm).
        rewrite Hblank in Hb. injection Hb as <-. exact Hm. }
      pose proof (mapM_Forall _ _ _ _ Hf Hstep) as Hall.
      exact (proj1 (List.Forall_forall _ _) Hall sc Hin).
  - rewrite Hrep in Hin. apply repeat_spec in Hin. now subst sc.
Qed.

(** The event-and-round text of a formatted scorecard comes from the
    round members alone. *)
Lemma fromScData_eventAndRoundText (scData blank : SCData.t) (scPdfData : SCPDFData.t) :
  roundMembers scData = roundMembers blank ->
  fromDeriver scData ->
  SCPDFData.fromScData scData = JS.Ok scPdfData ->
  SCPDFData.eventAndRoundText scPdfData
  = JS.Val (SCPDFData.setEventAndRoundText blank).
Proof.
  intros Hm Hty H. unfold roundMembers in Hm.
  injection Hm as _ _ Hname Hround Hnum _ _ _ _ _.
  assert (Htext : SCPDFData.setEventAndRoundText scData
                  = SCPDFData.setEventAndRoundText blank).
  { unfold SCPDFData.setEventAndRoundText. now rewrite Hname, Hround, Hnum. }
  unfold SCPDFData.fromScData in H. unfold fromDeriver in Hty.
  destruct (SCData.type scData); [| | now elim Hty].
  - bind_inv H. bind_inv H. injection H as <-. simpl. now rewrite Htext.
  - bind_inv H. injection H as <-. simpl. now rewrite Htext.
Qed.

Lemma mapM_app_inv {A B : Type} (f : A -> JS.result B) (l1 l2 : list A) (l' : list B) :
  JS.mapM f (l1 ++ l2)%list = JS.Ok l' ->
  exists l1' l2' : list B,
    l' = (l1' ++ l2')%list /\ JS.mapM f l1 = JS.Ok l1' /\ JS.mapM f l2 = JS.Ok l2'.
Proof.
  revert l'. induction l1 as [| x l1 IH]; simpl; intros l' H.
  - now exists [], l'.
  - bind_inv H. bind_inv H. injection H as <-.
    destruct (IH _ Hstep0) as (l1' & l2' & -> & H1 & H2).
    exists (a :: l1'), l2'. rewrite Hstep, H1. now repeat split.
Qed.

Section WholePages.

Context {A : Type}.

(** Chunks of a sequence that starts with whole pages. *)
Lemma chunks4_app (l1 l2 : list A) :
  (List.length l1 mod 4 = 0)%nat ->
  chunks4 (l1 ++ l2)%list = (chunks4 l1 ++ chunks4 l2)%list.
Proof.
  revert l1. apply (list_ind4 (fun l1 => _ -> chunks4 (l1 ++ l2)%list = _));
    try (intros; discriminate).
  - reflexivity.
  - intros a b c d rest IH H. cbn [List.length] in H. rewrite mod4_step in H.
    cbn [app chunks4]. now rewrite (IH H).
Qed.

Lemma chunks4_full (Q : A -> Prop) (l : list A) :
  (List.length l mod 4 = 0)%nat ->
  Forall Q l ->
  Forall (fun chunk => List.length chunk = 4%nat /\ Forall Q chunk) (chunks4 l).
Proof.
  revert l. apply (list_ind4 (fun l => _ -> _ -> Forall _ (chunks4 l)));
    try (intros; discriminate).
  - constructor.
  - intros a b c d rest IH H HQ. cbn [List.length] in H. rewrite mod4_step in H.
    inversion HQ as [| ? ? Qa HQ1]; subst.
    inversion HQ1 as [| ? ? Qb HQ2]; subst.
    inversion HQ2 as [| ? ? Qc HQ3]; subst.
    inversion HQ3 as [| ? ? Qd HQ4]; subst.
    cbn [chunks4]. constructor; [| now apply IH].
    split; [reflexivity | now repeat constructor].
Qed.

End WholePages.

(** A page of four scorecards of one round. *)
Lemma rounds_on_pages (w : WCIF.t) (optionsObj : OptionsObj) (eventId : string)
    (from count : nat) (scDataArr : list SCData.t) (scPdfArr : list SCPDFData.t) :
  (forall (round : nat) (o : Option_),
      optionsObj !! RoundBlanksOption.genId eventId round = Some o ->
      wholePages (value o)) ->
  scDataForRounds w optionsObj eventId from count = JS.Ok scDataArr ->
  JS.mapM SCPDFData.fromScData scDataArr = JS.Ok scPdfArr ->
  (List.length scPdfArr mod 4 = 0)%nat /\
  Forall (fun chunk =>
            List.length chunk = 4%nat /\
            exists text : string,
              Forall (fun scPdfData =>
                        SCPDFData.eventAndRoundText scPdfData = JS.Val text) chunk)
    (chunks4 scPdfArr).
Proof.
  intros Hopts. revert from scDataArr scPdfArr.
  induction count as [| count IH]; intros from scDataArr scPdfArr H Hm;
    cbn [scDataForRounds] in H.
  - injection H as <-. injection Hm as <-. split; [reflexivity | constructor].
  - bind_inv H. bind_inv H. injection H as <-.
    rename a into here, a0 into rest.
    destruct (mapM_app_inv _ _ _ _ Hm) as (here' & rest' & -> & Hhere & Hrest).
    destruct (IH _ _ _ Hstep0 Hrest) as [Hlen Hchunks].
    assert (Hlen' : (List.length here' mod 4 = 0)%nat).
    { rewrite (mapM_length _ _ _ Hhere).
      assert (Ho : exists o, optionsObj !! RoundBlanksOption.genId eventId from = Some o).
      { pose proof Hstep as Hr. unfold getScDataForRound in Hr.
        bind_inv Hr. bind_inv Hr. unfold getScDataForRoundBlanks in Hstep2.
        bind_inv Hstep2.
        destruct (optionsObj !! RoundBlanksOption.genId eventId from) as [o |];
          [now exists o | discriminate Hstep2]. }
      destruct Ho as (o & Ho).
      exact (getScDataForRound_length _ _ _ _ _ _ Ho (Hopts _ _ Ho) Hstep). }
    split.
    + rewrite length_app. rewrite Nat.Div0.add_mod, Hlen, Hlen'. reflexivity.
    + rewrite (chunks4_app _ _ Hlen'). apply List.Forall_app. split; [| exact Hchunks].
      destruct (getScDataForRound_roundMembers _ _ _ _ _ Hstep) as (blank & _ & Hall).
      assert (Htexts : Forall (fun scPdfData =>
                                 SCPDFData.eventAndRoundText scPdfData
                                 = JS.Val (SCPDFData.setEventAndRoundText blank)) here').
      { clear - Hall Hhere. revert here' Hhere.
        induction Hall as [| sc here [Hmem Hty] Hall IHall]; simpl; intros here' Hhere.
        - injection Hhere as <-. constructor.
        - bind_inv Hhere. bind_inv Hhere. injection Hhere as <-.
          constructor; [| now apply IHall].
          now apply (fromScData_eventAndRoundText sc blank). }
      eapply List.Forall_impl; [| exact (chunks4_full _ _ Hlen' Htexts)].
      intros chunk [Hfour Hsame]. split; [exact Hfour |].
      now exists (SCPDFData.setEventAndRoundText blank).
Qed.

Lemma chunkWarning_full (chunks : list (list SCPDFData.t)) :
  Forall (fun chunk => List.length chunk = 4%nat) chunks ->
  flat_map chunkWarning chunks = [].
Proof.
  induction 1 as [| chunk chunks H4 _ IH]; simpl; [reflexivity |].
  rewrite IH, app_nil_r. unfold chunkWarning.
  destruct chunk; [reflexivity |]. now rewrite H4.
Qed.

(** With a whole number of pages in the option of every round, the
    document of an event is made of full pages: every page holds four
    scorecards, all of one round, and no warning is logged. *)
Theorem genScPdfEvent_whole_pages (w : WCIF.t) (optionsObj : OptionsObj)
    (eventId : string) (env : Env) :
  (forall (round : nat) (o : Option_),
      optionsObj !! RoundBlanksOption.genId eventId round = Some o ->
      wholePages (value o)) ->
  genScPdfEvent w optionsObj eventId = JS.Ok env ->
  exists scPdfArr : list SCPDFData.t,
    getScPdfDataForEvent w optionsObj eventId = JS.Ok scPdfArr /\
    (List.length scPdfArr mod 4 = 0)%nat /\
    Forall (fun chunk =>
              List.length chunk = 4%nat /\
              exists text : string,
                Forall (fun scPdfData =>
                          SCPDFData.eventAndRoundText scPdfData = JS.Val text) chunk)
      (chunks4 scPdfArr) /\
    jsPDF.drawn (doc env) = pagesDrawn 1 (chunks4 scPdfArr) /\
    jsPDF.numPages (doc env) = Nat.max 1 (List.length scPdfArr / 4) /\
    console env = [].
Proof.
  intros Hopts H. unfold genScPdfEvent in H.
  bind_inv H. bind_inv H. rename a into scPdfArr, a0 into env0.
  exists scPdfArr. split; [exact Hstep |].
  pose proof (getScPdfDataForEvent_drawable _ _ _ _ Hstep) as Hdr.
  destruct (layoutPages_ok scPdfArr Hdr) as (env' & Hlay & Hpages & Hdrawn & Hcons).
  rewrite Hstep0 in Hlay. injection Hlay as <-.
  unfold getScPdfDataForEvent in Hstep. bind_inv Hstep.
  unfold getScDataForEvent in Hstep1. bind_inv Hstep1.
  destruct (rounds_on_pages _ _ _ _ _ _ _ Hopts Hstep1 Hstep) as [Hlen Hchunks].
  destruct (WCIF.eventIdToName eventId) as [| | name]; try discriminate H.
  injection H as <-. simpl.
  split; [exact Hlen | split; [exact Hchunks | split; [exact Hdrawn | split]]].
  - rewrite Hpages, chunks4_count. f_equal.
    rewrite (Nat.div_mod_eq (List.length scPdfArr) 4) at 1. rewrite Hlen.
    rewrite Nat.add_0_r.
    replace (4 * (List.length scPdfArr / 4) + 3)%nat
      with (3 + (List.length scPdfArr / 4) * 4)%nat by lia.
    now rewrite Nat.div_add by lia.
  - rewrite Hcons. apply chunkWarning_full.
    eapply List.Forall_impl; [| exact Hchunks]. now intros chunk [H4 _].
Qed.

Lemma genScPdfEvent_whole_pages_witness :
  exists (env : Env) (scPdfArr : list SCPDFData.t),
    genScPdfEvent (Samples.assigned 6) (Samples.options 1) "333" = JS.Ok env /\
    getScPdfDataForEvent (Samples.assigned 6) (Samples.options 1) "333" = JS.Ok scPdfArr /\
    jsPDF.numPages (doc env) = Nat.max 1 (List.length scPdfArr / 4) /\
    console env = [].
Proof.
  destruct (genScPdfEvent (Samples.assigned 6) (Samples.options 1) "333")
    as [env | e] eqn:E; [| vm_compute in E; discriminate E].
  assert (Hopts : forall (round : nat) (o : Option_),
             Samples.options 1 !! RoundBlanksOption.genId "333" round = Some o ->
             wholePages (value o)).
  { intros round o Ho. unfold Samples.options in Ho.
    repeat (apply lookup_insert_Some in Ho;
            destruct Ho as [[_ <-] | [_ Ho]]; [exact I |]).
    discriminate Ho. }
  destruct (genScPdfEvent_whole_pages _ _ _ env Hopts E)
    as (scPdfArr & Harr & _ & _ & _ & Hpages & Hcons).
  exists env, scPdfArr. now repeat split.
Defined.

(** ** sc_data.js: blank records that cannot be made *)




(** ** sc_pdf.js: the texts of a round *)

Lemma roundMembers_texts (a b : SCData.t) :
  roundMembers a = roundMembers b ->
  SCData.compName a = SCData.compName b /\
  SCPDFData.setEventAndRoundText a = SCPDFData.setEventAndRoundText b /\
  SCPDFData.setCutoffData a = SCPDFData.setCutoffData b /\
  SCPDFData.setTimeLimitData a = SCPDFData.setTimeLimitData b.
Proof.
  unfold roundMembers. intros H.
  injection H as Hcomp Hid Hname Hround Hnum Hformat Hcc Hca Htl Hcumul.
  unfold SCPDFData.setEventAndRoundText, SCPDFData.setCutoffData,
    SCPDFData.setTimeLimitData.
  now rewrite Hcomp, Hid, Hname, Hround, Hnum, Hformat, Hcc, Hca, Htl, Hcumul.
Qed.

(** The blank scorecards of a round show the round as the scorecards of
    its competitors do: the record of a competitor and the blank record
    of the same round agree on the members that describe the round, and
    once formatted they carry the same competition name, event and
    round text, attempt counts, cutoff text and time limit texts. *)
Theorem blank_shows_round_of_competitors (w : WCIF.t) (eventId : string) (round : nat)
    (actId registrantId : Z) (scData : SCData.t) :
  SCData.competitorScData w eventId round actId registrantId = JS.Ok scData ->
  exists blank : SCData.t,
    SCData.roundBlankScData w eventId round = JS.Ok blank /\
    roundMembers scData = roundMembers blank /\
    forall scPdfData : SCPDFData.t,
      SCPDFData.fromScData scData = JS.Ok scPdfData ->
      exists blankPdfData : SCPDFData.t,
        SCPDFData.fromScData blank = JS.Ok blankPdfData /\
        roundTexts scPdfData = roundTexts blankPdfData.
Proof.
  intros H.
  destruct (competitorScData_members _ _ _ _ _ _ H) as (Hty & _).
  destruct (competitorScData_roundMembers _ _ _ _ _ _ H) as (blank & Hblank & Hm).
  destruct (roundBlankScData_members _ _ _ _ Hblank) as (Htyb & _).
  exists blank. split; [exact Hblank | split; [exact Hm |]].
  destruct (roundMembers_texts _ _ Hm) as (Hcomp & Htext & Hcut & Htl).
  intros scPdfData Hpdf. unfold SCPDFData.fromScData in *.
  rewrite Hty in Hpdf. rewrite Htyb.
  bind_inv Hpdf. bind_inv Hpdf. injection Hpdf as <-.
  rewrite <- Hcut, Hstep0. eexists. split; [reflexivity |].
  unfold roundTexts. simpl. now rewrite Hcomp, Htext, Htl.
Qed.

Lemma blank_shows_round_of_competitors_witness :
  exists (scData blank : SCData.t),
    SCData.competitorScData (Samples.assigned 2) "333" 1 11 2 = JS.Ok scData /\
    SCData.roundBlankScData (Samples.assigned 2) "333" 1 = JS.Ok blank /\
    roundMembers scData = roundMembers blank.
Proof.
  destruct (SCData.competitorScData (Samples.assigned 2) "333" 1 11 2)
    as [scData | e] eqn:E; [| vm_compute in E; discriminate E].
  destruct (blank_shows_round_of_competitors _ _ _ _ _ _ E) as (blank & Hb & Hm & _).
  now exists scData, blank.
Defined.

(** ** sc_pdf.js: the person on a scorecard *)

(** The person members of a competitor's scorecard: the registrant id
    as a text, the WCA id of the person or [New Competitor] when the
    person has none (never [null]), and the two parts of the name. *)
Theorem competitor_person_texts (w : WCIF.t) (eventId : string) (round : nat)
    (actId registrantId : Z) (scData : SCData.t) (scPdfData : SCPDFData.t) :
  SCData.competitorScData w eventId round actId registrantId = JS.Ok scData ->
  SCPDFData.fromScData scData = JS.Ok scPdfData ->
  exists p : WCIF.Person,
    WCIF.getPersonObj w registrantId = Some p /\
    SCPDFData.registrantId scPdfData = JS.Val (JS.showZ registrantId) /\
    SCPDFData.wcaId scPdfData
    = JS.Val (match WCIF.wcaId p with
              | Some id => id
              | None => "New Competitor"
              end) /\
    SCPDFData.personNameRoman scPdfData
    = JS.Val (fst (SCPDFData.setNameData (WCIF.personName p))) /\
    SCPDFData.personNameTrans scPdfData
    = snd (SCPDFData.setNameData (WCIF.personName p)).
Proof.
  intros H Hpdf. unfold SCData.competitorScData in H.
  unfold WCIF.isNewCompetitor, WCIF.getWcaId, WCIF.getPersonName, WCIF.personField in H.
  destruct (WCIF.getPersonObj w registrantId) as [p |]; [| discriminate H].
  simpl in H. repeat bind_inv H. injection H as <-.
  exists p. split; [reflexivity |].
  unfold SCPDFData.fromScData in Hpdf. simpl in Hpdf.
  bind_inv Hpdf. injection Hpdf as <-. simpl.
  destruct (WCIF.wcaId p); now repeat split.
Qed.

Lemma competitor_person_texts_witness :
  exists (scData : SCData.t) (scPdfData : SCPDFData.t),
    SCData.competitorScData Samples.blindfolded "333mbf" 1 31 7 = JS.Ok scData /\
    SCPDFData.fromScData scData = JS.Ok scPdfData /\
    SCPDFData.registrantId scPdfData = JS.Val "7" /\
    SCPDFData.wcaId scPdfData = JS.Val "2010CHAN01".
Proof.
  destruct (SCData.competitorScData Samples.blindfolded "333mbf" 1 31 7)
    as [scData | e] eqn:E; [| vm_compute in E; discriminate E].
  destruct (SCPDFData.fromScData scData) as [scPdfData | e] eqn:E';
    [| vm_compute in E; injection E as <-; vm_compute in E'; discriminate E'].
  destruct (competitor_person_texts _ _ _ _ _ _ _ E E') as (p & Hp & Hid & Hwca & _).
  exists scData, scPdfData. split; [reflexivity | split; [exact E' |]].
  vm_compute in Hp. injection Hp as <-. split; [exact Hid | exact Hwca].
Defined.

(** ** sc_pdf.js: the file of an event *)

Lemma replaceAll_lacks (from to : ascii) (s : string) :
  from <> to -> lacks from (JS.replaceAll from to s) = true.
Proof.
  intros Hne. induction s as [| c s IH]; simpl; [reflexivity |].
  rewrite IH, andb_true_r.
  destruct (Ascii.eqb_spec c from) as [-> | Hc].
  - destruct (Ascii.eqb_spec to from) as [-> | _]; [now elim Hne | reflexivity].
  - now destruct (Ascii.eqb_spec c from).
Qed.

(** The file of an event is named after the competition id and the
    name of the event, with underscores for the spaces of the name.  For
    an event id that has no name nothing is saved: the generation
    throws, at the latest when the file name is made. *)
Theorem genScPdfEvent_file (w : WCIF.t) (optionsObj : OptionsObj) (eventId : string) :
  (forall env : Env,
      genScPdfEvent w optionsObj eventId = JS.Ok env ->
      exists name : string,
        WCIF.eventIdToName eventId = JS.Val name /\
        lacks " " (JS.replaceAll " " "_" name) = true /\
        jsPDF.savedAs (doc env)
        = Some (WCIF.compId w ++ "_" ++ JS.replaceAll " " "_" name ++ ".pdf")) /\
  (WCIF.eventIdToName eventId = JS.Undefined ->
   exists e : JS.exn, genScPdfEvent w optionsObj eventId = JS.Throw e).
Proof.
  unfold genScPdfEvent. split.
  - intros env H. bind_inv H. bind_inv H.
    destruct (WCIF.eventIdToName eventId) as [| | name]; try discriminate H.
    injection H as <-. exists name.
    split; [reflexivity | split; [now apply replaceAll_lacks | reflexivity]].
  - intros ->.
    destruct (getScPdfDataForEvent w optionsObj eventId) as [scPdfArr | e];
      [| now exists e].
    simpl. destruct (layoutPages scPdfArr) as [env | e]; [| now exists e].
    now exists JS.TypeError.
Qed.

Lemma genScPdfEvent_file_witness :
  exists e : JS.exn,
    genScPdfEvent (Samples.assigned 2) (Samples.options 0) "magic" = JS.Throw e.
Proof.
  apply (proj2 (genScPdfEvent_file (Samples.assigned 2) (Samples.options 0) "magic")).
  reflexivity.
Defined.

(** ** options.js: the proposed pages of blanks, read back *)

Lemma decimalDigits_digits (s rest : string) (mantissa : Z) :
  onlyDigits s = true -> 0 <= mantissa ->
  decimalDigits (s ++ rest) mantissa None
  = match JS.digitsValue (Z.to_N mantissa) s with
    | Some n => decimalDigits rest (Z.of_N n) None
    | None => None
    end.
Proof.
  revert mantissa. induction s as [| c s IH]; intros mantissa H Hm.
  - simpl. now rewrite Z2N.id.
  - simpl in H. apply andb_prop in H. destruct H as [Hc Hs].
    cbn [String.append decimalDigits JS.digitsValue]. rewrite Hc.
    destruct (Ascii.eqb_spec c ".") as [-> | _]; [discriminate Hc |].
    cbn [option_map].
    apply andb_prop in Hc. destruct Hc as [H1 H2].
    apply N.leb_le in H1. apply N.leb_le in H2.
    rewrite IH by (exact Hs || lia).
    replace (Z.to_N (10 * mantissa + (Z.of_N (N_of_ascii c) - 48)))
      with (10 * Z.to_N mantissa + (N_of_ascii c - 48))%N by lia.
    reflexivity.
Qed.

Lemma showN_not_empty (n : N) : JS.showN n <> "".
Proof.
  intros H. pose proof (digitsValue_showN n) as Hv. rewrite H in Hv.
  injection Hv as <-. discriminate H.
Qed.

(** The decimal text of a number of pages, multiplied by the four
    scorecards of a page, is the number of scorecards again. *)
Lemma valueTimes_show (q : Z) :
  0 <= q -> valueTimes (TextValue (Quarters.show (JS.Int q))) 4 = JS.Int q.
Proof.
  intros Hq. unfold valueTimes, Quarters.show.
  destruct (Z.ltb_spec q 0) as [Hneg | _]; [lia |].
  rewrite Z.abs_eq by lia. cbn [String.append].
  unfold JS.showZ.
  destruct (Z.ltb_spec (q / 4) 0) as [Hneg | _];
    [pose proof (Z.div_pos q 4); lia |].
  set (k := Z.to_N (q / 4)).
  assert (Hk : Z.of_N k = q / 4) by (unfold k; rewrite Z2N.id; [reflexivity | apply Z.div_pos; lia]).
  destruct (String.eqb_spec (JS.showN k ++ Quarters.decimals q) ".") as [E | _].
  { exfalso. pose proof (showN_not_empty k) as Hne.
    pose proof (showN_onlyDigits k) as Hd.
    destruct (JS.showN k) as [| c s]; [now elim Hne |].
    simpl in E. injection E as -> _. discriminate Hd. }
  rewrite decimalDigits_digits by (apply showN_onlyDigits || lia).
  change (Z.to_N 0) with 0%N. rewrite digitsValue_showN, Hk.
  pose proof (Z.div_mod q 4 ltac:(lia)) as Hdm.
  pose proof (Z.mod_pos_bound q 4 ltac:(lia)) as Hb.
  set (K := q / 4) in *.
  unfold Quarters.decimals.
  destruct (Z.eqb_spec (q mod 4) 1) as [E1 | N1].
  { change (decimalDigits ".25" K None) with (Some (10 * (10 * K + 2) + 5, 2%nat)).
    cbv beta iota. change (10 ^ Z.of_nat 2) with 100.
    replace ((10 * (10 * K + 2) + 5) * 4) with ((4 * K + 1) * 100) by lia.
    rewrite Z.mod_mul, Z.div_mul by lia. cbn [Z.eqb]. f_equal. lia. }
  destruct (Z.eqb_spec (q mod 4) 2) as [E2 | N2].
  { change (decimalDigits ".5" K None) with (Some (10 * K + 5, 1%nat)).
    cbv beta iota. change (10 ^ Z.of_nat 1) with 10.
    replace ((10 * K + 5) * 4) with ((4 * K + 2) * 10) by lia.
    rewrite Z.mod_mul, Z.div_mul by lia. cbn [Z.eqb]. f_equal. lia. }
  destruct (Z.eqb_spec (q mod 4) 3) as [E3 | N3].
  { change (decimalDigits ".75" K None) with (Some (10 * (10 * K + 7) + 5, 2%nat)).
    cbv beta iota. change (10 ^ Z.of_nat 2) with 100.
    replace ((10 * (10 * K + 7) + 5) * 4) with ((4 * K + 3) * 100) by lia.
    rewrite Z.mod_mul, Z.div_mul by lia. cbn [Z.eqb]. f_equal. lia. }
  change (decimalDigits "" K None) with (Some (K, 0%nat)).
  cbv beta iota. change (10 ^ Z.of_nat 0) with 1.
  rewrite Z.mod_1_r, Z.div_1_r. cbn [Z.eqb]. f_equal. lia.
Qed.

Lemma valueTimes_optionValue (q : Z) :
  0 <= q -> valueTimes (Quarters.optionValue (JS.Int q)) 4 = JS.Int q.
Proof.
  intros Hq. unfold Quarters.optionValue.
  destruct (Z.eqb_spec (q mod 4) 0) as [E | _]; [| now apply valueTimes_show].
  simpl. f_equal. pose proof (Z.div_mod q 4 ltac:(lia)). lia.
Qed.

(** The number of pages proposed for a round, left as it is.  A round
    without groups then gets a blank scorecard for every competitor
    expected to advance to it and four more (one more page); a round
    with groups gets the filler blanks and four more.  The option holds
    the proposed value, or its text as the form gives it back. *)
Theorem proposed_pages_of_blanks (w : WCIF.t) (optionsObj : OptionsObj)
    (eventId : string) (round : nat) (o : Option_) (pages : JS.number) (n : Z)
    (blank : SCData.t) :
  getBlankPagesForRound w eventId round = JS.Ok pages ->
  optionsObj !! RoundBlanksOption.genId eventId round = Some o ->
  (value o = Quarters.optionValue pages \/ value o = TextValue (Quarters.show pages)) ->
  WCIF.getNumAdvancingToRound w eventId round = JS.Ok (JS.Val (JS.Int n)) ->
  0 <= n < 2 ^ 31 ->
  SCData.roundBlankScData w eventId round = JS.Ok blank ->
  getScDataForRoundBlanks w optionsObj eventId round
  = JS.Ok (repeat blank
             (Z.to_nat (if WCIF.groupsAreAssigned w eventId round
                        then 4 - n mod 4 + 4
                        else n + 4))).
Proof.
  intros Hpages Ho Hv Hn Hbound Hblank.
  unfold getBlankPagesForRound in Hpages. unfold getScDataForRoundBlanks.
  rewrite Ho, Hn, Hblank.
  assert (Htimes : forall q : Z, 0 <= q -> pages = JS.Int q ->
                                 valueTimes (value o) 4 = JS.Int q).
  { intros q Hq ->.
    destruct Hv as [-> | ->]; [now apply valueTimes_optionValue | now apply valueTimes_show]. }
  destruct (WCIF.groupsAreAssigned w eventId round).
  - injection Hpages as <-. rewrite (Htimes 4) by (lia || reflexivity).
    cbn [JS.bind JS.toNumber JS.rem JS.sub JS.add].
    change (4 =? 0) with false. cbv iota.
    rewrite Z.rem_mod_nonneg by lia.
    pose proof (Z.mod_pos_bound n 4 ltac:(lia)) as Hb.
    cbn [JS.sub JS.add]. unfold arrayOfLength.
    destruct (Z.leb_spec 0 (4 - n mod 4 + 4)) as [_ | Hc]; [| lia].
    destruct (Z.ltb_spec (4 - n mod 4 + 4) (2 ^ 32)) as [_ | Hc]; [| lia].
    reflexivity.
  - rewrite Hn in Hpages. cbn [JS.bind JS.toNumber JS.add] in Hpages.
    injection Hpages as <-. rewrite (Htimes (n + 4)) by (lia || reflexivity).
    cbn [JS.bind JS.add]. unfold arrayOfLength.
    destruct (Z.leb_spec 0 (0 + (n + 4))) as [_ | Hc]; [| lia].
    destruct (Z.ltb_spec (0 + (n + 4)) (2 ^ 32)) as [_ | Hc]; [| lia].
    reflexivity.
Qed.

(** Six competitors are expected in the second round of the sample, 75
    percent of the eight of the first round: two and a half pages are
    proposed, and ten blank scorecards are made. *)
Lemma proposed_pages_of_blanks_witness :
  getBlankPagesForRound (Samples.assigned 8) "333" 2 = JS.Ok (JS.Int 10) /\
  Quarters.show (JS.Int 10) = "2.5" /\
  JS.rmap (fun blanks => List.length blanks)
    (getScDataForRoundBlanks (Samples.assigned 8)
       (<[ RoundBlanksOption.genId "333" 2 :=
             RoundBlanksOption.new "333" 2 (TextValue "2.5") ]> (Samples.options 0))
       "333" 2)
  = JS.Ok 10%nat.
Proof.
  split; [vm_compute; reflexivity | split; [reflexivity |]].
  destruct (SCData.roundBlankScData (Samples.assigned 8) "333" 2) as [blank | e] eqn:E;
    [| vm_compute in E; discriminate E].
  rewrite (proposed_pages_of_blanks (Samples.assigned 8) _ "333" 2
             (RoundBlanksOption.new "333" 2 (TextValue "2.5")) (JS.Int 10) 6 blank).
  - reflexivity.
  - vm_compute. reflexivity.
  - apply lookup_insert_eq.
  - right. reflexivity.
  - vm_compute. reflexivity.
  - lia.
  - exact E.
Defined.

(** ** options.js: what the field of a round lets in *)

Lemma testNonDigit_onlyDigits (s : string) :
  BlanksOptionsTab.testNonDigit s = negb (onlyDigits s).
Proof.
  induction s as [| c s IH]; simpl; [reflexivity |].
  rewrite IH. now destruct ((48 <=? N_of_ascii c)%N && (N_of_ascii c <=? 57)%N), (onlyDigits s).
Qed.

Lemma onlyDigits_append (a b : string) :
  onlyDigits (a ++ b) = onlyDigits a && onlyDigits b.
Proof.
  induction a as [| c a IH]; simpl; [reflexivity |].
  now rewrite IH, andb_assoc.
Qed.

Lemma onlyDigits_concat (l : list string) :
  Forall (fun s => onlyDigits s = true) l -> onlyDigits (String.concat "" l) = true.
Proof.
  induction 1 as [| s l Hs Hl IH]; [reflexivity |].
  destruct l as [| s' l]; [exact Hs |].
  cbn [String.concat] in *. now rewrite !onlyDigits_append, Hs, IH.
Qed.

Lemma onlyDigits_digitsValue (s : string) (acc : N) :
  onlyDigits s = true -> exists n : N, JS.digitsValue acc s = Some n.
Proof.
  revert acc. induction s as [| c s IH]; simpl; intros acc H.
  - now exists acc.
  - apply andb_prop in H. destruct H as [Hc Hs]. rewrite Hc. now apply IH.
Qed.

(** A text of digits times four: a whole number that is not negative. *)
Lemma valueTimes_digits (s : string) :
  onlyDigits s = true ->
  exists pages : Z, 0 <= pages /\ valueTimes (TextValue s) 4 = JS.Int (4 * pages).
Proof.
  intros H. unfold valueTimes.
  destruct (String.eqb_spec s ".") as [-> | _]; [discriminate H |].
  rewrite <- (append_empty_r s), decimalDigits_digits by (exact H || lia).
  destruct (onlyDigits_digitsValue s (Z.to_N 0) H) as (n & ->).
  exists (Z.of_N n). split; [lia |].
  change (decimalDigits "" (Z.of_N n) None) with (Some (Z.of_N n, 0%nat)).
  cbv beta iota. change (10 ^ Z.of_nat 0) with 1.
  rewrite Z.mod_1_r, Z.div_1_r. cbn [Z.eqb]. f_equal. lia.
Qed.

(** The field of a round prevents an insertion exactly when its data
    is a text with a character that is no digit.  So a text put
    together from insertions it let through is made of digits, and as
    an option value it stands for a whole number of pages that is not
    negative. *)
Theorem beforeinputEventListener_digits :
  (forall data : JS.js string,
      BlanksOptionsTab.beforeinputEventListener data = true
      <-> exists s : string, data = JS.Val s /\ onlyDigits s = false) /\
  (forall inserted : list string,
      Forall (fun s => BlanksOptionsTab.beforeinputEventListener (JS.Val s) = false)
        inserted ->
      wholePages (TextValue (String.concat "" inserted)) /\
      exists pages : Z,
        0 <= pages /\
        valueTimes (TextValue (String.concat "" inserted)) 4 = JS.Int (4 * pages)).
Proof.
  assert (Hval : forall s : string,
             BlanksOptionsTab.beforeinputEventListener (JS.Val s) = negb (onlyDigits s)).
  { intros s. unfold BlanksOptionsTab.beforeinputEventListener.
    rewrite testNonDigit_onlyDigits.
    destruct (String.eqb_spec s "") as [-> | _]; [reflexivity | apply andb_true_l]. }
  split.
  - intros data. split.
    + destruct data as [| | s]; try discriminate. rewrite Hval. intros H.
      exists s. split; [reflexivity |]. now destruct (onlyDigits s).
    + intros (s & -> & H). rewrite Hval, H. reflexivity.
  - intros inserted H.
    assert (Hd : onlyDigits (String.concat "" inserted) = true).
    { apply onlyDigits_concat. eapply List.Forall_impl; [| exact H].
      intros s Hs. cbv beta in Hs. rewrite Hval in Hs. now destruct (onlyDigits s). }
    split; [exact Hd | now apply valueTimes_digits].
Qed.

Lemma beforeinputEventListener_digits_witness :
  wholePages (TextValue (String.concat "" ["1"; "2"])) /\
  BlanksOptionsTab.beforeinputEventListener (JS.Val "-") = true /\
  BlanksOptionsTab.beforeinputEventListener (JS.Val ".") = true /\
  BlanksOptionsTab.beforeinputEventListener JS.Null = false.
Proof.
  split; [| now repeat split].
  apply (proj2 beforeinputEventListener_digits ["1"; "2"]).
  repeat constructor.
Defined.

(** ** options.js, the earlier revision: the blanks proposed *)

(** The earlier revision proposed a number of blank scorecards: with
    groups assigned, what fills the last page of the competitors and
    one page more, four to seven blanks; without groups, a blank for
    every competitor expected as well, which again makes whole pages. *)
Theorem earlier_blanks_fill_pages (w : WCIF.t) (eventId : string) (round : nat) (n : Z) :
  WCIF.getNumAdvancingToRound w eventId round = JS.Ok (JS.Val (JS.Int n)) ->
  0 <= n ->
  exists blanks : Z,
    EarlierOptions.getNumBlanksForRound w eventId round = JS.Ok (JS.Int blanks) /\
    if WCIF.groupsAreAssigned w eventId round
    then (n + blanks) mod 4 = 0 /\ 4 <= blanks <= 7
    else blanks mod 4 = 0 /\ n + 4 <= blanks <= n + 7.
Proof.
  intros Hn Hpos. unfold EarlierOptions.getNumBlanksForRound.
  rewrite Hn. cbn [JS.bind JS.toNumber].
  assert (Hextra : (n + EarlierOptions.numExtraBlanks n) mod 4 = 0
                   /\ 4 <= EarlierOptions.numExtraBlanks n <= 7).
  { unfold EarlierOptions.numExtraBlanks.
    split.
    - replace (n + (4 * ((n + 4 + 3) / 4) - n)) with (((n + 4 + 3) / 4) * 4) by lia.
      apply Z.mod_mul. lia.
    - pose proof (Z.div_mod (n + 4 + 3) 4 ltac:(lia)).
      pose proof (Z.mod_pos_bound (n + 4 + 3) 4 ltac:(lia)). lia. }
  destruct (WCIF.groupsAreAssigned w eventId round); eexists; (split; [reflexivity |]).
  - exact Hextra.
  - split; [exact (proj1 Hextra) | lia].
Qed.

Lemma earlier_blanks_fill_pages_witness :
  exists blanks : Z,
    EarlierOptions.getNumBlanksForRound (Samples.assigned 5) "333" 1 = JS.Ok (JS.Int blanks) /\
    (5 + blanks) mod 4 = 0 /\ 4 <= blanks <= 7.
Proof.
  destruct (earlier_blanks_fill_pages (Samples.assigned 5) "333" 1 5)
    as (blanks & Hb & Hrest); [vm_compute; reflexivity | lia |].
  exists blanks. split; [exact Hb |].
  change (WCIF.groupsAreAssigned (Samples.assigned 5) "333" 1) with true in Hrest.
  exact Hrest.
Defined.

(** ** Objects used as dictionaries *)

Section DictFacts.

Context {A : Type}.

Lemma Dict_set_names (key : string) (v : A) (obj : Dict.t A) :
  map fst (Dict.set key v obj)
  = if existsb (String.eqb key) (map fst obj)
    then map fst obj
    else (map fst obj ++ [key])%list.
Proof.
  induction obj as [| [k x] obj IH]; simpl; [reflexivity |].
  rewrite (String.eqb_sym key k).
  destruct (String.eqb_spec k key) as [-> | Hne]; simpl; [reflexivity |].
  rewrite IH. now destruct (existsb (String.eqb key) (map fst obj)).
Qed.

Lemma Dict_set_In (key k : string) (v : A) (obj : Dict.t A) :
  In k (map fst (Dict.set key v obj)) <-> In k (map fst obj) \/ k = key.
Proof.
  rewrite Dict_set_names.
  destruct (existsb (String.eqb key) (map fst obj)) eqn:E.
  - apply existsb_exists in E. destruct E as (k' & Hin & Heq).
    apply String.eqb_eq in Heq. subst k'.
    split; [now left | intros [H | ->]; assumption].
  - rewrite in_app_iff. simpl. intuition.
Qed.

Lemma Dict_set_NoDup (key : string) (v : A) (obj : Dict.t A) :
  List.NoDup (map fst obj) -> List.NoDup (map fst (Dict.set key v obj)).
Proof.
  intros H. rewrite Dict_set_names.
  destruct (existsb (String.eqb key) (map fst obj)) eqn:E; [exact H |].
  apply List.NoDup_app; [exact H | |].
  - apply List.NoDup_cons; [intros [] | apply List.NoDup_nil].
  - intros k Hin [<- | []].
    assert (Hex : existsb (String.eqb key) (map fst obj) = true).
    { apply existsb_exists. exists key. split; [exact Hin | apply String.eqb_refl]. }
    rewrite Hex in E. discriminate E.
Qed.

Lemma Dict_get_set (key k : string) (v : A) (obj : Dict.t A) :
  Dict.get k (Dict.set key v obj)
  = if String.eqb key k then JS.Val v else Dict.get k obj.
Proof.
  induction obj as [| [k' x] obj IH]; simpl.
  - reflexivity.
  - destruct (String.eqb_spec k' key) as [-> | Hne]; simpl.
    + now destruct (String.eqb key k).
    + rewrite IH. destruct (String.eqb_spec k' k) as [-> | _]; [| reflexivity].
      destruct (String.eqb_spec key k) as [-> | _]; [now elim Hne | reflexivity].
Qed.

End DictFacts.

Lemma insertSorted_In (n m : N) (l : list N) :
  In m (Dict.insertSorted n l) <-> m = n \/ In m l.
Proof.
  induction l as [| x l IH]; simpl; [intuition |].
  destruct (n <=? x)%N; simpl; [intuition |].
  rewrite IH. intuition.
Qed.

Lemma insertSorted_NoDup (n : N) (l : list N) :
  ~ In n l -> List.NoDup l -> List.NoDup (Dict.insertSorted n l).
Proof.
  induction l as [| x l IH]; simpl; intros Hn Hl.
  - apply List.NoDup_cons; [intros [] | apply List.NoDup_nil].
  - destruct (n <=? x)%N.
    + now apply List.NoDup_cons.
    + inversion Hl as [| ? ? Hx Hl']. subst.
      apply List.NoDup_cons.
      * rewrite insertSorted_In. intros [-> | Hin]; [apply Hn; now left | now apply Hx].
      * apply IH; [intros Hin; apply Hn; now right | exact Hl'].
Qed.

Lemma ascending_In (m : N) (l : list N) : In m (Dict.ascending l) <-> In m l.
Proof.
  induction l as [| x l IH]; simpl; [reflexivity |].
  rewrite insertSorted_In, IH. intuition.
Qed.

Lemma ascending_NoDup (l : list N) : List.NoDup l -> List.NoDup (Dict.ascending l).
Proof.
  induction 1 as [| x l Hx Hl IH]; simpl; [apply List.NoDup_nil |].
  apply insertSorted_NoDup; [now rewrite ascending_In | exact IH].
Qed.

(** An array index is the text of its number. *)
Lemma arrayIndex_Some (k : string) (n : N) : Dict.arrayIndex k = Some n -> JS.showN n = k.
Proof.
  unfold Dict.arrayIndex. destruct (JS.digitsValue 0 k) as [m |]; [| discriminate].
  destruct (String.eqb_spec (JS.showN m) k) as [E | _]; [| discriminate].
  simpl. destruct (m <? 2 ^ 32 - 1)%N; [| discriminate].
  now intros [= <-].
Qed.

Lemma indices_In (n : N) (names : list string) :
  In n (Dict.indices names) <-> exists k, In k names /\ Dict.arrayIndex k = Some n.
Proof.
  unfold Dict.indices. rewrite in_flat_map. split.
  - intros (k & Hk & Hin). exists k. split; [exact Hk |].
    destruct (Dict.arrayIndex k); simpl in Hin; [| destruct Hin].
    destruct Hin as [-> | []]. reflexivity.
  - intros (k & Hk & E). exists k. split; [exact Hk |]. rewrite E. now left.
Qed.

Lemma indices_NoDup (names : list string) :
  List.NoDup names -> List.NoDup (Dict.indices names).
Proof.
  induction 1 as [| k names Hk Hnames IH]; simpl; [apply List.NoDup_nil |].
  destruct (Dict.arrayIndex k) as [n |] eqn:E; simpl; [| exact IH].
  apply List.NoDup_cons; [| exact IH].
  intros Hin. apply indices_In in Hin. destruct Hin as (k' & Hk' & E').
  apply arrayIndex_Some in E. apply arrayIndex_Some in E'.
  apply Hk. now rewrite <- E, E'.
Qed.

(** [Object.keys] lists every property once. *)
Lemma Dict_keys_In {A : Type} (k : string) (obj : Dict.t A) :
  In k (Dict.keys obj) <-> In k (map fst obj).
Proof.
  unfold Dict.keys. rewrite in_app_iff, in_map_iff, filter_In. split.
  - intros [(n & Hn & Hin) | [Hin _]]; [| exact Hin].
    apply ascending_In, indices_In in Hin. destruct Hin as (k' & Hk' & E).
    apply arrayIndex_Some in E. now rewrite <- Hn, E.
  - intros Hin. destruct (Dict.arrayIndex k) as [n |] eqn:E.
    + left. exists n. split; [now apply arrayIndex_Some |].
      apply ascending_In, indices_In. now exists k.
    + now right.
Qed.

Lemma Dict_keys_NoDup {A : Type} (obj : Dict.t A) :
  List.NoDup (map fst obj) -> List.NoDup (Dict.keys obj).
Proof.
  intros H. unfold Dict.keys. apply List.NoDup_app.
  - apply List.NoDup_map_NoDup_ForallPairs.
    + intros n m _ _. apply showN_inj.
    + now apply ascending_NoDup, indices_NoDup.
  - now apply List.NoDup_filter.
  - intros k Hk Hk'.
    apply in_map_iff in Hk. destruct Hk as (n & <- & Hin).
    apply ascending_In, indices_In in Hin. destruct Hin as (k' & _ & E).
    apply filter_In in Hk'. destruct Hk' as [_ Hnone].
    rewrite (arrayIndex_Some _ _ E), E in Hnone. discriminate Hnone.
Qed.

(** ** options.js: the options of the blanks tab *)

Lemma blankPagesFrom_spec (w : WCIF.t) (eventId : string) (from count : nat)
    (perRound : list (nat * JS.number)) :
  blankPagesFrom w eventId from count = JS.Ok perRound ->
  map fst perRound = seq from count /\
  Forall (fun entry => getBlankPagesForRound w eventId (fst entry) = JS.Ok (snd entry))
    perRound.
Proof.
  revert from perRound. induction count as [| count IH]; simpl; intros from perRound H.
  - injection H as <-. split; [reflexivity | constructor].
  - bind_inv H. bind_inv H. injection H as <-.
    destruct (IH _ _ Hstep0) as [Hseq Hall]. simpl.
    split; [now rewrite Hseq | now constructor].
Qed.

Lemma blankPagesOfEvents_spec (w : WCIF.t) (eventIds : list string)
    (obj0 obj : Dict.t (list (nat * JS.number))) :
  blankPagesOfEvents w eventIds obj0 = JS.Ok obj ->
  (forall k, In k (map fst obj) <-> In k (map fst obj0) \/ In k eventIds) /\
  (List.NoDup (map fst obj0) -> List.NoDup (map fst obj)) /\
  (forall k, In k eventIds ->
     exists perRound,
       getBlankPagesPerRoundByEvent w k = JS.Ok perRound /\
       Dict.get k obj = JS.Val perRound) /\
  (forall k, ~ In k eventIds -> Dict.get k obj = Dict.get k obj0).
Proof.
  revert obj0. induction eventIds as [| e rest IH]; simpl; intros obj0 H.
  - injection H as <-.
    split; [intros k; tauto | split; [tauto | split; [intros k [] | reflexivity]]].
  - bind_inv H. rename a into perRound.
    destruct (IH _ H) as (Hin & Hnd & Hget & Hkeep).
    split; [| split; [| split]].
    + intros k. rewrite Hin, Dict_set_In. intuition.
    + intros H0. now apply Hnd, Dict_set_NoDup.
    + intros k Hk.
      destruct (in_dec string_dec k rest) as [Hrest | Hrest]; [now apply Hget |].
      destruct Hk as [<- | Hk]; [| now elim Hrest].
      exists perRound. split; [exact Hstep |].
      rewrite (Hkeep _ Hrest), Dict_get_set. now rewrite String.eqb_refl.
    + intros k Hk. rewrite Hkeep by tauto. rewrite Dict_get_set.
      destruct (String.eqb_spec e k) as [-> | _]; [| reflexivity].
      elim Hk. now left.
Qed.

(** The option of a round, as the blanks tab makes it. *)
Lemma addRounds_options (eventId : string) (eventDict : list (nat * JS.number))
    (tab : OptionsTab.t) :
  OptionsTab.options (BlanksOptionsTab.addRounds eventId eventDict tab)
  = (OptionsTab.options tab
     ++ map (fun entry =>
               RoundBlanksOption.new eventId (fst entry)
                 (Quarters.optionValue (snd entry))) eventDict)%list.
Proof.
  unfold BlanksOptionsTab.addRounds. revert tab.
  induction eventDict as [| entry eventDict IH]; simpl; intros tab.
  - now rewrite app_nil_r.
  - rewrite IH. simpl. now rewrite <- app_assoc.
Qed.

Lemma addEvents_options (numBlanksObj : Dict.t (list (nat * JS.number)))
    (eventIds : list string) (tab tab' : OptionsTab.t) :
  BlanksOptionsTab.addEvents numBlanksObj eventIds tab = JS.Ok tab' ->
  OptionsTab.options tab'
  = (OptionsTab.options tab
     ++ flat_map (fun eventId =>
                    match Dict.get eventId numBlanksObj with
                    | JS.Val eventDict =>
                        map (fun entry =>
                               RoundBlanksOption.new eventId (fst entry)
                                 (Quarters.optionValue (snd entry))) eventDict
                    | _ => []
                    end) eventIds)%list.
Proof.
  revert tab. induction eventIds as [| e rest IH]; simpl; intros tab H.
  - injection H as <-. now rewrite app_nil_r.
  - destruct (Dict.get e numBlanksObj) as [| | eventDict]; try discriminate H.
    rewrite (IH _ H), addRounds_options. now rewrite <- app_assoc.
Qed.

Lemma flat_map_NoDup {A B : Type} (f : A -> list B) (l : list A) :
  List.NoDup l ->
  (forall a, In a l -> List.NoDup (f a)) ->
  (forall a1 a2 b, In a1 l -> In a2 l -> In b (f a1) -> In b (f a2) -> a1 = a2) ->
  List.NoDup (flat_map f l).
Proof.
  induction 1 as [| a l Ha Hl IH]; simpl; intros Hf Hdis; [apply List.NoDup_nil |].
  apply List.NoDup_app.
  - apply Hf. now left.
  - apply IH; [intros; apply Hf; now right |].
    intros a1 a2 b H1 H2. apply Hdis; now right.
  - intros b Hb Hb'. apply in_flat_map in Hb'. destruct Hb' as (a' & Ha' & Hb').
    apply Ha. rewrite (Hdis a a' b); [exact Ha' | now left | now right | exact Hb | exact Hb'].
Qed.

Lemma BlanksOptionsTab_options_parts (w : WCIF.t) (tab : OptionsTab.t) :
  BlanksOptionsTab.new w = JS.Ok tab ->
  List.NoDup (map getId (OptionsTab.options tab)) /\
  (forall id : string,
      In id (map getId (OptionsTab.options tab))
      <-> exists (eventId : string) (round numRounds : nat),
            In eventId (WCIF.getEventIds w) /\
            WCIF.getNumRounds w eventId = JS.Ok numRounds /\
            (1 <= round <= numRounds)%nat /\
            id = RoundBlanksOption.genId eventId round) /\
  Forall (fun o =>
            inputType o = "number" /\ value o = defaultValue o /\
            exists (eventId : string) (round : nat) (pages : JS.number),
              getId o = RoundBlanksOption.genId eventId round /\
              getBlankPagesForRound w eventId round = JS.Ok pages /\
              defaultValue o = Quarters.optionValue pages)
    (OptionsTab.options tab).
Proof.
  intros H. unfold BlanksOptionsTab.new, BlanksOptionsTab.finishDiv in H.
  bind_inv H. rename a into obj.
  unfold getBlankPagesPerRound in Hstep.
  destruct (blankPagesOfEvents_spec _ _ _ _ Hstep) as (Hin & Hnd & Hget & _).
  pose proof (Dict_keys_NoDup obj (Hnd (List.NoDup_nil _))) as Hkeys.
  assert (Hkey : forall k, In k (Dict.keys obj) <-> In k (WCIF.getEventIds w)).
  { intros k. rewrite Dict_keys_In, Hin. simpl. tauto. }
  rewrite (addEvents_options _ _ _ _ H). simpl OptionsTab.options. simpl app.
  clear H Hin Hnd Hstep.
  (* the rounds of a listed event *)
  assert (Hrounds : forall k, In k (Dict.keys obj) ->
             exists (perRound : list (nat * JS.number)) (numRounds : nat),
               Dict.get k obj = JS.Val perRound /\
               WCIF.getNumRounds w k = JS.Ok numRounds /\
               map fst perRound = seq 1 numRounds /\
               Forall (fun entry =>
                         getBlankPagesForRound w k (fst entry) = JS.Ok (snd entry))
                 perRound).
  { intros k Hk. apply Hkey in Hk.
    destruct (Hget k Hk) as (perRound & Hper & Hg).
    unfold getBlankPagesPerRoundByEvent in Hper. bind_inv Hper.
    destruct (blankPagesFrom_spec _ _ _ _ _ Hper) as [Hseq Hall].
    now exists perRound, a. }
  set (optionsOf := fun eventId : string =>
         match Dict.get eventId obj with
         | JS.Val eventDict =>
             map (fun entry =>
                    RoundBlanksOption.new eventId (fst entry)
                      (Quarters.optionValue (snd entry))) eventDict
         | _ => []
         end).
  assert (Hids : forall k, In k (Dict.keys obj) ->
             exists numRounds : nat,
               WCIF.getNumRounds w k = JS.Ok numRounds /\
               map getId (optionsOf k)
               = map (RoundBlanksOption.genId k) (seq 1 numRounds)).
  { intros k Hk. destruct (Hrounds k Hk) as (perRound & numRounds & Hg & Hn & Hseq & _).
    exists numRounds. split; [exact Hn |].
    unfold optionsOf. rewrite Hg, map_map. simpl.
    now rewrite <- Hseq, map_map. }
  split; [| split].
  - rewrite flat_map_concat_map, concat_map, map_map, <- flat_map_concat_map.
    apply flat_map_NoDup; [exact Hkeys | |].
    + intros k Hk. destruct (Hids k Hk) as (numRounds & _ & ->).
      apply List.NoDup_map_NoDup_ForallPairs; [| apply seq_NoDup].
      intros r1 r2 _ _ E. now apply RoundBlanksOption_genId_inj in E.
    + intros k1 k2 id Hk1 Hk2 H1 H2.
      destruct (Hids k1 Hk1) as (n1 & _ & E1). rewrite E1 in H1.
      destruct (Hids k2 Hk2) as (n2 & _ & E2). rewrite E2 in H2.
      apply in_map_iff in H1. destruct H1 as (r1 & <- & _).
      apply in_map_iff in H2. destruct H2 as (r2 & E & _).
      now apply RoundBlanksOption_genId_inj in E.
  - intros id. rewrite in_map_iff. split.
    + intros (o & Ho & Hino). apply in_flat_map in Hino.
      destruct Hino as (k & Hk & Hok).
      destruct (Hids k Hk) as (numRounds & Hn & E).
      assert (Hid : In id (map getId (optionsOf k))).
      { apply in_map_iff. now exists o. }
      rewrite E in Hid. apply in_map_iff in Hid. destruct Hid as (r & <- & Hr).
      apply in_seq in Hr.
      exists k, r, numRounds. repeat split; try lia; try assumption.
      now apply Hkey.
    + intros (k & r & numRounds & Hk & Hn & Hr & ->).
      apply Hkey in Hk. destruct (Hids k Hk) as (n' & Hn' & E).
      rewrite Hn in Hn'. injection Hn' as <-.
      assert (Hid : In (RoundBlanksOption.genId k r) (map getId (optionsOf k))).
      { rewrite E. apply in_map. apply in_seq. lia. }
      apply in_map_iff in Hid. destruct Hid as (o & Ho & Hino).
      exists o. split; [exact Ho |]. apply in_flat_map. now exists k.
  - apply List.Forall_forall. intros o Hino.
    apply in_flat_map in Hino. destruct Hino as (k & Hk & Hok).
    destruct (Hrounds k Hk) as (perRound & numRounds & Hg & _ & _ & Hall).
    unfold optionsOf in Hok. rewrite Hg in Hok.
    apply in_map_iff in Hok. destruct Hok as (entry & <- & Hentry).
    split; [reflexivity | split; [reflexivity |]].
    exists k, (fst entry), (snd entry). split; [reflexivity |].
    split; [| reflexivity].
    exact (proj1 (List.Forall_forall _ _) Hall entry Hentry).
Qed.

(** The blanks tab holds one option for every round of every listed
    event, and no other: no id twice, also when the document lists an
    event twice.  Every option is a number field whose value is the
    default, the number of pages proposed for its round. *)
Theorem BlanksOptionsTab_options (w : WCIF.t) (tab : OptionsTab.t) :
  BlanksOptionsTab.new w = JS.Ok tab ->
  List.NoDup (map getId (OptionsTab.options tab)) /\
  (forall id : string,
      In id (map getId (OptionsTab.options tab))
      <-> exists (eventId : string) (round numRounds : nat),
            In eventId (WCIF.getEventIds w) /\
            WCIF.getNumRounds w eventId = JS.Ok numRounds /\
            (1 <= round <= numRounds)%nat /\
            id = RoundBlanksOption.genId eventId round) /\
  Forall (fun o =>
            inputType o = "number" /\ value o = defaultValue o /\
            exists (eventId : string) (round : nat) (pages : JS.number),
              getId o = RoundBlanksOption.genId eventId round /\
              getBlankPagesForRound w eventId round = JS.Ok pages /\
              defaultValue o = Quarters.optionValue pages)
    (OptionsTab.options tab).
Proof. exact (BlanksOptionsTab_options_parts w tab). Qed.

(** The sample document lists 3x3x3 with four rounds and multi-blind
    with one: five options. *)
Lemma BlanksOptionsTab_options_witness :
  exists tab : OptionsTab.t,
    BlanksOptionsTab.new (Samples.assigned 8) = JS.Ok tab /\
    List.NoDup (map getId (OptionsTab.options tab)) /\
    map getId (OptionsTab.options tab)
    = [ "blanks-round-333-r1"; "blanks-round-333-r2"; "blanks-round-333-r3";
        "blanks-round-333-r4"; "blanks-round-333mbf-r1" ].
Proof.
  destruct (BlanksOptionsTab.new (Samples.assigned 8)) as [tab | e] eqn:E;
    [| vm_compute in E; discriminate E].
  exists tab. split; [reflexivity |]. split.
  - exact (proj1 (BlanksOptionsTab_options _ _ E)).
  - vm_compute in E. injection E as <-. reflexivity.
Defined.

(** ** options.js: the options of the rooms tab *)

Lemma addRooms_options (initial : string -> string) (numRooms : nat)
    (rooms : list string) (tab : OptionsTab.t) :
  (numRooms = 1%nat \/ Forall (fun room => room <> "") rooms) ->
  exists tab' : OptionsTab.t,
    RoomOptionsTab.addRooms initial numRooms rooms tab = JS.Ok tab' /\
    OptionsTab.options tab'
    = (OptionsTab.options tab
       ++ map (fun room =>
                 RoomOption.new room
                   (TextValue (if Nat.eqb numRooms 1 then "" else initial room)))
            rooms)%list.
Proof.
  revert tab. induction rooms as [| room rooms IH]; simpl; intros tab H.
  - exists tab. now rewrite app_nil_r.
  - assert (Hrest : numRooms = 1%nat \/ Forall (fun room => room <> "") rooms).
    { destruct H as [H | H]; [now left | right; now inversion H]. }
    assert (Hdefault :
              (if Nat.eqb numRooms 1 then JS.Ok ""
               else match room with
                    | "" => JS.Throw JS.TypeError
                    | String _ _ => JS.Ok (initial room)
                    end)
              = JS.Ok (if Nat.eqb numRooms 1 then "" else initial room)).
    { destruct (Nat.eqb_spec numRooms 1) as [_ | Hne]; [reflexivity |].
      destruct H as [H | H]; [now elim Hne |].
      inversion H as [| ? ? Hroom _]. subst. now destruct room. }
    rewrite Hdefault. simpl JS.bind.
    destruct (IH (OptionsTab.addOption
                    (RoomOption.new room
                       (TextValue (if Nat.eqb numRooms 1 then "" else initial room)))
                    tab) Hrest) as (tab' & -> & Hopts).
    exists tab'. split; [reflexivity |]. rewrite Hopts. simpl.
    now rewrite <- app_assoc.
Qed.

Lemma addRooms_throws (initial : string -> string) (numRooms : nat)
    (rooms : list string) (tab : OptionsTab.t) :
  numRooms <> 1%nat -> In "" rooms ->
  RoomOptionsTab.addRooms initial numRooms rooms tab = JS.Throw JS.TypeError.
Proof.
  intros Hne. apply Nat.eqb_neq in Hne.
  revert tab. induction rooms as [| room rooms IH]; simpl; intros tab Hin;
    [destruct Hin |].
  rewrite Hne. destruct room as [| c room]; [reflexivity |].
  simpl. apply IH. destruct Hin as [H | H]; [discriminate H | exact H].
Qed.

Lemma addRooms_ids (initial : string -> string) (numRooms : nat)
    (rooms : list string) (tab tab' : OptionsTab.t) :
  RoomOptionsTab.addRooms initial numRooms rooms tab = JS.Ok tab' ->
  map getId (OptionsTab.options tab')
  = (map getId (OptionsTab.options tab) ++ map RoomOption.genId rooms)%list.
Proof.
  revert tab. induction rooms as [| room rooms IH]; simpl; intros tab H.
  - injection H as <-. now rewrite app_nil_r.
  - bind_inv H. rewrite (IH _ H). simpl. now rewrite map_app, <- app_assoc.
Qed.

Lemma RoomOptionsTab_ids (initial : string -> string) (w : WCIF.t) (tab : OptionsTab.t) :
  RoomOptionsTab.new initial w = JS.Ok tab ->
  map getId (OptionsTab.options tab) = map RoomOption.genId (WCIF.getRoomNames w).
Proof.
  unfold RoomOptionsTab.new, RoomOptionsTab.finishDiv. intros H.
  now rewrite (addRooms_ids _ _ _ _ _ H).
Qed.

(** The rooms tab holds one option per room, in the order of the
    schedule, under the id made from the room name; the abbreviation
    proposed is empty for a single room, the upper-case initial of the
    name otherwise.  With several rooms, a room whose name is empty has
    no initial, and the tab cannot be made. *)
Theorem RoomOptionsTab_options (initial : string -> string) (w : WCIF.t) :
  let rooms := WCIF.getRoomNames w in
  ((List.length rooms = 1%nat \/ Forall (fun room => room <> "") rooms) ->
   exists tab : OptionsTab.t,
     RoomOptionsTab.new initial w = JS.Ok tab /\
     OptionsTab.options tab
     = map (fun room =>
              RoomOption.new room
                (TextValue (if Nat.eqb (List.length rooms) 1 then "" else initial room)))
         rooms /\
     map getId (OptionsTab.options tab) = map RoomOption.genId rooms) /\
  (List.length rooms <> 1%nat -> In "" rooms ->
   RoomOptionsTab.new initial w = JS.Throw JS.TypeError).
Proof.
  intros rooms. unfold RoomOptionsTab.new, RoomOptionsTab.finishDiv. fold rooms.
  split.
  - intros H.
    destruct (addRooms_options initial (List.length rooms) rooms
                (OptionsTab.new "Rooms" "roomAbbrs"
                   ("Enter an abbreviation (max 2 letters) for each room. "
                    ++ "This will show up in the " ++ String (ascii_of_nat 34) "Group"
                    ++ String (ascii_of_nat 34) " field of a scorecard. "
                    ++ "If you'd like, you can leave abbreviations blank.")) H)
      as (tab & Htab & Hopts).
    exists tab. split; [exact Htab |]. simpl in Hopts. rewrite Hopts.
    split; [reflexivity |]. now rewrite map_map.
  - intros Hne Hin. now apply addRooms_throws.
Qed.

(** The sample document has one room: its abbreviation is proposed
    empty. *)
Lemma RoomOptionsTab_options_witness :
  exists tab : OptionsTab.t,
    RoomOptionsTab.new (fun room => room) (Samples.assigned 2) = JS.Ok tab /\
    OptionsTab.options tab = [RoomOption.new "Ballroom" (TextValue "")].
Proof.
  destruct (proj1 (RoomOptionsTab_options (fun room => room) (Samples.assigned 2)))
    as (tab & Htab & Hopts & _).
  - left. reflexivity.
  - exists tab. split; [exact Htab | exact Hopts].
Defined.

(** ** main.js: the options object *)

Lemma optionsObjOf_lookup (options : list Option_) (formData : FormData)
    (optionsObj0 : OptionsObj) (id : string) :
  let optionsObj :=
    fold_left
      (fun (optionsObj : OptionsObj) option =>
         <[ getId option :=
              {| inputType := inputType option;
                 getId := getId option;
                 defaultValue := defaultValue option;
                 value := formValue (FormData_get (getId option) formData) |} ]>
           optionsObj)
      options optionsObj0 in
  (In id (map getId options) ->
   exists o : Option_,
     optionsObj !! id = Some o /\ getId o = id /\
     value o = formValue (FormData_get id formData)) /\
  (~ In id (map getId options) -> optionsObj !! id = optionsObj0 !! id).
Proof.
  revert optionsObj0. induction options as [| option options IH]; intros optionsObj0.
  - simpl. split; [intros [] | reflexivity].
  - cbn [fold_left map]. cbv zeta in IH |- *.
    destruct (IH (<[ getId option :=
                       {| inputType := inputType option;
                          getId := getId option;
                          defaultValue := defaultValue option;
                          value := formValue (FormData_get (getId option) formData) |} ]>
                    optionsObj0)) as [Hin Hout].
    destruct (in_dec string_dec id (map getId options)) as [Hrest | Hrest].
    + split; [intros _; now apply Hin | intros Hno; elim Hno; now right].
    + rewrite (Hout Hrest). split.
      * intros [<- | H]; [| now elim Hrest].
        rewrite lookup_insert_eq. eexists. now repeat split.
      * intros Hno. apply lookup_insert_ne. intros E. apply Hno. now left.
Qed.

(** From the tabs to the options object: every round of every listed
    event, and every room, finds its option under its id, with the
    value the form holds for that id; whatever is found under an id has
    that id and that value. *)
Theorem optionsToPdf_options (initial : string -> string) (w : WCIF.t)
    (optionsTabArr : list OptionsTab.t) (formData : FormData) :
  optTabsCreate initial w = JS.Ok optionsTabArr ->
  let optionsObj := optionsObjOf (flat_map OptionsTab.options optionsTabArr) formData in
  optionsToPdf w optionsTabArr formData = genScPdfsFromWcif w optionsObj /\
  (forall (eventId : string) (round numRounds : nat),
      In eventId (WCIF.getEventIds w) ->
      WCIF.getNumRounds w eventId = JS.Ok numRounds ->
      (1 <= round <= numRounds)%nat ->
      exists o : Option_,
        optionsObj !! RoundBlanksOption.genId eventId round = Some o /\
        value o = formValue (FormData_get (RoundBlanksOption.genId eventId round) formData)) /\
  (forall room : string,
      In room (WCIF.getRoomNames w) ->
      exists o : Option_,
        optionsObj !! RoomOption.genId room = Some o /\
        value o = formValue (FormData_get (RoomOption.genId room) formData)) /\
  (forall (id : string) (o : Option_),
      optionsObj !! id = Some o ->
      getId o = id /\ value o = formValue (FormData_get id formData)).
Proof.
  intros H optionsObj. unfold optTabsCreate in H.
  bind_inv H. bind_inv H. injection H as <-. rename a into rooms, a0 into blanks.
  split; [reflexivity |].
  pose proof (optionsObjOf_lookup
                (flat_map OptionsTab.options [HelpOptionsTab.new; rooms; blanks])
                formData ∅) as Hlookup.
  cbv zeta in Hlookup. fold (optionsObjOf
                               (flat_map OptionsTab.options [HelpOptionsTab.new; rooms; blanks])
                               formData) in Hlookup.
  fold optionsObj in Hlookup.
  assert (Hids : map getId (flat_map OptionsTab.options [HelpOptionsTab.new; rooms; blanks])
                 = (map getId (OptionsTab.options rooms)
                    ++ map getId (OptionsTab.options blanks))%list).
  { simpl. now rewrite app_nil_r, map_app. }
  split; [| split].
  - intros eventId round numRounds He Hn Hr.
    destruct (proj1 (Hlookup (RoundBlanksOption.genId eventId round))) as (o & Ho & _ & Hv).
    + rewrite Hids. apply in_or_app. right.
      apply (proj1 (proj2 (BlanksOptionsTab_options_parts _ _ Hstep0))).
      now exists eventId, round, numRounds.
    + now exists o.
  - intros room Hroom.
    destruct (proj1 (Hlookup (RoomOption.genId room))) as (o & Ho & _ & Hv).
    + rewrite Hids. apply in_or_app. left.
      rewrite (RoomOptionsTab_ids _ _ _ Hstep). now apply in_map.
    + now exists o.
  - intros id o Ho.
    destruct (in_dec string_dec id
                (map getId (flat_map OptionsTab.options [HelpOptionsTab.new; rooms; blanks])))
      as [Hin | Hout].
    + destruct (proj1 (Hlookup id) Hin) as (o' & Ho' & Hid & Hv).
      rewrite Ho in Ho'. injection Ho' as <-. now split.
    + rewrite (proj2 (Hlookup id) Hout) in Ho. discriminate Ho.
Qed.

(** The form gives three pages for the second round of 3x3x3 and
    holds no other field. *)
Lemma optionsToPdf_options_witness :
  exists (optionsTabArr : list OptionsTab.t) (o : Option_),
    optTabsCreate (fun room => room) (Samples.assigned 8) = JS.Ok optionsTabArr /\
    optionsObjOf (flat_map OptionsTab.options optionsTabArr)
      [("blanks-round-333-r2", "3")]
    !! RoundBlanksOption.genId "333" 2 = Some o /\
    value o = TextValue "3".
Proof.
  destruct (optTabsCreate (fun room => room) (Samples.assigned 8))
    as [optionsTabArr | e] eqn:E; [| vm_compute in E; discriminate E].
  destruct (optionsToPdf_options _ _ _ [("blanks-round-333-r2", "3")] E)
    as (_ & Hrounds & _).
  destruct (Hrounds "333" 2%nat 4%nat) as (o & Ho & Hv);
    [simpl; now left | reflexivity | lia |].
  exists optionsTabArr, o. split; [reflexivity | split; [exact Ho | exact Hv]].
Defined.

(** ** sc_pdf.js: the documents of a competition *)

Lemma genScPdfEvent_savedFor (w : WCIF.t) (optionsObj : OptionsObj)
    (eventId : string) (env : Env) :
  genScPdfEvent w optionsObj eventId = JS.Ok env -> savedFor w optionsObj eventId env.
Proof.
  intros H. split; [exact H |]. unfold genScPdfEvent in H.
  bind_inv H. bind_inv H.
  destruct (WCIF.eventIdToName eventId) as [| | name]; try discriminate H.
  injection H as <-. now exists name.
Qed.

Lemma genScPdfsFor_spec (w : WCIF.t) (optionsObj : OptionsObj)
    (eventIds : list string) (saved0 saved : list Env) (outcome : JS.result unit) :
  genScPdfsFor w optionsObj eventIds saved0 = (saved, outcome) ->
  exists (done rest : list string) (new : list Env),
    eventIds = (done ++ rest)%list /\
    saved = (saved0 ++ new)%list /\
    Forall2 (savedFor w optionsObj) done new /\
    match outcome with
    | JS.Ok _ => rest = []
    | JS.Throw e =>
        exists (eventId : string) (later : list string),
          rest = eventId :: later /\
          genScPdfEvent w optionsObj eventId = JS.Throw e
    end.
Proof.
  revert saved0. induction eventIds as [| eventId eventIds IH]; simpl; intros saved0 H.
  - injection H as <- <-. exists [], [], [].
    split; [reflexivity | split; [now rewrite app_nil_r | split; [constructor | reflexivity]]].
  - destruct (genScPdfEvent w optionsObj eventId) as [env | e] eqn:E.
    + destruct (IH _ H) as (done & rest & new & -> & -> & Hall & Hout).
      exists (eventId :: done), rest, (env :: new).
      split; [reflexivity | split; [now rewrite <- app_assoc | split; [| exact Hout]]].
      constructor; [now apply genScPdfEvent_savedFor | exact Hall].
    + injection H as <- <-. exists [], (eventId :: eventIds), [].
      split; [reflexivity | split; [now rewrite app_nil_r | split; [constructor |]]].
      now exists eventId, eventIds.
Qed.

(** One document per listed event, saved in the order of the list and
    named after the competition and the event.  When the generation of
    an event throws, the run ends with that exception: the documents
    of the events before it are saved, and none after. *)
Theorem genScPdfsFromWcif_files (w : WCIF.t) (optionsObj : OptionsObj)
    (saved : list Env) (outcome : JS.result unit) :
  genScPdfsFromWcif w optionsObj = (saved, outcome) ->
  exists done rest : list string,
    WCIF.getEventIds w = (done ++ rest)%list /\
    Forall2 (savedFor w optionsObj) done saved /\
    match outcome with
    | JS.Ok _ => rest = []
    | JS.Throw e =>
        exists (eventId : string) (later : list string),
          rest = eventId :: later /\
          genScPdfEvent w optionsObj eventId = JS.Throw e
    end.
Proof.
  intros H. unfold genScPdfsFromWcif in H.
  destruct (genScPdfsFor_spec _ _ _ _ _ _ H) as (done & rest & new & Hids & -> & Hall & Hout).
  now exists done, rest.
Qed.

(** The sample competition, one page of blanks per round: the document
    of 3x3x3 is saved, then that of multi-blind. *)
Lemma genScPdfsFromWcif_files_witness :
  exists saved : list Env,
    genScPdfsFromWcif (Samples.assigned 2) (Samples.options 1) = (saved, JS.Ok tt) /\
    map (fun env => jsPDF.savedAs (doc env)) saved
    = [ Some "SampleOpen2026_3x3x3_Cube.pdf";
        Some "SampleOpen2026_3x3x3_Multi-Blind.pdf" ].
Proof.
  destruct (genScPdfsFromWcif (Samples.assigned 2) (Samples.options 1))
    as [saved outcome] eqn:E.
  destruct (genScPdfsFromWcif_files _ _ _ _ E) as (done & rest & _ & _ & Hout).
  exists saved. vm_compute in E. injection E as <- <-. split; reflexivity.
Defined.

Lemma eventIdToName_table (eventId name : string) :
  WCIF.eventIdToName eventId = JS.Val name -> In (eventId, name) eventNames.
Proof.
  unfold WCIF.eventIdToName.
  repeat match goal with
         | |- context [String.eqb eventId ?k] =>
             destruct (String.eqb_spec eventId k) as [-> | _];
             [intros [= <-]; simpl; tauto |]
         end.
  discriminate.
Qed.

(** Two events with names have different file names. *)
Lemma fileName_inj (w : WCIF.t) (e1 e2 n1 n2 : string) :
  WCIF.eventIdToName e1 = JS.Val n1 ->
  WCIF.eventIdToName e2 = JS.Val n2 ->
  fileName w n1 = fileName w n2 -> e1 = e2.
Proof.
  intros H1 H2 E. apply eventIdToName_table in H1. apply eventIdToName_table in H2.
  unfold fileName in E. apply append_inj_l in E. apply (append_inj_l "_") in E.
  assert (Hall : forallb (fun p1 =>
                   forallb (fun p2 =>
                     implb (String.eqb (JS.replaceAll " " "_" (snd p1) ++ ".pdf")
                                       (JS.replaceAll " " "_" (snd p2) ++ ".pdf"))
                           (String.eqb (fst p1) (fst p2)))
                     eventNames) eventNames = true) by (vm_compute; reflexivity).
  pose proof (proj1 (forallb_forall _ _) Hall _ H1) as Hrow.
  pose proof (proj1 (forallb_forall _ _) Hrow _ H2) as Hcell.
  simpl in Hcell. rewrite E, String.eqb_refl in Hcell.
  now apply String.eqb_eq in Hcell.
Qed.

Lemma Forall2_In_r {A B : Type} (P : A -> B -> Prop) (l1 : list A) (l2 : list B) (y : B) :
  Forall2 P l1 l2 -> In y l2 -> exists x : A, In x l1 /\ P x y.
Proof.
  induction 1 as [| x y' l1 l2 Hxy _ IH]; intros Hin; [destruct Hin |].
  destruct Hin as [<- | Hin]; [exists x; split; [now left | exact Hxy] |].
  destruct (IH Hin) as (x' & Hx' & HP). exists x'. split; [now right | exact HP].
Qed.

Lemma savedFor_inj (w : WCIF.t) (optionsObj : OptionsObj) (e1 e2 : string)
    (env1 env2 : Env) :
  savedFor w optionsObj e1 env1 -> savedFor w optionsObj e2 env2 ->
  jsPDF.savedAs (doc env1) = jsPDF.savedAs (doc env2) -> e1 = e2.
Proof.
  intros (_ & n1 & Hn1 & Hs1) (_ & n2 & Hn2 & Hs2) E.
  rewrite Hs1, Hs2 in E. injection E as E.
  exact (fileName_inj w e1 e2 n1 n2 Hn1 Hn2 E).
Qed.

(** No document overwrites another: when the listed events are
    distinct, so are the names of the files saved.  And none of them is
    the file of Fewest Moves. *)
Theorem saved_files_distinct (w : WCIF.t) (optionsObj : OptionsObj)
    (saved : list Env) (outcome : JS.result unit) :
  genScPdfsFromWcif w optionsObj = (saved, outcome) ->
  (List.NoDup (WCIF.getEventIds w) ->
   List.NoDup (map (fun env => jsPDF.savedAs (doc env)) saved)) /\
  ~ In (Some (fileName w "3x3x3 Fewest Moves"))
      (map (fun env => jsPDF.savedAs (doc env)) saved).
Proof.
  intros H. unfold genScPdfsFromWcif in H.
  destruct (genScPdfsFor_spec _ _ _ _ _ _ H) as (done & rest & new & Hids & -> & Hall & _).
  simpl app. split.
  - intros Hnd. rewrite Hids in Hnd. apply NoDup_app_remove_r in Hnd.
    clear - Hall Hnd. induction Hall as [| e env done new He Hall IH]; simpl;
      [apply List.NoDup_nil |].
    inversion Hnd as [| ? ? Hnot Hnd']. subst.
    apply List.NoDup_cons; [| now apply IH].
    intros Hdup. apply in_map_iff in Hdup. destruct Hdup as (env' & Hname & Henv').
    destruct (Forall2_In_r _ _ _ _ Hall Henv') as (e' & He' & Hs').
    apply Hnot. now rewrite (savedFor_inj _ _ _ _ _ _ He Hs' (eq_sym Hname)).
  - intros Hin. apply in_map_iff in Hin. destruct Hin as (env & Hname & Henv).
    destruct (Forall2_In_r _ _ _ _ Hall Henv) as (e & He & (_ & n & Hn & Hs)).
    rewrite Hs in Hname. injection Hname as Hname.
    assert (Hfm : e = "333fm").
    { exact (fileName_inj w e "333fm" n "3x3x3 Fewest Moves" Hn eq_refl Hname). }
    apply (getEventIds_without_fewest_moves w). rewrite Hids, <- Hfm.
    apply in_or_app. now left.
Qed.

Lemma saved_files_distinct_witness :
  exists saved : list Env,
    genScPdfsFromWcif (Samples.assigned 2) (Samples.options 1) = (saved, JS.Ok tt) /\
    List.NoDup (map (fun env => jsPDF.savedAs (doc env)) saved).
Proof.
  destruct (genScPdfsFromWcif (Samples.assigned 2) (Samples.options 1))
    as [saved outcome] eqn:E.
  pose proof (proj1 (saved_files_distinct _ _ _ _ E)) as Hnd.
  exists saved. split.
  - vm_compute in E. injection E as <- <-. reflexivity.
  - apply Hnd. simpl.
    apply List.NoDup_cons; [| apply List.NoDup_cons; [intros [] | apply List.NoDup_nil]].
    intros [H | []]. discriminate H.
Defined.

(** ** sc_pdf.js: the rows of attempts *)

Lemma getCutoffText_Ok (attempts totalCentisec : JS.js JS.number) (text : string) :
  SCPDFData.getCutoffText attempts totalCentisec = JS.Ok text ->
  attempts = JS.Val (JS.Int 1) \/ attempts = JS.Val (JS.Int 2).
Proof.
  unfold SCPDFData.getCutoffText.
  destruct attempts as [| | [| z]]; try discriminate.
  destruct z as [| p | p]; try discriminate.
  destruct p as [q | q |]; try discriminate.
  - destruct q; try discriminate. now right.
  - now left.
Qed.

Lemma formatToAttempts_formats (format : string) (total : Z) :
  SCPDFData.formatToAttempts format = JS.Val (JS.Int total) ->
  In (format, total) [("a", 5); ("m", 3); ("1", 1); ("2", 2); ("3", 3); ("5", 5)].
Proof.
  unfold SCPDFData.formatToAttempts.
  repeat match goal with
         | |- context [String.eqb format ?k] =>
             destruct (String.eqb_spec format k) as [-> | _];
             [intros [= <-]; simpl; tauto |]
         end.
  discriminate.
Qed.

(** The counts of attempts of a formatted scorecard are those
    [#setCutoffData] gives. *)
Lemma fromScData_attempts (scData : SCData.t) (scPdfData : SCPDFData.t) :
  SCPDFData.fromScData scData = JS.Ok scPdfData ->
  fromDeriver scData ->
  exists cutoffText : JS.js string,
    SCPDFData.setCutoffData scData
    = JS.Ok (SCPDFData.attemptsPreCutoff scPdfData,
             SCPDFData.attemptsPostCutoff scPdfData, cutoffText).
Proof.
  intros H Hty. unfold SCPDFData.fromScData in H. unfold fromDeriver in Hty.
  destruct (SCData.type scData); [| | now elim Hty].
  - bind_inv H. bind_inv H. injection H as <-. simpl.
    destruct a0 as [[pre post] text]. now exists text.
  - bind_inv H. injection H as <-. simpl.
    destruct a as [[pre post] text]. now exists text.
Qed.

(** The rows of attempts of a scorecard, those before and those after
    the cutoff line taken together, are numbered 1, 2, ... up to the
    number of attempts of the format, each with four empty cells,
    provided a cutoff does not ask for more attempts than the format
    has. *)
Theorem attempt_rows_cover_format (scData : SCData.t) (scPdfData : SCPDFData.t)
    (total : Z) :
  SCPDFData.fromScData scData = JS.Ok scPdfData ->
  fromDeriver scData ->
  SCPDFData.formatToAttempts (SCData.format scData) = JS.Val (JS.Int total) ->
  (forall c : Z,
      SCData.cutoffCentisec scData <> JS.Null ->
      SCData.cutoffAttempts scData = JS.Val (JS.Int c) -> c <= total) ->
  let rows := (pdfAddPreCutoffAttempts_body scPdfData
               ++ pdfAddPostCutoffAttempts_body scPdfData)%list in
  map fst rows = map (fun i => AttemptNumber (Z.of_nat i)) (seq 1 (Z.to_nat total)) /\
  Forall (fun row => snd row = [""; ""; ""; ""]) rows.
Proof.
  intros H Hty Htotal Hcut rows.
  destruct (fromScData_attempts _ _ H Hty) as (text & Hset).
  unfold rows, pdfAddPreCutoffAttempts_body, pdfAddPostCutoffAttempts_body.
  unfold SCPDFData.setCutoffData in Hset. rewrite Htotal in Hset.
  apply formatToAttempts_formats in Htotal.
  simpl in Htotal.
  destruct (SCData.cutoffCentisec scData) as [| | centisec] eqn:Ecc.
  1, 3:
    (bind_inv Hset; injection Hset as Hpre Hpost _;
     destruct (getCutoffText_Ok _ _ _ Hstep) as [Ec | Ec];
     rewrite Ec in Hpre; rewrite <- Hpre, <- Hpost, Ec;
     specialize (Hcut _ ltac:(discriminate) Ec);
     repeat (destruct Htotal as [[= Hf <-] | Htotal];
             [first [lia | split; [reflexivity | repeat constructor]] |]);
     try (destruct Htotal)).
  repeat (destruct Htotal as [[= Hf <-] | Htotal];
          [rewrite <- Hf in Hset; simpl in Hset; injection Hset as <- <- _;
           split; [reflexivity | repeat constructor] |]).
  try (destruct Htotal).
Qed.

(** An average of five with a cutoff after two attempts: the rows 1
    and 2, then the rows 3, 4 and 5. *)
Lemma attempt_rows_cover_format_witness :
  exists scPdfData : SCPDFData.t,
    SCPDFData.fromScData
      (Samples.scData "333" "a" (JS.Val (JS.Int 2)) (JS.Val (JS.Int 7000)) 60000 [])
    = JS.Ok scPdfData /\
    map fst (pdfAddPreCutoffAttempts_body scPdfData)
    = [AttemptNumber 1; AttemptNumber 2] /\
    map fst (pdfAddPreCutoffAttempts_body scPdfData
             ++ pdfAddPostCutoffAttempts_body scPdfData)%list
    = map (fun i => AttemptNumber (Z.of_nat i)) (seq 1 5).
Proof.
  destruct (SCPDFData.fromScData
              (Samples.scData "333" "a" (JS.Val (JS.Int 2)) (JS.Val (JS.Int 7000)) 60000 []))
    as [scPdfData | e] eqn:E; [| vm_compute in E; discriminate E].
  exists scPdfData. split; [reflexivity |].
  split; [vm_compute in E; injection E as <-; reflexivity |].
  apply (attempt_rows_cover_format _ scPdfData 5 E).
  - discriminate.
  - reflexivity.
  - intros c _ Hc. injection Hc as <-. lia.
Defined.

(** ** sc_pdf.js: a text on one or two lines *)

Lemma substring_length (s : string) (index : nat) :
  (index <= String.length s)%nat -> String.length (substring 0 index s) = index.
Proof.
  revert index. induction s as [| c s IH]; intros [| index] H; simpl in *;
    try reflexivity; try lia.
  f_equal. apply IH. lia.
Qed.

Lemma substring_cut (s : string) (index : nat) (c : ascii) :
  String.get index s = Some c ->
  s = substring 0 index s
      ++ String c (substring (index + 1) (String.length s - (index + 1)) s).
Proof.
  revert index. induction s as [| x s IH]; intros [| index] H; simpl in *;
    try discriminate.
  - injection H as <-. rewrite Nat.sub_0_r. now rewrite substring_whole.
  - f_equal. now apply IH.
Qed.

Lemma get_in_range (s : string) (index : nat) (c : ascii) :
  String.get index s = Some c -> (index < String.length s)%nat.
Proof.
  revert index. induction s as [| x s IH]; intros [| index] H; simpl in *;
    try discriminate; try lia.
  apply IH in H. lia.
Qed.

Section LineBreaks.

Variable getTextWidth : string -> float -> string -> float.
Variable fontSize : float.
Variables boldText regularText : string.

Abbreviation fits := (firstLineFits getTextWidth fontSize boldText regularText).
Abbreviation cut := (mayCut regularText).

Lemma newlineIndexFrom_spec (start : nat) :
  (start <= String.length regularText)%nat ->
  match Lines.newlineIndexFrom getTextWidth fontSize boldText regularText start with
  | JS.Ok index =>
      (1 <= index <= start)%nat /\ cut index /\ fits index = true /\
      forall later : nat, (index < later <= start)%nat -> cut later -> fits later = false
  | JS.Throw e =>
      e = JS.Error ("Newline index is 0 for this multiline text: '"
                    ++ boldText ++ ": " ++ regularText) /\
      forall later : nat, (1 <= later <= start)%nat -> cut later -> fits later = false
  end.
Proof.
  induction start as [| start IH]; intros Hstart.
  - simpl. split; [reflexivity | intros later H; lia].
  - cbn [Lines.newlineIndexFrom]. unfold Lines.charAt.
    specialize (IH ltac:(lia)).
    assert (Hskip : forall later : nat,
               (forall l : nat, (1 <= l <= start)%nat -> cut l -> fits l = false) ->
               (cut (S start) -> fits (S start) = false) ->
               (1 <= later <= S start)%nat -> cut later -> fits later = false).
    { intros later Hbelow Hhere Hrange Hcut.
      destruct (Nat.eq_dec later (S start)) as [-> | Hne]; [now apply Hhere |].
      apply Hbelow; [lia | exact Hcut]. }
    assert (Hstep : forall P : Prop,
               (cut (S start) -> fits (S start) = false) ->
               match Lines.newlineIndexFrom getTextWidth fontSize boldText regularText start with
               | JS.Ok index =>
                   (1 <= index <= S start)%nat /\ cut index /\ fits index = true /\
                   forall later : nat,
                     (index < later <= S start)%nat -> cut later -> fits later = false
               | JS.Throw e =>
                   e = JS.Error ("Newline index is 0 for this multiline text: '"
                                 ++ boldText ++ ": " ++ regularText) /\
                   forall later : nat,
                     (1 <= later <= S start)%nat -> cut later -> fits later = false
               end).
    { intros _ Hhere.
      destruct (Lines.newlineIndexFrom getTextWidth fontSize boldText regularText start)
        as [index | e].
      - destruct IH as (Hr & Hc & Hf & Hlater).
        split; [lia | split; [exact Hc | split; [exact Hf |]]].
        intros later Hrange Hcut.
        destruct (Nat.eq_dec later (S start)) as [-> | Hne]; [now apply Hhere |].
        apply Hlater; [lia | exact Hcut].
      - destruct IH as (He & Hlater). split; [exact He |].
        intros later Hrange Hcut. now apply (Hskip later Hlater Hhere). }
    destruct (Nat.ltb_spec (S start) (String.length regularText)) as [Hlt | Hge].
    + destruct (String.get (S start) regularText) as [c |] eqn:Eg.
      * destruct (Ascii.eqb_spec c " ") as [-> | Hc]; cbn [negb andb].
        -- fold (firstLineFits getTextWidth fontSize boldText regularText (S start)).
           destruct (fits (S start)) eqn:Ef.
           ++ split; [lia | split; [now right | split; [exact Ef |]]].
              intros later Hrange. lia.
           ++ apply (Hstep True). now intros _.
        -- apply (Hstep True). intros [Hc' | Hc']; [lia |].
           rewrite Eg in Hc'. injection Hc' as ->. now elim Hc.
      * cbn [negb andb]. fold (firstLineFits getTextWidth fontSize boldText regularText (S start)).
           destruct (fits (S start)) eqn:Ef.
        -- exfalso.
           assert (Hnone : forall (s : string) (i : nat),
                      (i < String.length s)%nat -> String.get i s <> None).
           { clear. induction s as [| x s IHs]; intros [| i] H; simpl in *;
               try lia; try discriminate. apply IHs. lia. }
           now apply (Hnone regularText (S start) Hlt).
        -- apply (Hstep True). now intros _.
    + cbn [andb]. fold (firstLineFits getTextWidth fontSize boldText regularText (S start)).
           destruct (fits (S start)) eqn:Ef.
      * split; [lia | split; [left; lia | split; [exact Ef |]]].
        intros later Hrange. lia.
      * apply (Hstep True). now intros _.
Qed.

(** Where [pdfTextBoldAndRegular] breaks a text.  On one line, the
    text is written whole.  When two lines are allowed, the first line
    ends at the last place, the end of the text or one of its spaces,
    up to which it fits the width next to the bold text; the second
    line is what follows the space, so that the two lines with that
    space between them are the text, and the height is two lines and
    one point.  When the first line fits nowhere, not even up to the
    first space, or the text is empty, an error is thrown. *)
Theorem pdfTextBoldAndRegular_lines :
  Lines.pdfTextBoldAndRegular getTextWidth fontSize boldText regularText false
  = JS.Ok {| Lines.bold := boldText ++ ": ";
             Lines.line1 := regularText;
             Lines.line2 := None;
             Lines.textHeight := fontSize |} /\
  (forall written : Lines.Written,
      Lines.pdfTextBoldAndRegular getTextWidth fontSize boldText regularText true
      = JS.Ok written ->
      Lines.bold written = boldText ++ ": " /\
      (1 <= String.length (Lines.line1 written) <= String.length regularText)%nat /\
      fits (String.length (Lines.line1 written)) = true /\
      (forall later : nat,
          (String.length (Lines.line1 written) < later <= String.length regularText)%nat ->
          cut later -> fits later = false) /\
      match Lines.line2 written with
      | None => Lines.line1 written = regularText /\ Lines.textHeight written = fontSize
      | Some second =>
          regularText = Lines.line1 written ++ " " ++ second /\
          Lines.textHeight written = (fontSize + (fontSize + 1))%float
      end) /\
  ((forall index : nat,
       (1 <= index <= String.length regularText)%nat -> cut index -> fits index = false)
   <-> Lines.pdfTextBoldAndRegular getTextWidth fontSize boldText regularText true
       = JS.Throw (JS.Error ("Newline index is 0 for this multiline text: '"
                             ++ boldText ++ ": " ++ regularText))).
Proof.
  pose proof (newlineIndexFrom_spec (String.length regularText) (Nat.le_refl _)) as Hspec.
  unfold Lines.pdfTextBoldAndRegular, Lines.getNewlineIndex.
  split; [| split].
  - cbn [JS.bind andb]. now rewrite substring_whole.
  - intros written H.
    destruct (Lines.newlineIndexFrom getTextWidth fontSize boldText regularText
                (String.length regularText)) as [index | e]; [| discriminate H].
    destruct Hspec as (Hrange & Hcut & Hfits & Hlater).
    cbn [JS.bind andb] in H.
    destruct (Nat.eqb_spec index (String.length regularText)) as [-> | Hne];
      cbn [negb] in H; injection H as <-; cbn [Lines.bold Lines.line1 Lines.line2 Lines.textHeight].
    + rewrite substring_whole.
      split; [reflexivity | split; [lia | split; [exact Hfits | split; [exact Hlater |]]]].
      now split.
    + rewrite substring_length by lia.
      split; [reflexivity | split; [lia | split; [exact Hfits | split; [exact Hlater |]]]].
      split; [| reflexivity].
      destruct Hcut as [Hcut | Hcut]; [now elim Hne |].
      exact (substring_cut regularText index " " Hcut).
  - split.
    + intros Hnone.
      destruct (Lines.newlineIndexFrom getTextWidth fontSize boldText regularText
                  (String.length regularText)) as [index | e].
      * destruct Hspec as (Hrange & Hcut & Hfits & _).
        rewrite (Hnone index Hrange Hcut) in Hfits. discriminate Hfits.
      * destruct Hspec as (-> & _). reflexivity.
    + intros H.
      destruct (Lines.newlineIndexFrom getTextWidth fontSize boldText regularText
                  (String.length regularText)) as [index | e].
      * cbn [JS.bind andb] in H.
        destruct (negb (index =? String.length regularText)%nat); discriminate H.
      * now destruct Hspec as (_ & Hlater).
Qed.

End LineBreaks.

(** A cumulative time limit of two rounds, at ten points, each
    character six points wide: the bold text takes 138 of the 267
    points, and the first line ends at the last space before its
    twenty-second character. *)
Lemma pdfTextBoldAndRegular_lines_witness :
  Lines.pdfTextBoldAndRegular Measures.monospace 10 "Cumulative time limit"
    "1 hour for 4x4x4 Blindfolded Final and 5x5x5 Blindfolded Final" true
  = JS.Ok {| Lines.bold := "Cumulative time limit: ";
             Lines.line1 := "1 hour for 4x4x4";
             Lines.line2 := Some "Blindfolded Final and 5x5x5 Blindfolded Final";
             Lines.textHeight := 21 |} /\
  firstLineFits Measures.monospace 10 "Cumulative time limit"
    "1 hour for 4x4x4 Blindfolded Final and 5x5x5 Blindfolded Final" 16 = true /\
  Lines.pdfTextBoldAndRegular Measures.monospace 10 "Cumulative time limit" "" true
  = JS.Throw (JS.Error "Newline index is 0 for this multiline text: 'Cumulative time limit: ").
Proof.
  split; [vm_compute; reflexivity |]. split.
  - apply (proj1 (proj2 (pdfTextBoldAndRegular_lines Measures.monospace 10
                           "Cumulative time limit"
                           "1 hour for 4x4x4 Blindfolded Final and 5x5x5 Blindfolded Final"))
             {| Lines.bold := "Cumulative time limit: ";
                Lines.line1 := "1 hour for 4x4x4";
                Lines.line2 := Some "Blindfolded Final and 5x5x5 Blindfolded Final";
                Lines.textHeight := 21 |}).
    vm_compute. reflexivity.
  - apply (proj2 (proj2 (pdfTextBoldAndRegular_lines Measures.monospace 10
                           "Cumulative time limit" ""))).
    intros index Hrange. simpl in Hrange. lia.
Defined.

(** ** wcif.js: percentages on doubles *)

Lemma forallb_range (check : Z -> bool) (bound : nat) (z : Z) :
  forallb (fun i => check (Z.of_nat i)) (seq 0 (S bound)) = true ->
  0 <= z <= Z.of_nat bound -> check z = true.
Proof.
  intros H Hz. rewrite forallb_forall in H.
  rewrite <- (Z2Nat.id z) by lia. apply H. apply in_seq. lia.
Qed.

(** The number advancing by a percentage is computed on doubles, and
    the product is rounded before it is floored.  For up to 1000
    competitors and a percentage from 0 to 100 the result is the floor
    of the exact quotient when the quotient is no whole number; when it
    is one, the result is the quotient or one less.  It is never
    negative and never more than the number it is taken from. *)
Theorem floorPct_near_exact (numAdvancing pct : Z) :
  0 <= numAdvancing <= 1000 -> 0 <= pct <= 100 ->
  exists r : Z,
    WCIF.floorPct (JS.Int numAdvancing) pct = JS.Int r /\
    0 <= r <= numAdvancing /\
    (r = numAdvancing * pct / 100
     \/ ((numAdvancing * pct) mod 100 = 0 /\ r = numAdvancing * pct / 100 - 1)).
Proof.
  intros Hn Hp.
  assert (Hall : forallb (fun i =>
                   forallb (fun j => floorPctNearExact (Z.of_nat i) (Z.of_nat j))
                     (seq 0 101)) (seq 0 1001) = true) by (vm_compute; reflexivity).
  pose proof (forallb_range
                (fun n => forallb (fun j => floorPctNearExact n (Z.of_nat j)) (seq 0 101))
                1000 numAdvancing Hall ltac:(lia)) as Hrow.
  pose proof (forallb_range (floorPctNearExact numAdvancing) 100 pct Hrow ltac:(lia))
    as Hcheck.
  unfold floorPctNearExact in Hcheck.
  destruct (WCIF.floorPct (JS.Int numAdvancing) pct) as [| r]; [discriminate Hcheck |].
  exists r. split; [reflexivity |].
  apply andb_prop in Hcheck. destruct Hcheck as [Hcheck Hle].
  apply andb_prop in Hcheck. destruct Hcheck as [Hnear Hge].
  apply Z.leb_le in Hle. apply Z.leb_le in Hge. split; [lia |].
  apply orb_prop in Hnear. destruct Hnear as [H | H].
  - left. now apply Z.eqb_eq in H.
  - right. apply andb_prop in H. destruct H as [H1 H2].
    apply Z.eqb_eq in H1. apply Z.eqb_eq in H2. now split.
Qed.

(** 29 percent of 100 competitors: 28, one less than the quotient. *)
Lemma floorPct_near_exact_witness :
  exists r : Z,
    WCIF.floorPct (JS.Int 100) 29 = JS.Int r /\
    0 <= r <= 100 /\
    (r = 100 * 29 / 100 \/ ((100 * 29) mod 100 = 0 /\ r = 100 * 29 / 100 - 1)).
Proof. apply floorPct_near_exact; lia. Defined.
